(** * Commit-graph visualizers: a shallow embedding of the three scripts

    The repository holds three independent Python scripts that read a
    repository's loose objects, parse commit objects and render a graph:

    - [git_dependency_visualizer.py]  (module [GitDependencyVisualizer]):
      scan of the store filtered by a target identifier, DOT output;
    - [visualizer.py]                 (module [Visualizer]):
      scan of the store filtered by author date, PlantUML output;
    - [test.py]                       (module [TestScript]):
      walk from HEAD along the recorded parent, filtered by committer date.

    Python values are modelled as they are at run time: [str] is a list of
    code points, [bytes] a list of bytes, exceptions are a result type, and
    the effects of the scripts (file-system probes, prints, writes, the
    external renderer) are recorded in an event log by a writer/error monad.
    What lies outside the repository (the file system, [os.walk], [zlib],
    [int], the PlantUML binary) is a field of the environment [Env]. *)

From Stdlib Require Import List NArith ZArith Bool Lia.
From Stdlib.Strings Require Import String Ascii Byte.
From Stdlib Require Import DecimalString Permutation Sorted.
Import ListNotations.

Local Open Scope list_scope.
Local Open Scope N_scope.

(** ** Python primitives *)

Module Py.

(** A Python [str]: a sequence of Unicode code points. *)
Definition str := list N.

(** A Python [bytes] object. *)
Definition bytes := list byte.

(** An ASCII literal as a [str] and as a [bytes] object. *)
Definition lit (s : string) : str := map Byte.to_N (list_byte_of_string s).
Definition blit (s : string) : bytes := list_byte_of_string s.

Fixpoint list_eqb {A} (eqb : A -> A -> bool) (l1 l2 : list A) : bool :=
  match l1, l2 with
  | [], [] => true
  | a :: l1', b :: l2' => eqb a b && list_eqb eqb l1' l2'
  | _, _ => false
  end.

Definition str_eqb : str -> str -> bool := list_eqb N.eqb.

Definition null {A} (l : list A) : bool :=
  match l with [] => true | _ => false end.

(** [prefixb eqb p s]: [s] starts with [p]. *)
Fixpoint prefixb {A} (eqb : A -> A -> bool) (p s : list A) : bool :=
  match p, s with
  | [], _ => true
  | a :: p', b :: s' => eqb a b && prefixb eqb p' s'
  | _ :: _, [] => false
  end.

(** [s.startswith(p)] on [str] and on [bytes]. *)
Definition startswith (s p : str) : bool := prefixb N.eqb p s.
Definition bstartswith (b p : bytes) : bool := prefixb Byte.eqb p b.

(** [s.endswith(p)]. *)
Definition endswith (s p : str) : bool := prefixb N.eqb (rev p) (rev s).

(** [t in s] for two strings: [t] occurs in [s] as a substring. *)
Fixpoint contains (s t : str) : bool :=
  prefixb N.eqb t s ||
  match s with
  | [] => false
  | _ :: s' => contains s' t
  end.

(** [str.isspace] of one code point: the characters [str.split()] and
    [str.strip()] treat as white space. *)
Definition isspace (c : N) : bool :=
  ((9 <=? c) && (c <=? 13)) || ((28 <=? c) && (c <=? 32))
  || (c =? 133) || (c =? 160) || (c =? 5760)
  || ((8192 <=? c) && (c <=? 8202))
  || (c =? 8232) || (c =? 8233) || (c =? 8239) || (c =? 8287) || (c =? 12288).

(** [s.split()]: the maximal runs of characters that are not white space. *)
Fixpoint split_ws_from (s cur : str) : list str :=
  match s with
  | [] => if null cur then [] else [rev cur]
  | c :: s' =>
      if isspace c
      then (if null cur then split_ws_from s' [] else rev cur :: split_ws_from s' [])
      else split_ws_from s' (c :: cur)
  end.

Definition split_ws (s : str) : list str := split_ws_from s [].

(** [s.split(sep)] for a separator of one character: never empty. *)
Fixpoint split_on (sep : N) (s : str) : list str :=
  match s with
  | [] => [[]]
  | c :: s' =>
      if c =? sep then [] :: split_on sep s'
      else match split_on sep s' with
           | w :: ws => (c :: w) :: ws
           | [] => [[c]]
           end
  end.

(** [s.split(sep, 1)] for a separator of one element: one piece when the
    separator is absent, two otherwise. *)
Fixpoint split_once {A} (is_sep : A -> bool) (s : list A) : list (list A) :=
  match s with
  | [] => [[]]
  | c :: s' =>
      if is_sep c then [[]; s']
      else match split_once is_sep s' with
           | w :: ws => (c :: w) :: ws
           | [] => [[c]]
           end
  end.

(** Line boundaries of [str.splitlines] and of [bytes.splitlines]. *)
Definition is_linebreak (c : N) : bool :=
  ((10 <=? c) && (c <=? 13)) || ((28 <=? c) && (c <=? 30))
  || (c =? 133) || (c =? 8232) || (c =? 8233).

Definition is_bytes_linebreak (c : N) : bool := (c =? 10) || (c =? 13).

(** [splitlines()]: lines without their terminators; a carriage return
    followed by a line feed is one boundary; no empty last line. *)
Fixpoint splitlines_from (brk : N -> bool) (s cur : list N) : list (list N) :=
  match s with
  | [] => if null cur then [] else [rev cur]
  | c :: s' =>
      if brk c then
        match s' with
        | d :: s'' =>
            if (c =? 13) && (d =? 10)
            then rev cur :: splitlines_from brk s'' []
            else rev cur :: splitlines_from brk s' []
        | [] => [rev cur]
        end
      else splitlines_from brk s' (c :: cur)
  end.

Definition splitlines (s : str) : list str := splitlines_from is_linebreak s [].

Definition bytes_splitlines (b : bytes) : list (list N) :=
  splitlines_from is_bytes_linebreak (map Byte.to_N b) [].

(** [s.strip()]. *)
Fixpoint lstrip (s : str) : str :=
  match s with
  | c :: s' => if isspace c then lstrip s' else s
  | [] => []
  end.

Definition strip (s : str) : str := rev (lstrip (rev (lstrip s))).

(** [sep.join(parts)]. *)
Fixpoint join (sep : str) (parts : list str) : str :=
  match parts with
  | [] => []
  | [p] => p
  | p :: rest => p ++ sep ++ join sep rest
  end.

(** [str(n)] of a natural number, as in an f-string. *)
Definition str_of_N (n : N) : str := lit (NilZero.string_of_uint (N.to_uint n)).

(** [l[-2]]. *)
Definition nth_from_end2 {A} (l : list A) : option A :=
  match rev l with
  | _ :: x :: _ => Some x
  | _ => None
  end.

(** Strict UTF-8 decoding of a byte sequence, [None] where Python raises
    [UnicodeDecodeError]: overlong forms, surrogates, code points above
    U+10FFFF, stray or missing continuation bytes are all refused. *)
Definition is_cont (b : N) : bool := (128 <=? b) && (b <=? 191).

Definition second_ok3 (b0 b1 : N) : bool :=
  if b0 =? 224 then (160 <=? b1) && (b1 <=? 191)
  else if b0 =? 237 then (128 <=? b1) && (b1 <=? 159)
  else is_cont b1.

Definition second_ok4 (b0 b1 : N) : bool :=
  if b0 =? 240 then (144 <=? b1) && (b1 <=? 191)
  else if b0 =? 244 then (128 <=? b1) && (b1 <=? 143)
  else is_cont b1.

Fixpoint decode_utf8 (b : list N) : option str :=
  match b with
  | [] => Some []
  | b0 :: r0 =>
      if b0 <? 128 then option_map (cons b0) (decode_utf8 r0)
      else if (194 <=? b0) && (b0 <=? 223) then
        match r0 with
        | b1 :: r1 =>
            if is_cont b1
            then option_map (cons ((b0 - 192) * 64 + (b1 - 128))) (decode_utf8 r1)
            else None
        | _ => None
        end
      else if (224 <=? b0) && (b0 <=? 239) then
        match r0 with
        | b1 :: b2 :: r2 =>
            if second_ok3 b0 b1 && is_cont b2
            then option_map
                   (cons ((b0 - 224) * 4096 + (b1 - 128) * 64 + (b2 - 128)))
                   (decode_utf8 r2)
            else None
        | _ => None
        end
      else if (240 <=? b0) && (b0 <=? 244) then
        match r0 with
        | b1 :: b2 :: b3 :: r3 =>
            if second_ok4 b0 b1 && is_cont b2 && is_cont b3
            then option_map
                   (cons ((b0 - 240) * 262144 + (b1 - 128) * 4096
                          + (b2 - 128) * 64 + (b3 - 128)))
                   (decode_utf8 r3)
            else None
        | _ => None
        end
      else None
  end.

(** [b.decode('utf-8')]. *)
Definition decode (b : bytes) : option str := decode_utf8 (map Byte.to_N b).

(** Text-mode reading translates every line ending to a line feed. *)
Fixpoint universal_newlines (s : str) : str :=
  match s with
  | [] => []
  | c :: s' =>
      if c =? 13 then
        match s' with
        | d :: s'' => if d =? 10 then 10 :: universal_newlines s''
                      else 10 :: universal_newlines s'
        | [] => [10]
        end
      else c :: universal_newlines s'
  end.

(** [os.path.join] of [posixpath]: an absolute component discards what
    precedes it; a separator is inserted unless the left part is empty or
    already ends with one. *)
Definition path_join2 (a b : str) : str :=
  if startswith b (lit "/") then b
  else if null a || endswith a (lit "/") then a ++ b
  else a ++ lit "/" ++ b.

Definition path_join (a : str) (ps : list str) : str := fold_left path_join2 ps a.

(** [os.path.basename]: what follows the last separator. *)
Definition basename (p : str) : str := last (split_on 47 p) [].

(** [os.path.dirname]: what precedes the last separator, without trailing
    separators unless it consists of separators only. *)
Fixpoint rstrip_slash_rev (r : str) : str :=
  match r with
  | c :: r' => if c =? 47 then rstrip_slash_rev r' else r
  | [] => []
  end.

Definition dirname (p : str) : str :=
  let head := firstn (List.length p - List.length (basename p)) p in
  if null head || forallb (N.eqb 47) head then head
  else rev (rstrip_slash_rev (rev head)).

(** [s.replace(old, new)] for a non-empty [old]; the fuel bounds the
    unfolding and is the length of [s] at the call sites. *)
Fixpoint replace_from (fuel : nat) (old new s : str) : str :=
  match fuel with
  | O => s
  | S fuel' =>
      match s with
      | [] => []
      | c :: s' =>
          if prefixb N.eqb old s
          then new ++ replace_from fuel' old new (skipn (List.length old) s)
          else c :: replace_from fuel' old new s'
      end
  end.

Definition replace (s old new : str) : str := replace_from (S (List.length s)) old new s.

End Py.

(** ** Exceptions, the event log and the environment *)

Module Eff.
Import Py.

(** The exceptions the scripts can raise. [RendererError] is the plain
    [Exception] that [generate_graph_image] raises on a non-zero status;
    [SystemExit] carries the status passed to [exit]. *)
Inductive exn : Type :=
| FileNotFoundError
| IsADirectoryError
| IOError
| ZlibError
| ValueError
| UnicodeDecodeError
| TypeError
| IndexError
| KeyError
| OverflowError
| RendererError
| SystemExit (status : Z).

Inductive result (A : Type) : Type :=
| Ok (a : A)
| Raise (e : exn).
Arguments Ok {A} a.
Arguments Raise {A} e.

Definition exn_eqb (e1 e2 : exn) : bool :=
  match e1, e2 with
  | FileNotFoundError, FileNotFoundError | IsADirectoryError, IsADirectoryError
  | IOError, IOError | ZlibError, ZlibError | ValueError, ValueError
  | UnicodeDecodeError, UnicodeDecodeError | TypeError, TypeError
  | IndexError, IndexError | KeyError, KeyError
  | OverflowError, OverflowError | RendererError, RendererError => true
  | SystemExit a, SystemExit b => Z.eqb a b
  | _, _ => false
  end.

(** [except Exception] catches everything but [SystemExit]. *)
Definition is_Exception (e : exn) : bool :=
  match e with SystemExit _ => false | _ => true end.

(** [except IOError] (an alias of [OSError]) also catches its subclasses. *)
Definition is_IOError (e : exn) : bool :=
  match e with
  | IOError | FileNotFoundError | IsADirectoryError => true
  | _ => false
  end.

(** What a path names on disk. *)
Inductive node : Type :=
| File (content : bytes)
| Dir.

(** The texts printed by the scripts, one constructor per [print] site. *)
Inductive message : Type :=
| MsgDecodeError (obj_hash : str)      (* find_commits, on UnicodeDecodeError *)
| MsgNotARepository (repo_path : str)  (* verify_repo_path *)
| MsgNoCommits (target_file : str)     (* git_dependency_visualizer main: nothing selected *)
| MsgWritten (output_file : str)       (* git_dependency_visualizer main: file written *)
| MsgWriteError (output_file : str)    (* git_dependency_visualizer main: IOError *)
| MsgCodeHeader                        (* git_dependency_visualizer main: heading of the listing *)
| MsgText (text : str)                 (* git_dependency_visualizer main: the DOT text *)
| MsgTryingToRead (path : str)         (* test.py read_commit *)
| MsgGraphSaved (output_image_path : str). (* visualizer main *)

(** The observable actions of a run, in the order they happen. *)
Inductive event : Type :=
| EvWalk (top : str)
| EvExists (path : str)
| EvIsDir (path : str)
| EvOpen (path : str)
| EvWrite (path : str) (content : str)
| EvRun (cmd : list str)
| EvRename (src dst : str)
| EvPrint (m : message).

(** The read-only world the core reads: the file system, the directory
    walk, and the two library functions the scripts call. *)
Record Env : Type := {
  fs : str -> option node;
  os_walk : str -> list (str * list str);   (* (root, files) of each directory *)
  zlib_decompress : bytes -> option bytes;  (* None: zlib.error *)
  py_int : str -> option Z                  (* None: ValueError *)
}.

(** The collaborators of the two [main] functions. *)
Record Host : Type := {
  can_write : str -> bool;                  (* open(path, 'w') succeeds *)
  strptime_timestamp : str -> option Z;     (* strptime(s, "%Y-%m-%d").timestamp() *)
  run_process : list str -> Z;              (* return code of subprocess.run *)
  can_rename : str -> str -> bool
}.

(** A computation: its outcome and the events it produced. *)
Definition M (A : Type) : Type := (result A * list event)%type.

Definition ret {A} (a : A) : M A := (Ok a, []).
Definition raise {A} (e : exn) : M A := (Raise e, []).
Definition lift {A} (r : result A) : M A := (r, []).
Definition emit (ev : event) : M unit := (Ok tt, [ev]).

Definition bind {A B} (m : M A) (k : A -> M B) : M B :=
  match m with
  | (Ok a, l) => let (r, l') := k a in (r, l ++ l')
  | (Raise e, l) => (Raise e, l)
  end.

(** [try: body except <catches>: handler]. *)
Definition try_except {A} (body : M A) (catches : exn -> bool) (handler : M A) : M A :=
  match body with
  | (Raise e, l) => if catches e then let (r, l') := handler in (r, l ++ l') else body
  | _ => body
  end.

Definition outcome {A} (m : M A) : result A := fst m.
Definition events {A} (m : M A) : list event := snd m.

(** Sequencing inside the pure [result] type. *)
Definition rbind {A B} (r : result A) (k : A -> result B) : result B :=
  match r with
  | Ok a => k a
  | Raise e => Raise e
  end.

Definition of_option {A} (e : exn) (o : option A) : result A :=
  match o with
  | Some a => Ok a
  | None => Raise e
  end.

Module Notations.
Notation "x <- m ;; k" := (bind m (fun x => k))
  (at level 61, m at next level, right associativity).
Notation "' pat <- m ;; k" := (bind m (fun x => match x with pat => k end))
  (at level 61, pat pattern, m at next level, right associativity).
Notation "m ;; k" := (bind m (fun _ => k))
  (at level 61, right associativity).
Notation "x <-? r ;; k" := (rbind r (fun x => k))
  (at level 61, r at next level, right associativity).
End Notations.
Import Notations.

Section Primitives.
Context (E : Env).

(** [open(path, 'rb').read()]. *)
Definition open_rb (path : str) : M bytes :=
  emit (EvOpen path) ;;
  match fs E path with
  | Some (File content) => ret content
  | Some Dir => raise IsADirectoryError
  | None => raise FileNotFoundError
  end.

(** [open(path, 'r').read()]: text mode, UTF-8, universal newlines. *)
Definition open_r (path : str) : M str :=
  content <- open_rb path ;;
  text <- lift (of_option UnicodeDecodeError (decode content)) ;;
  ret (universal_newlines text).

(** [os.path.exists(path)]. *)
Definition path_exists (path : str) : M bool :=
  emit (EvExists path) ;;
  ret (match fs E path with Some _ => true | None => false end).

(** [os.path.isdir(path)]. *)
Definition path_isdir (path : str) : M bool :=
  emit (EvIsDir path) ;;
  ret (match fs E path with Some Dir => true | _ => false end).

(** [zlib.decompress(data)]. *)
Definition decompress (data : bytes) : M bytes :=
  lift (of_option ZlibError (zlib_decompress E data)).

(** [os.walk(top)], the (root, files) pairs in walk order. *)
Definition walk (top : str) : M (list (str * list str)) :=
  emit (EvWalk top) ;; ret (os_walk E top).
End Primitives.

Definition print (m : message) : M unit := emit (EvPrint m).

(** A Python [dict] with [str] keys: insertion ordered, assignment to a key
    already present replaces the value in place. *)
Definition dict (V : Type) : Type := list (str * V).

Fixpoint dict_set {V} (k : str) (v : V) (d : dict V) : dict V :=
  match d with
  | [] => [(k, v)]
  | (k', v') :: d' =>
      if str_eqb k' k then (k', v) :: d' else (k', v') :: dict_set k v d'
  end.

Fixpoint dict_get {V} (k : str) (d : dict V) : option V :=
  match d with
  | [] => None
  | (k', v') :: d' => if str_eqb k' k then Some v' else dict_get k d'
  end.

(** [d.get(k, default)]. *)
Definition dict_get_default {V} (k : str) (default : V) (d : dict V) : V :=
  match dict_get k d with
  | Some v => v
  | None => default
  end.

(** A value whose run-time type is [str] or [bytes]. *)
Inductive pyval : Type :=
| PStr (s : str)
| PBytes (b : bytes).

(** The double quote, as a one-character string. *)
Definition dq : str := [34].

(** The line feed, as a one-character string. *)
Definition nl : str := [10].

End Eff.

(** ** git_dependency_visualizer.py *)

Module GitDependencyVisualizer.
Import Py Eff Eff.Notations.

(** The graph maps a commit hash to its list of parent hashes. *)
Definition graph : Type := dict (list str).

(** A line of the DOT text between the two header lines and the closing
    brace: a node declaration or an edge from a commit to a parent. *)
Inductive dot_stmt : Type :=
| DotNode (commit : str)
| DotEdge (commit parent : str).

Definition dot_line (s : dot_stmt) : str :=
  match s with
  | DotNode commit =>
      lit "    " ++ dq ++ commit ++ dq ++ lit " [label=" ++ dq ++ commit ++ dq ++ lit "];"
  | DotEdge commit parent =>
      lit "    " ++ dq ++ commit ++ dq ++ lit " -> " ++ dq ++ parent ++ dq ++ lit ";"
  end.

(** The loop of [generate_graphviz]: for every item, the node and then one
    edge per parent. *)
Definition dot_stmts (g : graph) : list dot_stmt :=
  flat_map (fun '(commit, parents) => DotNode commit :: map (DotEdge commit) parents) g.

Definition generate_graphviz (g : graph) : str :=
  join nl ([lit "digraph G {"; lit "    node [shape=box, fontsize=10];"]
           ++ map dot_line (dot_stmts g)
           ++ [lit "}"]).

(** The loop of [parse_commit_data] over the lines of a [str]. *)
Fixpoint parse_lines (lines : list str) (metadata : dict str) : result (dict str) :=
  match lines with
  | [] => Ok metadata
  | line :: rest =>
      if null line then Ok metadata
      else match split_once (N.eqb 32) line with
           | [key; value] => parse_lines rest (dict_set key value metadata)
           | _ => Raise ValueError          (* key, value = [line] *)
           end
  end.

(** [parse_commit_data(commit_data)].  With a [bytes] argument the lines are
    [bytes]: [line == ""] is false for every one of them and
    [line.split(" ", 1)] raises [TypeError] on the first. *)
Definition parse_commit_data (commit_data : pyval) : result (dict str) :=
  match commit_data with
  | PStr s => parse_lines (splitlines s) []
  | PBytes b =>
      match bytes_splitlines b with
      | [] => Ok []
      | _ :: _ => Raise TypeError
      end
  end.

Section WithEnv.
Context (E : Env).

Definition object_path (repo_path object_hash : str) : str :=
  let obj_dir := path_join repo_path [lit ".git"; lit "objects"; firstn 2 object_hash] in
  path_join obj_dir [skipn 2 object_hash].

Definition read_git_object (repo_path object_hash : str) : M (str * bytes) :=
  let obj_file := object_path repo_path object_hash in
  compressed_data <- open_rb E obj_file ;;
  decompressed_data <- decompress E compressed_data ;;
  match split_once (Byte.eqb x00) decompressed_data with
  | [header; data] =>
      header' <- lift (of_option UnicodeDecodeError (decode header)) ;;
      ret (header', data)
  | _ => raise ValueError                 (* header, data = [whole] *)
  end.

Definition list_git_objects (repo_path : str) : M (list str) :=
  let objects_dir := path_join repo_path [lit ".git"; lit "objects"] in
  dirs <- walk E objects_dir ;;
  ret (flat_map
         (fun '(root, files) =>
            map (fun file => basename root ++ file)
                (filter (fun file => Nat.eqb (List.length file) 38) files))
         dirs).

(** The body of the loop of [find_commits] for one object: the list of
    commits after it. *)
Definition find_commits_step (repo_path target_file obj_hash : str)
           (commits : list str) : M (list str) :=
  '(header, data) <- read_git_object repo_path obj_hash ;;
  if startswith header (lit "commit") then
    try_except
      (commit_data <- lift (of_option UnicodeDecodeError (decode data)) ;;
       parsed_data <- lift (parse_commit_data (PStr commit_data)) ;;
       if contains (dict_get_default (lit "tree") [] parsed_data) target_file
       then ret (commits ++ [obj_hash])
       else ret commits)
      (exn_eqb UnicodeDecodeError)
      (print (MsgDecodeError obj_hash) ;; ret commits)
  else ret commits.

Fixpoint find_commits_loop (repo_path target_file : str) (objects : list str)
         (commits : list str) : M (list str) :=
  match objects with
  | [] => ret commits
  | obj_hash :: rest =>
      commits' <- find_commits_step repo_path target_file obj_hash commits ;;
      find_commits_loop repo_path target_file rest commits'
  end.

Definition find_commits (repo_path target_file : str) : M (list str) :=
  objects <- list_git_objects repo_path ;;
  find_commits_loop repo_path target_file objects [].

Fixpoint build_dependency_graph_loop (repo_path : str) (commits : list str)
         (g : graph) : M graph :=
  match commits with
  | [] => ret g
  | commit_hash :: rest =>
      '(header, data) <- read_git_object repo_path commit_hash ;;
      metadata <- lift (parse_commit_data (PBytes data)) ;;
      let parent_hashes := split_ws (dict_get_default (lit "parent") [] metadata) in
      build_dependency_graph_loop repo_path rest (dict_set commit_hash parent_hashes g)
  end.

Definition build_dependency_graph (repo_path : str) (commits : list str) : M graph :=
  build_dependency_graph_loop repo_path commits [].

Definition verify_repo_path (repo_path : str) : M unit :=
  let git_dir := path_join repo_path [lit ".git"] in
  isdir <- path_isdir E git_dir ;;
  if isdir then ret tt
  else print (MsgNotARepository repo_path) ;; raise (SystemExit 1).

(** [main], after [parse_arguments] has produced the three options. *)
Definition main (H : Host) (repo_path target_file output_file : str) : M unit :=
  verify_repo_path repo_path ;;
  commits <- find_commits repo_path target_file ;;
  if null commits then
    print (MsgNoCommits target_file) ;; raise (SystemExit 0)
  else
    g <- build_dependency_graph repo_path commits ;;
    let graphviz_code := generate_graphviz g in
    try_except
      ((if can_write H output_file
        then emit (EvWrite output_file graphviz_code)
        else raise IOError) ;;
       print (MsgWritten output_file))
      is_IOError
      (print (MsgWriteError output_file) ;; raise (SystemExit 1)) ;;
    print MsgCodeHeader ;;
    print (MsgText graphviz_code).
End WithEnv.

End GitDependencyVisualizer.

(** ** visualizer.py *)

Module Visualizer.
Import Py Eff Eff.Notations.

Definition graph : Type := dict (list str).

(** [list.sort(key=lambda x: x[1])] on (hash, timestamp) pairs.  Python's
    sort is stable; it is modelled by the stable insertion sort, which
    puts an element before the first one whose key is not smaller. *)
Fixpoint insert_by_time (x : str * Z) (l : list (str * Z)) : list (str * Z) :=
  match l with
  | [] => [x]
  | y :: l' => if (snd x <=? snd y)%Z then x :: l else y :: insert_by_time x l'
  end.

Fixpoint sort_by_time (l : list (str * Z)) : list (str * Z) :=
  match l with
  | [] => []
  | x :: l' => insert_by_time x (sort_by_time l')
  end.

(** An edge line of the PlantUML text. *)
Record uml_edge : Type := {
  edge_parent : str;
  edge_parent_index : N;
  edge_commit : str;
  edge_commit_index : N
}.

Definition uml_line (e : uml_edge) : str :=
  dq ++ edge_parent e ++ lit " (" ++ str_of_N (edge_parent_index e) ++ lit ")" ++ dq
  ++ lit " --> "
  ++ dq ++ edge_commit e ++ lit " (" ++ str_of_N (edge_commit_index e) ++ lit ")" ++ dq.

(** The inner loop of [generate_plantuml]: one edge per parent, the
    counter advancing with each. *)
Fixpoint parent_edges (commit : str) (parents : list str) (i : N) : list uml_edge :=
  match parents with
  | [] => []
  | parent :: rest =>
      {| edge_parent := parent; edge_parent_index := i;
         edge_commit := commit; edge_commit_index := i + 1 |}
      :: parent_edges commit rest (i + 1)
  end.

(** The outer loop of [generate_plantuml], started with [i = 1]. *)
Fixpoint plantuml_edges (g : graph) (i : N) : list uml_edge :=
  match g with
  | [] => []
  | (commit, parents) :: rest =>
      if null parents then plantuml_edges rest i
      else parent_edges commit parents i
           ++ plantuml_edges rest (i + N.of_nat (List.length parents))
  end.

Definition generate_plantuml (commit_graph : graph) : str :=
  join nl ([lit "@startuml"]
           ++ map uml_line (plantuml_edges commit_graph 1)
           ++ [lit "@enduml"]).

Section WithEnv.
Context (E : Env).

Definition object_path (repo_path object_hash : str) : str :=
  let object_dir := path_join repo_path [lit ".git"; lit "objects"; firstn 2 object_hash] in
  path_join object_dir [skipn 2 object_hash].

Definition read_git_object (repo_path object_hash : str) : M bytes :=
  let object_file_path := object_path repo_path object_hash in
  found <- path_exists E object_file_path ;;
  if negb found then raise FileNotFoundError
  else
    compressed_data <- open_rb E object_file_path ;;
    decompress E compressed_data.

(** The loop of [parse_commit_object]: (tree_hash, parents, author_time). *)
Fixpoint parse_lines (lines : list str) (tree_hash : option str)
         (parents : list str) (author_time : option Z)
  : result (option str * list str * option Z) :=
  match lines with
  | [] => Ok (tree_hash, parents, author_time)
  | line :: rest =>
      if startswith line (lit "tree") then
        t <-? of_option IndexError (nth_error (split_ws line) 1) ;;
        parse_lines rest (Some t) parents author_time
      else if startswith line (lit "parent") then
        p <-? of_option IndexError (nth_error (split_ws line) 1) ;;
        parse_lines rest tree_hash (parents ++ [p]) author_time
      else if startswith line (lit "author") then
        tok <-? of_option IndexError (nth_from_end2 (split_ws line)) ;;
        t <-? of_option ValueError (py_int E tok) ;;
        parse_lines rest tree_hash parents (Some t)
      else if null line then Ok (tree_hash, parents, author_time)
      else parse_lines rest tree_hash parents author_time
  end.

Definition parse_commit_object (commit_data : str)
  : result (option str * list str * option Z) :=
  parse_lines (split_on 10 commit_data) None [] None.

(** The object names [get_all_commits] meets, in walk order. *)
Definition walked_objects (dirs : list (str * list str)) : list str :=
  flat_map (fun '(root, files) => map (fun filename => basename root ++ filename) files) dirs.

(** The body of the scan for one object; every [Exception] is swallowed. *)
Definition scan_step (repo_path : str) (date_before : Z) (object_hash : str)
           (commits : list (str * Z)) : M (list (str * Z)) :=
  try_except
    (object_data <- read_git_object repo_path object_hash ;;
     if bstartswith object_data (blit "commit") then
       text <- lift (of_option UnicodeDecodeError (decode object_data)) ;;
       '(_, _, author_time) <- lift (parse_commit_object text) ;;
       match author_time with
       | None => raise TypeError          (* None <= date_before *)
       | Some t =>
           if (t <=? date_before)%Z then ret (commits ++ [(object_hash, t)])
           else ret commits
       end
     else ret commits)
    is_Exception
    (ret commits).

Fixpoint scan_loop (repo_path : str) (date_before : Z) (objects : list str)
         (commits : list (str * Z)) : M (list (str * Z)) :=
  match objects with
  | [] => ret commits
  | object_hash :: rest =>
      commits' <- scan_step repo_path date_before object_hash commits ;;
      scan_loop repo_path date_before rest commits'
  end.

Definition get_all_commits (repo_path : str) (date_before : Z) : M (list str) :=
  let objects_dir := path_join repo_path [lit ".git"; lit "objects"] in
  dirs <- walk E objects_dir ;;
  commits <- scan_loop repo_path date_before (walked_objects dirs) [] ;;
  ret (map fst (sort_by_time commits)).

Fixpoint build_commit_graph_loop (repo_path : str) (commit_hashes : list str)
         (commit_graph : graph) : M graph :=
  match commit_hashes with
  | [] => ret commit_graph
  | commit_hash :: rest =>
      object_data <- read_git_object repo_path commit_hash ;;
      commit_data <- lift (of_option UnicodeDecodeError (decode object_data)) ;;
      '(_, parents, _) <- lift (parse_commit_object commit_data) ;;
      build_commit_graph_loop repo_path rest (dict_set commit_hash parents commit_graph)
  end.

Definition build_commit_graph (repo_path : str) (date_before : Z) : M graph :=
  commit_hashes <- get_all_commits repo_path date_before ;;
  build_commit_graph_loop repo_path commit_hashes [].

Definition save_plantuml_file (H : Host) (plantuml_text plantuml_file_path : str) : M unit :=
  if can_write H plantuml_file_path
  then emit (EvWrite plantuml_file_path plantuml_text)
  else raise IOError.

Definition generate_graph_image (H : Host)
           (plantuml_file_path output_image_path plantuml_jar_path : str) : M unit :=
  let plantuml_cmd :=
    [lit "java"; lit "-jar"; plantuml_jar_path; plantuml_file_path;
     lit "-tpng"; lit "-o"; dirname output_image_path] in
  emit (EvRun plantuml_cmd) ;;
  if negb (run_process H plantuml_cmd =? 0)%Z then raise RendererError
  else
    let generated_image_path := replace plantuml_file_path (lit ".puml") (lit ".png") in
    emit (EvRename generated_image_path output_image_path) ;;
    if can_rename H generated_image_path output_image_path then ret tt
    else raise FileNotFoundError.

Definition main (H : Host)
           (repo_path date_before output_image_path plantuml_jar_path : str) : M unit :=
  date_before_timestamp <- lift (of_option ValueError (strptime_timestamp H date_before)) ;;
  commit_graph <- build_commit_graph repo_path date_before_timestamp ;;
  let plantuml_text := generate_plantuml commit_graph in
  let plantuml_file_path := replace output_image_path (lit ".png") (lit ".puml") in
  save_plantuml_file H plantuml_text plantuml_file_path ;;
  generate_graph_image H plantuml_file_path output_image_path plantuml_jar_path ;;
  print (MsgGraphSaved output_image_path).
End WithEnv.

End Visualizer.

(** ** test.py *)

Module TestScript.
Import Py Eff Eff.Notations.

(** The dictionary built by [parse_commit_data]: the hash is always set,
    every other key is present only once a line has set it. *)
Record commit_data : Type := {
  commit_hash : str;
  parent : option str;
  author : option str;
  committer : option str;
  committer_email : option str;
  committer_timestamp : option Z;
  tree : option str;
  message : option str
}.

Definition new_commit_data (h : str) : commit_data :=
  {| commit_hash := h; parent := None; author := None; committer := None;
     committer_email := None; committer_timestamp := None; tree := None;
     message := None |}.

Definition set_parent (v : str) (c : commit_data) : commit_data :=
  {| commit_hash := commit_hash c; parent := Some v; author := author c;
     committer := committer c; committer_email := committer_email c;
     committer_timestamp := committer_timestamp c; tree := tree c;
     message := message c |}.

Definition set_author (v : str) (c : commit_data) : commit_data :=
  {| commit_hash := commit_hash c; parent := parent c; author := Some v;
     committer := committer c; committer_email := committer_email c;
     committer_timestamp := committer_timestamp c; tree := tree c;
     message := message c |}.

Definition set_committer (name email : str) (t : Z) (c : commit_data) : commit_data :=
  {| commit_hash := commit_hash c; parent := parent c; author := author c;
     committer := Some name; committer_email := Some email;
     committer_timestamp := Some t; tree := tree c; message := message c |}.

Definition set_tree (v : str) (c : commit_data) : commit_data :=
  {| commit_hash := commit_hash c; parent := parent c; author := author c;
     committer := committer c; committer_email := committer_email c;
     committer_timestamp := committer_timestamp c; tree := Some v;
     message := message c |}.

Definition set_message (v : str) (c : commit_data) : commit_data :=
  {| commit_hash := commit_hash c; parent := parent c; author := author c;
     committer := committer c; committer_email := committer_email c;
     committer_timestamp := committer_timestamp c; tree := tree c;
     message := Some v |}.

(** The bounds of [datetime.fromtimestamp(t, timezone.utc)]: years 1 to 9999. *)
Definition min_timestamp : Z := (-62135596800)%Z.
Definition max_timestamp : Z := 253402300799%Z.

(** Beyond them the call raises, and which exception depends on how far
    [t] lies outside: the seconds [gmtime] still converts (glibc, with a
    64-bit [time_t]), and the range of [time_t] itself. *)
Definition gmtime_min : Z := (-67768040609740800)%Z.
Definition gmtime_max : Z := 67768036191676799%Z.
Definition time_t_min : Z := (- 2 ^ 63)%Z.
Definition time_t_max : Z := (2 ^ 63 - 1)%Z.

Section WithEnv.
Context (E : Env).

(** The loop of [parse_commit_data]; it runs over every line of the
    object, there is no stop at the blank line. *)
Fixpoint parse_lines (lines : list str) (c : commit_data) : result commit_data :=
  match lines with
  | [] => Ok c
  | line :: rest =>
      if startswith line (lit "parent") then
        v <-? of_option IndexError (nth_error (split_ws line) 1) ;;
        parse_lines rest (set_parent v c)
      else if startswith line (lit "author") then
        v <-? of_option IndexError (nth_error (split_ws line) 1) ;;
        parse_lines rest (set_author v c)
      else if startswith line (lit "committer") then
        let committer_parts := split_ws line in
        name <-? of_option IndexError (nth_error committer_parts 1) ;;
        email <-? of_option IndexError (nth_error committer_parts 2) ;;
        tok <-? of_option IndexError (nth_from_end2 committer_parts) ;;
        t <-? of_option ValueError (py_int E tok) ;;
        parse_lines rest (set_committer name email t c)
      else if startswith line (lit "tree") then
        v <-? of_option IndexError (nth_error (split_ws line) 1) ;;
        parse_lines rest (set_tree v c)
      else if startswith line (lit "message") then
        v <-? of_option IndexError (nth_error (split_ws line) 1) ;;
        parse_lines rest (set_message v c)
      else parse_lines rest c
  end.

Definition parse_commit_data (data : bytes) (commit_hash : str) : result commit_data :=
  text <-? of_option UnicodeDecodeError (decode data) ;;
  parse_lines (split_on 10 text) (new_commit_data commit_hash).

Definition commit_file_path (repo_path commit_hash : str) : str :=
  let objects_path := path_join repo_path [lit ".git"; lit "objects"] in
  let object_dir := firstn 2 commit_hash in
  let object_file := skipn 2 commit_hash in
  path_join objects_path [object_dir; object_file].

Definition read_commit (commit_hash repo_path : str) : M commit_data :=
  if Nat.ltb (List.length commit_hash) 40 then raise ValueError
  else
    let path := commit_file_path repo_path commit_hash in
    print (MsgTryingToRead path) ;;
    found <- path_exists E path ;;
    if negb found then raise FileNotFoundError
    else
      file_content <- open_rb E path ;;
      decompressed_data <- decompress E file_content ;;
      lift (parse_commit_data decompressed_data commit_hash).

Definition get_commit_hash_from_ref (branch_ref repo_path : str) : M str :=
  let ref_path := path_join repo_path [lit ".git"; branch_ref] in
  content <- open_r E ref_path ;;
  ret (strip content).

(** [datetime.fromtimestamp(t, timezone.utc)], as the instant it denotes
    in microseconds.  Out of range it raises [ValueError] (the year is
    out of range) while [gmtime] converts [t], [OSError], of which
    [IOError] is the alias, where [gmtime] fails, and [OverflowError]
    where [t] does not fit [time_t]. *)
Definition fromtimestamp (t : Z) : result Z :=
  if ((min_timestamp <=? t) && (t <=? max_timestamp))%Z then Ok (t * 1000000)%Z
  else if ((gmtime_min <=? t) && (t <=? gmtime_max))%Z then Raise ValueError
  else if ((time_t_min <=? t) && (t <=? time_t_max))%Z then Raise IOError
  else Raise OverflowError.

(** The [while] loop of [get_commits_after_date].  [start_date] is the
    instant, in microseconds, of the given date read as UTC.  [None]:
    the fuel ran out before the loop ended. *)
Fixpoint walk_loop (fuel : nat) (repo_path : str) (start_date : Z)
         (current_commit_hash : str) (commits : list commit_data)
  : M (option (list commit_data)) :=
  match fuel with
  | O => ret None
  | S fuel' =>
      if null current_commit_hash then ret (Some commits)
      else
        c <- read_commit current_commit_hash repo_path ;;
        t <- lift (of_option KeyError (committer_timestamp c)) ;;
        commit_date <- lift (fromtimestamp t) ;;
        let commits' := if (start_date <=? commit_date)%Z then commits ++ [c] else commits in
        match parent c with
        | None => ret (Some commits')
        | Some next =>
            if null next then ret (Some commits')
            else walk_loop fuel' repo_path start_date next commits'
        end
  end.

(** The first part of [get_commits_after_date]: the hash HEAD stands
    for, read from the branch file when HEAD is symbolic. *)
Definition resolve_head (repo_path : str) : M str :=
  let head_path := path_join repo_path [lit ".git"; lit "HEAD"] in
  content <- open_r E head_path ;;
  let ref := strip content in
  if startswith ref (lit "ref:") then
    branch_ref <- lift (of_option IndexError (nth_error (split_ws ref) 1)) ;;
    get_commit_hash_from_ref branch_ref repo_path
  else ret ref.

Definition get_commits_after_date (fuel : nat) (repo_path : str) (start_date : Z)
  : M (option (list commit_data)) :=
  branch_commit_hash <- resolve_head repo_path ;;
  walk_loop fuel repo_path start_date branch_commit_hash [].
End WithEnv.

(** [generate_graph].  The [graphviz.Digraph] it fills is the list of the
    calls made on it, in order. *)
Inductive digraph_call : Type :=
| Node (name label : str)
| Edge (tail_name head_name : str).

Definition node_label (commit : commit_data) : str :=
  let commit_message :=
    match message commit with Some m => m | None => lit "No message" end in
  firstn 7 (commit_hash commit) ++ nl ++ commit_message.

Definition generate_graph (commits : list commit_data) : list digraph_call :=
  flat_map (fun commit =>
              Node (commit_hash commit) (node_label commit)
              :: match parent commit with
                 | Some parent_hash =>
                     if null parent_hash then []
                     else [Edge parent_hash (commit_hash commit)]
                 | None => []
                 end)
           commits.

(** [test_read_commit].  The test replaces [zlib.decompress] by a
    function that returns the same bytes for every input, calls
    [read_commit] and compares four entries of the result. *)
Definition mock_commit_data : bytes :=
  blit "tree abc123" ++ [x0a]
  ++ blit "parent def456" ++ [x0a]
  ++ blit "author John Doe <john@example.com> 1625827216 +0000" ++ [x0a]
  ++ blit "committer John Doe <john@example.com> 1625827216 +0000" ++ [x0a]
  ++ blit "message Initial commit".

Definition mock_decompress (E : Env) : Env :=
  {| fs := fs E;
     os_walk := os_walk E;
     zlib_decompress := fun _ => Some mock_commit_data;
     py_int := py_int E |}.

(** How a test function ends: it prints its [passed!] line and returns,
    or it is left by an exception of the code under test or by a failed
    [assert], which carries its message. *)
Inductive test_failure : Type :=
| Propagated (e : exn)
| AssertionError (msg : str).

Inductive test_result : Type :=
| Passed
| Failed (f : test_failure).

(** [assert d[key] == expected, msg] followed by the rest of the test. *)
Definition assert_entry {A} (eqb : A -> A -> bool) (entry : option A) (expected : A)
           (msg : string) (rest : test_result) : test_result :=
  match entry with
  | None => Failed (Propagated KeyError)
  | Some v => if eqb v expected then rest else Failed (AssertionError (lit msg))
  end.

Definition test_read_commit (E : Env) : test_result * list event :=
  let hash := lit "abc1234567890def1234567890abcdef12345678" in
  let repo_path := lit "/mock/path/to/repo" in
  let run := read_commit (mock_decompress E) hash repo_path in
  (match outcome run with
   | Raise e => Failed (Propagated e)
   | Ok result =>
       assert_entry str_eqb (Some (commit_hash result)) hash
         "Test failed: commit_hash mismatch"
       (assert_entry str_eqb (parent result) (lit "def456")
         "Test failed: parent commit mismatch"
       (assert_entry Z.eqb (committer_timestamp result) 1625827216%Z
         "Test failed: committer timestamp mismatch"
       (assert_entry str_eqb (message result) (lit "Initial commit")
         "Test failed: message mismatch"
         Passed)))
   end,
   events run).

End TestScript.

(** ** A sample repository

    Five commits (a root, two children of the root, their merge, and a
    commit whose author name is Latin-1 and therefore not UTF-8), a blob,
    the two tiny commits of the tree-field example, two entries with a
    malformed header and a file that is not a zlib stream.  Every entry is
    named by the SHA-1 of its content and holds its zlib-compressed bytes;
    [zlib_decompress] is the restriction of [zlib.decompress] to them. *)

Module Sample.
Import Py Eff.
Local Open Scope string_scope.

Definition root_hash : string := "a1ad3f99ec8c125994992da0e89a02163f9030fe".
Definition root_file : bytes :=
  [
     x78; x9c; x85; xcc; x41; x0a; x02; x31; x0c; x40; x51; xd7;
     x3d; x45; xf6; x82; x64; x3a; x99; xd2; x82; x0c; x7a; x94;
     x26; x93; x41; xc1; x36; x52; x22; x78; x7c; xc5; x0b; xf8;
     xd7; x8f; x2f; xd6; xda; xdd; x61; x9a; xe7; x83; x0f; x55;
     x20; xce; x71; xd9; x24; x51; x14; x4e; xca; xa5; x62; x42;
     x5d; x88; xf7; xbc; xa5; x12; x73; xde; x59; x95; x0a; x52;
     xa8; x2f; xbf; xd9; x80; x6b; xef; x70; xae; xbd; x5f; xf4;
     x5d; xdb; xf3; xa1; x27; xb1; xb6; xc2; x84; x08; x47; xfc;
     x16; xe4; xf7; x77; xfd; x2f; xc3; x30; xf3; xf0; x01; x66;
     xf4; x2b; x70].

Definition feature_hash : string := "cd8d1c312780f495b1c5557c3ba482c223747cf5".
Definition feature_file : bytes :=
  [
     x78; x9c; x85; x8e; x51; x0a; x02; x21; x14; x45; xfb; x76;
     x15; xfe; x07; xf1; x74; x1c; xf1; x41; x44; x2d; xe5; xa9;
     x57; x0a; xd2; x19; xc4; x81; x96; x9f; xb4; x81; xee; xef;
     x39; x07; x6e; xda; x6a; x7d; x0d; x6d; x82; x3b; x8d; x0e;
     x68; x17; x83; x5d; x73; xf2; xce; xa6; xe8; x11; x59; xc8;
     x13; x56; x17; x4b; xc8; x9e; x6d; x08; x25; x02; x8e; xc9;
     xa9; x5d; x3a; xda; xd0; x62; x24; x2f; x85; x19; x29; x24;
     x63; x57; x66; xc7; x6c; xb3; x10; xc2; x4c; xad; xf1; x93;
     xd1; x42; x05; x4a; x8e; xf1; xdc; xba; x7e; xb4; xa6; xaf;
     xd2; xda; x1d; x1f; xa9; xfb; x1b; x97; xb4; xd5; x9b; xb6;
     x44; xfa; x4c; x73; x2a; xfd; xfe; x0c; xfc; x37; x55; x81;
     x8c; xa3; x43; x7d; x01; x25; x73; x3a; x20].

Definition mainline_hash : string := "e9340655dcb2d3f4b649b7a61ed130dd1c99183b".
Definition mainline_file : bytes :=
  [
     x78; x9c; x85; x8e; x41; x0a; xc3; x20; x10; x45; xbb; xf6;
     x14; xee; x0b; x65; x9c; xa8; x38; x50; x42; x7b; x94; x71;
     x1c; x69; x20; x9a; x10; x2c; xf4; xf8; x0d; xbd; x40; xff;
     xf6; xbd; x07; x5f; xb6; xd6; x96; x61; x5d; x0a; x97; x71;
     xa8; x5a; x9f; x13; x86; x22; xd1; xa3; xe4; xa8; x99; x18;
     x22; x68; xf0; xb9; xa6; x12; x09; x53; xaa; x59; xd5; x13;
     x78; xb3; xf3; xa1; x7d; x58; x76; x5c; xa6; x4a; xa4; x92;
     xc4; x61; x20; xf2; x44; x58; x18; x34; x9d; x29; xba; x78;
     x32; x98; xa0; xaa; xe1; xf7; x78; x6d; x87; x7d; xf6; x6e;
     xef; xdc; xfb; x43; x3f; xdc; xf6; x55; x6f; xb2; xb5; xd9;
     x62; x00; x7b; x85; x73; x46; x7e; x7f; x86; xfe; x37; x4d;
     xe3; xa5; xaf; x4b; x57; xf3; x05; x62; x9b; x3a; x8c].

Definition merge_hash : string := "0f578d23cbee12bf4d8c3ee4158044b5e6b7f6e0".
Definition merge_file : bytes :=
  [
     x78; x9c; x85; x8e; xcb; x4a; x45; x31; x0c; x45; x1d; xf7;
     x2b; x3a; x17; x24; x4d; xd2; x17; x5c; x44; x3f; xa5; x49;
     x53; x15; x6c; xcf; xe5; x50; xc1; xcf; xf7; x20; x38; x76;
     x8d; x17; x6b; x6f; x3d; xe6; xfc; xd8; x1e; x09; x1e; xf6;
     x69; xe6; x59; x0a; xc6; xae; x89; x51; x25; x99; xd4; x06;
     x09; x2c; xb2; x8c; xd2; x53; xc5; x52; x86; x98; x71; x05;
     x76; xf7; x76; xda; xda; x5e; x7b; xe9; x41; x29; x60; x2e;
     x30; xb8; x46; x09; x1a; x63; xcc; x4a; xd2; xb8; xa0; x22;
     x52; xe6; xac; x23; xfe; xf9; x56; x89; x21; xc5; x6b; x42;
     xb0; xd3; x60; x49; x5c; x25; xb7; x14; xac; x07; x82; x7e;
     xb5; x6a; x0d; x85; xc4; xb5; xaf; xfd; x7e; x9c; xfe; x75;
     x2d; x7f; x6b; x6b; xbd; xd8; x77; x9b; xf7; x4f; x7b; xd2;
     x63; x3e; x7b; x02; xf0; x8f; x70; xe1; xf4; xf7; xff; xb6;
     xff; x4d; x37; xed; x7c; x33; xf7; x03; x2e; xda; x46; xa7].

Definition latin_hash : string := "026aff24f165844b811e249a748f0dee64b76546".
Definition latin_file : bytes :=
  [
     x78; x9c; x8d; x8e; x41; x0a; xc2; x30; x10; x45; x5d; xe7;
     x14; xd9; x0b; x32; x49; xa7; x21; x03; x22; x9e; xc1; x1b;
     x4c; x26; x13; x2c; x34; x69; x29; x11; xbc; xb2; xb7; x30;
     x78; x02; xff; xf6; xbd; x07; x5f; xb6; x5a; x97; x6e; x5d;
     xc4; x53; x3f; x54; x2d; xa6; xe8; xe7; x2c; x01; xbd; xa4;
     xa0; x89; x18; x02; xe8; x8c; xa9; xc4; x1c; xc8; xc7; x58;
     x92; x2a; x12; xa0; xd9; xf9; xd0; xd6; x2d; x3b; xce; x53;
     x21; x52; x89; xe2; xfc; x4c; x84; x44; x3e; x33; x68; x1c;
     xa9; x77; x61; x30; x98; xa0; xa8; xe1; x57; x7f; x6e; x87;
     x7d; x68; xfb; xd8; x2b; xb7; x76; xd7; x37; xd7; x7d; xd5;
     x8b; x6c; xf5; x66; x9d; x07; x7b; x86; x31; x23; xbf; x43;
     x5d; xff; x50; xcd; xca; x7d; x69; xe6; x0b; x70; x3c; x3b;
     x30].

Definition tree_a_hash : string := "40891ab6bbfb2a7de160e5daf39b20ada7da9a38".
Definition tree_a_file : bytes :=
  [
     x78; x9c; x4b; xce; xcf; xcd; xcd; x2c; x51; x30; x34; x62;
     x28; x29; x4a; x4d; x55; x48; x4c; x4c; x34; x34; x34; xe4;
     x02; x00; x54; x69; x06; x9d].

Definition tree_b_hash : string := "cf28709d6cf5d993b37ec4d70cd4072d36a49a8d".
Definition tree_b_file : bytes :=
  [
     x78; x9c; x4b; xce; xcf; xcd; xcd; x2c; x51; x30; x34; x62;
     x28; x29; x4a; x4d; x55; x48; x4a; x4a; x32; x32; x32; xe2;
     x02; x00; x54; x84; x06; xa3].

Definition badlen_hash : string := "2bb55debf47c65563bb5bbf256cd150c01388738".
Definition badlen_file : bytes :=
  [
     x78; x9c; x4b; xce; xcf; xcd; xcd; x2c; x51; xa8; xa8; xac;
     x62; x28; x29; x4a; x4d; x55; x48; x4c; x4c; x34; x34; x34;
     xe4; x02; x00; x66; xbb; x07; xa5].

Definition nonul_hash : string := "5ff202e18a45733dedf9e77cc9164314c006b2ce".
Definition nonul_file : bytes :=
  [
     x78; x9c; x4b; xce; xcf; xcd; xcd; x2c; x51; x30; x34; x52;
     x28; x29; x4a; x4d; x55; x48; x4c; x4c; x34; x34; x34; xe4;
     x02; x00; x56; x09; x06; xbd].

Definition blob_hash : string := "46b134b197f35e75e0784bedbf94a8dd124693b1".
Definition blob_file : bytes :=
  [
     x78; x9c; x4b; xca; xc9; x4f; x52; x30; x62; xf8; xff; x0f;
     x00; x10; x94; x03; xef].

Definition broken_hash : string := "0b8a1caec23d75d1154b8d9bef9cec6c03697638".
Definition broken_file : bytes := blit "broken".

Definition empty_tree : string := "4b825dc642cb6eb9a060e54bf8d69288fbee4904".

Definition unlines (ls : list bytes) : bytes := flat_map (fun l => (l ++ [x0a])%list) ls.

(** The payload of a commit by [name] at time [ts]. *)
Definition commit_payload (parents : list string) (name : bytes) (ts msg : string) : bytes :=
  unlines ([blit ("tree " ++ empty_tree)]
           ++ map (fun p => blit ("parent " ++ p)) parents
           ++ [blit "author " ++ name ++ blit (" <ann@example.com> " ++ ts ++ " +0000");
               blit "committer " ++ name ++ blit (" <ann@example.com> " ++ ts ++ " +0000");
               [];
               blit msg])%list.

(** The content of a loose object: header, null byte, payload. *)
Definition loose (kind : string) (payload : bytes) : bytes :=
  (blit (kind ++ " " ++ NilZero.string_of_uint (Nat.to_uint (List.length payload)))
   ++ [x00] ++ payload)%list.

Definition root_payload : bytes := commit_payload [] (blit "Ann") "100" "root".
Definition feature_payload : bytes := commit_payload [root_hash] (blit "Ann") "200" "feature".
Definition mainline_payload : bytes := commit_payload [root_hash] (blit "Ann") "250" "mainline".
Definition merge_payload : bytes :=
  commit_payload [feature_hash; mainline_hash] (blit "Ann") "300" "merge".
Definition latin_payload : bytes :=
  commit_payload [root_hash] (blit "Ren" ++ [xe9])%list "120" "latin".

(** An entry of the store: its name, the bytes on disk, and what they
    decompress to ([None]: not a zlib stream). *)
Record entry : Type := {
  entry_hash : string;
  entry_file : bytes;
  entry_data : option bytes
}.

Definition root : entry :=
  {| entry_hash := root_hash; entry_file := root_file;
     entry_data := Some (loose "commit" root_payload) |}.
Definition feature : entry :=
  {| entry_hash := feature_hash; entry_file := feature_file;
     entry_data := Some (loose "commit" feature_payload) |}.
Definition mainline : entry :=
  {| entry_hash := mainline_hash; entry_file := mainline_file;
     entry_data := Some (loose "commit" mainline_payload) |}.
Definition merge : entry :=
  {| entry_hash := merge_hash; entry_file := merge_file;
     entry_data := Some (loose "commit" merge_payload) |}.
Definition latin : entry :=
  {| entry_hash := latin_hash; entry_file := latin_file;
     entry_data := Some (loose "commit" latin_payload) |}.
Definition blob : entry :=
  {| entry_hash := blob_hash; entry_file := blob_file;
     entry_data := Some (loose "blob" [xff; xfe]) |}.
Definition tree_a : entry :=
  {| entry_hash := tree_a_hash; entry_file := tree_a_file;
     entry_data := Some (loose "commit" (unlines [blit "tree aaa111"])) |}.
Definition tree_b : entry :=
  {| entry_hash := tree_b_hash; entry_file := tree_b_file;
     entry_data := Some (loose "commit" (unlines [blit "tree bbb222"])) |}.
Definition badlen : entry :=
  {| entry_hash := badlen_hash; entry_file := badlen_file;
     entry_data := Some (blit "commit xyz" ++ [x00] ++ unlines [blit "tree aaa111"])%list |}.
Definition nonul : entry :=
  {| entry_hash := nonul_hash; entry_file := nonul_file;
     entry_data := Some (unlines [blit "commit 12 tree aaa111"]) |}.
Definition broken : entry :=
  {| entry_hash := broken_hash; entry_file := broken_file; entry_data := None |}.

Definition all_entries : list entry :=
  [root; feature; mainline; merge; latin; blob; tree_a; tree_b; badlen; nonul; broken].

Definition repo : str := lit "repo".
Definition objects_dir : str := lit "repo/.git/objects".

Definition entry_path (e : entry) : str :=
  (objects_dir ++ lit "/" ++ firstn 2 (lit (entry_hash e)) ++ lit "/"
   ++ skipn 2 (lit (entry_hash e)))%list.

Definition lookup {V} (k : str) (l : list (str * V)) : option V :=
  option_map snd (find (fun kv => str_eqb (fst kv) k) l).

(** The repository whose object directory holds [entries], met by the
    directory walk in that order; HEAD names the branch [main], which
    points to the merge commit. *)
Definition files (entries : list entry) : list (str * node) :=
  ([(lit "repo", Dir); (lit "repo/.git", Dir); (objects_dir, Dir);
    (lit "repo/.git/HEAD", File (unlines [blit "ref: refs/heads/main"]));
    (lit "repo/.git/refs/heads/main", File (unlines [blit merge_hash]))]
   ++ map (fun e => (entry_path e, File (entry_file e))) entries)%list.

Definition walk_of (entries : list entry) (top : str) : list (str * list str) :=
  if str_eqb top objects_dir then
    (objects_dir, [])
    :: map (fun e => ((objects_dir ++ lit "/" ++ firstn 2 (lit (entry_hash e)))%list,
                      [skipn 2 (lit (entry_hash e))])) entries
  else [].

Definition table_decompress (data : bytes) : option bytes :=
  match find (fun e => list_eqb Byte.eqb (entry_file e) data) all_entries with
  | Some e => entry_data e
  | None => None
  end.

(** [int] on the decimal literals of the sample: an optional sign and
    ASCII digits. *)
Fixpoint digits_value (s : str) (acc : Z) : option Z :=
  match s with
  | [] => Some acc
  | c :: s' =>
      if ((48 <=? c) && (c <=? 57))%N
      then digits_value s' (acc * 10 + Z.of_N (c - 48))%Z
      else None
  end.

Definition ascii_int (s : str) : option Z :=
  match s with
  | [] => None
  | c :: s' =>
      if (c =? 45)%N then
        (if null s' then None else option_map Z.opp (digits_value s' 0%Z))
      else if (c =? 43)%N then
        (if null s' then None else digits_value s' 0%Z)
      else digits_value s 0%Z
  end.

Definition env (entries : list entry) : Env :=
  {| fs := fun path => lookup path (files entries);
     os_walk := walk_of entries;
     zlib_decompress := table_decompress;
     py_int := ascii_int |}.

(** A host on which every write, the renderer and the rename succeed. *)
Definition host : Host :=
  {| can_write := fun _ => true;
     strptime_timestamp := fun s => if str_eqb s (lit "1970-01-02") then Some 86400%Z else None;
     run_process := fun _ => 0%Z;
     can_rename := fun _ _ => true |}.

(** The records [read_commit] builds for the commits of the sample that
    lie on the walk from HEAD. *)
Definition record_of (hash : string) (parent : option string) (ts : Z)
  : TestScript.commit_data :=
  {| TestScript.commit_hash := lit hash;
     TestScript.parent := option_map lit parent;
     TestScript.author := Some (lit "Ann");
     TestScript.committer := Some (lit "Ann");
     TestScript.committer_email := Some (lit "<ann@example.com>");
     TestScript.committer_timestamp := Some ts;
     TestScript.tree := None;
     TestScript.message := None |}.

Definition merge_record : TestScript.commit_data :=
  record_of merge_hash (Some mainline_hash) 300%Z.
Definition mainline_record : TestScript.commit_data :=
  record_of mainline_hash (Some root_hash) 250%Z.
Definition root_record : TestScript.commit_data :=
  record_of root_hash None 100%Z.

(** The repository of the four commits of the history. *)
Definition history : Env := env [root; feature; mainline; merge].

End Sample.

(** ** Specification-side notions

    What the properties below speak about, defined from the layout of a
    commit object and of the store rather than from the scripts' loops. *)

Module GDV := GitDependencyVisualizer.
Module VIS := Visualizer.

Module Spec.
Import Py Eff.

(** The lines before the first empty one. *)
Fixpoint take_until_blank (lines : list str) : list str :=
  match lines with
  | [] => []
  | l :: rest => if null l then [] else l :: take_until_blank rest
  end.


Definition is_parent_line (l : str) : bool := startswith l (lit "parent").

(** The decoded content of the object stored under [path], when the file
    exists, decompresses and is UTF-8. *)
Definition object_text (E : Env) (path : str) : option str :=
  match fs E path with
  | Some (File content) =>
      match zlib_decompress E content with
      | Some data => decode data
      | None => None
      end
  | _ => None
  end.

(** *** visualizer.py *)



Definition uml_edges_of (commit : str) (edges : list VIS.uml_edge)
  : list VIS.uml_edge :=
  filter (fun e => str_eqb (VIS.edge_commit e) commit) edges.

(** The author timestamp of the object named [h], when it is a commit
    object that can be read, decoded and parsed. *)
Definition author_timestamp (E : Env) (repo h : str) : option Z :=
  match fs E (VIS.object_path repo h) with
  | Some (File content) =>
      match zlib_decompress E content with
      | Some data =>
          if bstartswith data (blit "commit") then
            match decode data with
            | Some text =>
                match VIS.parse_commit_object E text with
                | Ok (_, _, Some t) => Some t
                | _ => None
                end
            | None => None
            end
          else None
      | None => None
      end
  | _ => None
  end.

(** Every object name the walk of the object directory yields. *)
Definition store_objects (E : Env) (repo : str) : list str :=
  VIS.walked_objects (os_walk E (path_join repo [lit ".git"; lit "objects"])).

(** What the scan keeps of the object named [h]: the object with its
    timestamp when it is a commit at or before the cutoff. *)
Definition selection (E : Env) (repo : str) (date_before : Z) (h : str) : list (str * Z) :=
  match author_timestamp E repo h with
  | Some t => if (t <=? date_before)%Z then [(h, t)] else []
  | None => []
  end.

(** The commits at or before the cutoff, in the order the walk meets them. *)
Definition encountered (E : Env) (repo : str) (date_before : Z) : list (str * Z) :=
  flat_map (selection E repo date_before) (store_objects E repo).

Definition has_time (t : Z) (x : str * Z) : bool := (snd x =? t)%Z.

(** The names of a list that are not in [seen], each at its first
    occurrence: the keys a dictionary gets when the names are assigned
    in order. *)
Fixpoint first_occurrences (seen l : list str) : list str :=
  match l with
  | [] => []
  | h :: l' =>
      if existsb (str_eqb h) seen then first_occurrences seen l'
      else h :: first_occurrences (h :: seen) l'
  end.

(** Ascending order of timestamps. *)
Definition le_time (a b : str * Z) : Prop := (snd a <= snd b)%Z.

(** The file-system events of one step of the scan by author date. *)
Definition probe_events (E : Env) (repo h : str) : list event :=
  EvExists (VIS.object_path repo h)
  :: match fs E (VIS.object_path repo h) with
     | Some _ => [EvOpen (VIS.object_path repo h)]
     | None => []
     end.


(** *** git_dependency_visualizer.py *)

Definition is_tree_line (l : str) : bool := startswith l (lit "tree ").

(** The recorded tree field of a commit text: what follows [tree ] on the
    last such line of the header, the empty string when there is none. *)
Definition tree_field (text : str) : str :=
  match rev (filter is_tree_line (take_until_blank (splitlines text))) with
  | l :: _ => skipn 5 l
  | [] => []
  end.

(** The names [list_git_objects] yields. *)
Definition listed_objects (E : Env) (repo : str) : list str :=
  flat_map (fun '(root, files) =>
              map (fun file => basename root ++ file)
                  (filter (fun file => Nat.eqb (List.length file) 38) files))
           (os_walk E (path_join repo [lit ".git"; lit "objects"])).

(** What the scan finds at one object. *)
Inductive verdict : Type :=
| Fatal (e : exn)          (* reading or parsing raises *)
| NotCommit
| Undecodable              (* a commit whose payload is not UTF-8 *)
| Unselected
| Selected.

Definition examine (E : Env) (repo target h : str) : verdict :=
  match outcome (GDV.read_git_object E repo h) with
  | Raise e => Fatal e
  | Ok (header, data) =>
      if startswith header (lit "commit") then
        match decode data with
        | None => Undecodable
        | Some text =>
            match GDV.parse_commit_data (PStr text) with
            | Raise e => Fatal e
            | Ok _ => if contains (tree_field text) target then Selected else Unselected
            end
        end
      else NotCommit
  end.

Definition is_fatal (v : verdict) : bool :=
  match v with Fatal _ => true | _ => false end.

Definition is_selected (v : verdict) : bool :=
  match v with Selected => true | _ => false end.

Definition is_undecodable (v : verdict) : bool :=
  match v with Undecodable => true | _ => false end.

(** The scan can go past the object named [h], and it selects it. *)
Definition not_fatal (E : Env) (repo target h : str) : bool :=
  negb (is_fatal (examine E repo target h)).

Definition selected_here (E : Env) (repo target h : str) : bool :=
  is_selected (examine E repo target h).

(** The events of one step of the scan by tree field. *)
Definition step_events (E : Env) (repo target h : str) : list event :=
  EvOpen (GDV.object_path repo h)
  :: if is_undecodable (examine E repo target h) then [EvPrint (MsgDecodeError h)] else [].

(** The target occurs in the tree field of the commit object named [h]. *)
Definition selects (E : Env) (repo target h : str) : bool :=
  match outcome (GDV.read_git_object E repo h) with
  | Ok (header, data) =>
      startswith header (lit "commit")
      && match decode data with
         | Some text => contains (tree_field text) target
         | None => false
         end
  | Raise _ => false
  end.

(** The diagnostics printed in a log, in order. *)
Definition diagnostics (log : list event) : list str :=
  flat_map (fun ev => match ev with
                      | EvPrint (MsgDecodeError h) => [h]
                      | _ => []
                      end) log.

(** The files opened in a log, in order. *)
Definition opened (log : list event) : list str :=
  flat_map (fun ev => match ev with EvOpen p => [p] | _ => [] end) log.

(** The paths probed with [os.path.exists] in a log, in order. *)
Definition probes (log : list event) : list str :=
  flat_map (fun ev => match ev with EvExists p => [p] | _ => [] end) log.

(** *** test.py *)

(** Every line of the object that begins with [parent]. *)
Definition parent_prefixed_lines (text : str) : list str :=
  filter is_parent_line (split_on 10 text).

Definition second_word (line : str) : option str := nth_error (split_ws line) 1.

(** The parent named on the first, and on the last, of these lines. *)
Definition first_parent (text : str) : option str :=
  match parent_prefixed_lines text with
  | l :: _ => second_word l
  | [] => None
  end.

Definition last_parent (text : str) : option str :=
  match rev (parent_prefixed_lines text) with
  | l :: _ => second_word l
  | [] => None
  end.

Definition no_parent (o : option str) : Prop := o = None \/ o = Some [].

(** [chain E repo h cs]: [cs] are the commits met from [h] by going, at
    every commit, to the parent named on the last [parent] line, down to
    a commit without one.  Every commit of the chain is readable and
    carries a committer timestamp that is a valid date. *)
Inductive chain (E : Env) (repo : str) : str -> list TestScript.commit_data -> Prop :=
| chain_end h c t text :
    outcome (TestScript.read_commit E h repo) = Ok c ->
    TestScript.committer_timestamp c = Some t ->
    (TestScript.min_timestamp <= t <= TestScript.max_timestamp)%Z ->
    object_text E (TestScript.commit_file_path repo h) = Some text ->
    no_parent (last_parent text) ->
    chain E repo h [c]
| chain_next h c t text p cs :
    outcome (TestScript.read_commit E h repo) = Ok c ->
    TestScript.committer_timestamp c = Some t ->
    (TestScript.min_timestamp <= t <= TestScript.max_timestamp)%Z ->
    object_text E (TestScript.commit_file_path repo h) = Some text ->
    last_parent text = Some p ->
    p <> [] ->
    chain E repo p cs ->
    chain E repo h (c :: cs).

(** The commits of a list dated at or after [start_date] (microseconds). *)
Definition on_or_after (start_date : Z) (c : TestScript.commit_data) : bool :=
  match TestScript.committer_timestamp c with
  | Some t => (start_date <=? t * 1000000)%Z
  | None => false
  end.

End Spec.

(** ** Further notions

    For the properties of the functions as a whole: the header of a
    commit text as a map from keys to values, the fields a record takes
    from the lines of an object, and the shape of a run. *)

Module Notions.
Import Py Eff Spec.

(** The line contains a space. *)
Definition has_space (l : str) : bool := existsb (N.eqb 32) l.

(** The line begins with the key and a space. *)
Definition has_key (key l : str) : bool := startswith l (key ++ [32]).

(** The value the header gives to a key: what follows the key and the
    space on the last header line that carries the key. *)
Definition header_value (key : str) (lines : list str) : option str :=
  match rev (filter (has_key key) (take_until_blank lines)) with
  | l :: _ => Some (skipn (S (List.length key)) l)
  | [] => None
  end.

(** The object named [h] is a commit object with a UTF-8 payload. *)
Definition is_text_commit (E : Env) (repo h : str) : bool :=
  match outcome (GDV.read_git_object E repo h) with
  | Ok (header, data) =>
      startswith header (lit "commit")
      && match decode data with Some _ => true | None => false end
  | Raise _ => false
  end.

(** The files written in a log, with their contents. *)
Definition writes (log : list event) : list (str * str) :=
  flat_map (fun ev => match ev with EvWrite p c => [(p, c)] | _ => [] end) log.


(** The number of parent entries of a graph. *)
Definition total_parents (g : dict (list str)) : nat :=
  list_sum (map (fun e => List.length (snd e)) g).

(** The string holds no line feed; no name of the graph does. *)
Definition one_line (s : str) : bool := negb (existsb (N.eqb 10) s).

Definition graph_one_line (g : dict (list str)) : bool :=
  forallb (fun e => one_line (fst e) && forallb one_line (snd e)) g.


(** The timestamp is at or before the cutoff. *)
Definition at_or_before (d : Z) (x : str * Z) : bool := (snd x <=? d)%Z.

(** Two environments hold the same files and the same library functions;
    their directory walks may differ. *)
Definition same_store (E1 E2 : Env) : Prop :=
  (forall p, fs E1 p = fs E2 p)
  /\ (forall b, zlib_decompress E1 b = zlib_decompress E2 b)
  /\ (forall s, py_int E1 s = py_int E2 s).

(** The last of the lines that begin with [prefix]. *)
Definition last_line_with (prefix : str) (lines : list str) : option str :=
  hd_error (rev (filter (fun l => startswith l prefix) lines)).


(** The tree hash and the author time the header lines stand for: the
    second word of the last line that begins with [tree], and the
    integer read from the last word but one of the last line that begins
    with [author]. *)
Definition tree_of_header (lines : list str) : option str :=
  match last_line_with (lit "tree") lines with
  | Some l => second_word l
  | None => None
  end.

Definition author_time_of_header (E : Env) (lines : list str) : option Z :=
  match last_line_with (lit "author") lines with
  | Some l =>
      match nth_from_end2 (split_ws l) with
      | Some w => py_int E w
      | None => None
      end
  | None => None
  end.

(** The events of reading an object that exists with the reader of
    visualizer.py. *)
Definition read_events (repo h : str) : list event :=
  [EvExists (VIS.object_path repo h); EvOpen (VIS.object_path repo h)].

(** *** test.py *)

(** What the last line that begins with [prefix] gives when it is read
    by [read], and [default] when no line begins with it. *)
Definition from_last {A} (prefix : str) (read : str -> option A) (lines : list str)
           (default : option A) : option A :=
  match last_line_with prefix lines with
  | Some l => read l
  | None => default
  end.

Definition third_word (line : str) : option str := nth_error (split_ws line) 2.

(** The integer read from the last word but one of a line. *)
Definition time_word (E : Env) (line : str) : option Z :=
  match nth_from_end2 (split_ws line) with
  | Some w => py_int E w
  | None => None
  end.

(** The earliest instant [fromtimestamp] returns, in microseconds. *)
Definition beginning_of_time : Z := (TestScript.min_timestamp * 1000000)%Z.

(** The result of a walk, restricted to the commits dated at or after
    [start_date]. *)
Definition keep_from (start_date : Z) (r : result (option (list TestScript.commit_data)))
  : result (option (list TestScript.commit_data)) :=
  match r with
  | Ok (Some cs) => Ok (Some (filter (on_or_after start_date) cs))
  | other => other
  end.

(** [broken_chain E repo e h n]: going from [h] to the parent recorded
    by [read_commit], the first [n] commits are readable and dated, and
    reading the next one raises [e]. *)
Inductive broken_chain (E : Env) (repo : str) (e : exn) : str -> nat -> Prop :=
| broken_here h :
    h <> [] ->
    outcome (TestScript.read_commit E h repo) = Raise e ->
    broken_chain E repo e h 0
| broken_later h c t p n :
    outcome (TestScript.read_commit E h repo) = Ok c ->
    TestScript.committer_timestamp c = Some t ->
    (TestScript.min_timestamp <= t <= TestScript.max_timestamp)%Z ->
    TestScript.parent c = Some p ->
    p <> [] ->
    broken_chain E repo e p n ->
    broken_chain E repo e h (S n).

(** The nodes declared and the edges drawn by a list of calls. *)
Definition declared (calls : list TestScript.digraph_call) : list str :=
  flat_map (fun call => match call with
                        | TestScript.Node name _ => [name]
                        | TestScript.Edge _ _ => []
                        end) calls.

Definition drawn (calls : list TestScript.digraph_call) : list (str * str) :=
  flat_map (fun call => match call with
                        | TestScript.Node _ _ => []
                        | TestScript.Edge t h => [(t, h)]
                        end) calls.

(** The edges of the path through [hashes], each from a hash to the one
    before it. *)
Fixpoint path_edges (hashes : list str) : list (str * str) :=
  match hashes with
  | child :: ((parent :: _) as rest) => (parent, child) :: path_edges rest
  | _ => []
  end.

(** A store with one entry that names itself as its parent, and a
    detached HEAD on it: no script checks that an entry's name is the
    SHA-1 of its content. *)
Definition self_hash : string := "1111111111111111111111111111111111111111".

Definition self_file : bytes :=
  [
     x78; x9c; x8d; x8e; x41; x0a; xc3; x20; x10; x00; x7b; xde;
     x57; xec; xbd; x50; x56; x31; xa2; x50; x4a; xfb; x14; xd7;
     x6c; x68; x21; xae; x22; x06; xfa; xfc; x86; x7c; x20; x9d;
     xf3; x0c; x4c; xae; xa5; x7c; x06; x9a; x60; x2e; xa3; x8b;
     xa0; xe3; x60; xa7; x39; x7b; x67; x33; x7b; xe1; x98; xc8;
     x93; x4c; x8e; x97; x30; xfb; x68; x43; x58; x58; xc4; x45;
     x72; xd0; x52; x17; xdd; xc3; x3f; x81; xb4; x8d; x77; xed;
     xf8; x52; xc5; x7b; x52; x7d; xca; x37; x95; xb6; xca; x2d;
     xd7; xf2; x40; x43; x84; x57; xda; x81; x7c; xfc; x0c; x39;
     x37; x61; xad; xb5; xc1; x0f; x1a; x1a; x35; xc5].

Definition self_entry : Sample.entry :=
  {| Sample.entry_hash := self_hash;
     Sample.entry_file := self_file;
     Sample.entry_data :=
       Some (Sample.loose "commit"
               (Sample.commit_payload [self_hash] (blit "Ann") "100" "loop")) |}.

Definition self_store : Env :=
  {| fs := fun path =>
             if str_eqb path (lit "repo/.git/HEAD")
             then Some (File (Sample.unlines [blit self_hash]))
             else fs (Sample.env [self_entry]) path;
     os_walk := os_walk (Sample.env [self_entry]);
     zlib_decompress := fun data =>
       if list_eqb Byte.eqb data self_file then Sample.entry_data self_entry else None;
     py_int := Sample.ascii_int |}.

(** The sample repository with a HEAD that names its branch without a
    blank after the colon. *)
Definition glued_head : Env :=
  {| fs := fun path =>
             if str_eqb path (lit "repo/.git/HEAD")
             then Some (File (Sample.unlines [blit "ref:refs/heads/main"]))
             else fs Sample.history path;
     os_walk := os_walk Sample.history;
     zlib_decompress := zlib_decompress Sample.history;
     py_int := py_int Sample.history |}.

(** How [test_read_commit] ends, read off the file system alone. *)
Definition mock_object_path : str :=
  TestScript.commit_file_path (lit "/mock/path/to/repo")
    (lit "abc1234567890def1234567890abcdef12345678").

Definition test_read_commit_verdict (E : Env) : TestScript.test_result :=
  match fs E mock_object_path with
  | None => TestScript.Failed (TestScript.Propagated FileNotFoundError)
  | Some Dir => TestScript.Failed (TestScript.Propagated IsADirectoryError)
  | Some (File _) =>
      match py_int E (lit "1625827216") with
      | None => TestScript.Failed (TestScript.Propagated ValueError)
      | Some t =>
          if (t =? 1625827216)%Z
          then TestScript.Failed
                 (TestScript.AssertionError (lit "Test failed: message mismatch"))
          else TestScript.Failed
                 (TestScript.AssertionError (lit "Test failed: committer timestamp mismatch"))
      end
  end.

(** *** The store and its commits, from their layout (visualizer.py) *)

(** The name of every file that the walk of the object directory yields,
    in walk order: the last component of the directory it is in,
    followed by its own name. *)
Definition stored_names (E : Env) (repo : str) : list str :=
  List.concat (map (fun d => map (app (basename (fst d))) (snd d))
              (os_walk E (path_join repo [lit ".git"; lit "objects"]))).

(** Where the loose object named [h] is kept. *)
Definition loose_path (repo h : str) : str :=
  path_join repo [lit ".git"; lit "objects"; firstn 2 h; skipn 2 h].

(** The header of an object text: its lines up to the first empty one. *)
Definition header_lines (text : str) : list str := take_until_blank (split_on 10 text).

Definition has_second_word (l : str) : bool :=
  match split_ws l with
  | _ :: _ :: _ => true
  | _ => false
  end.

Definition has_time_word (E : Env) (l : str) : bool :=
  match time_word E l with
  | Some _ => true
  | None => false
  end.

(** A header line that can be read: a [tree] or [parent] line has a
    second word, an [author] line has an integer as its last word but
    one; any other line is passed over. *)
Definition readable_line (E : Env) (l : str) : bool :=
  if startswith l (lit "tree") || startswith l (lit "parent") then has_second_word l
  else if startswith l (lit "author") then has_time_word E l
  else true.

(** The author time of an object text: the integer on the last [author]
    line of its header, when every line of the header can be read. *)
Definition author_time (E : Env) (text : str) : option Z :=
  if forallb (readable_line E) (header_lines text)
  then author_time_of_header E (header_lines text)
  else None.

(** The author time of the object named [h], when it is a loose commit
    object: a file that decompresses to UTF-8 text which begins with
    [commit]. *)
Definition commit_time (E : Env) (repo h : str) : option Z :=
  match fs E (loose_path repo h) with
  | Some (File content) =>
      match zlib_decompress E content with
      | Some data =>
          if bstartswith data (blit "commit") then
            match decode data with
            | Some text => author_time E text
            | None => None
            end
          else None
      | None => None
      end
  | _ => None
  end.

(** The commits of the store dated at or before the cutoff, each with its
    author time, in walk order. *)
Definition dated_commits (E : Env) (repo : str) (date_before : Z) : list (str * Z) :=
  flat_map (fun h => match commit_time E repo h with
                     | Some t => if (t <=? date_before)%Z then [(h, t)] else []
                     | None => []
                     end)
           (stored_names E repo).

(** *** Edge statements in the rendered texts *)



(** DOT: the statement of the edge from [commit] to [parent], and the
    lines of a text that are edge statements of [commit], those that
    begin with the quoted commit and the arrow. *)
Definition dot_edge_head (commit : str) : str :=
  lit "    " ++ dq ++ commit ++ dq ++ lit " -> ".

Definition dot_edge_text (commit parent : str) : str :=
  dot_edge_head commit ++ dq ++ parent ++ dq ++ lit ";".


(** PlantUML: a label is a quoted name with a number in brackets; the
    statement of the edge numbered [i] from [parent] to [commit]. *)
Definition uml_label (name : str) (i : N) : str :=
  dq ++ name ++ lit " (" ++ str_of_N i ++ lit ")" ++ dq.

Definition uml_edge_text (parent : str) (i : N) (commit : str) : str :=
  uml_label parent i ++ lit " --> " ++ uml_label commit (i + 1).








End Notions.

(** * Properties *)

Import Py Eff Eff.Notations Spec.

(** ** The primitives on small inputs *)

Example decode_utf8_boundaries :
  map decode_utf8
      [[192; 128]; [193; 191]; [194; 128]; [223; 191]; [224; 128; 128]; [224; 160; 128];
       [237; 160; 128]; [237; 159; 191]; [238; 128; 128]; [239; 191; 191];
       [240; 143; 191; 191]; [240; 144; 128; 128]; [244; 143; 191; 191];
       [244; 144; 128; 128]; [245; 128; 128; 128]; [128]; [226; 130];
       [97; 226; 130; 172; 98]; [240; 159; 152; 128]]
  = [None; None; Some [128]; Some [2047]; None; Some [2048];
     None; Some [55295]; Some [57344]; Some [65535];
     None; Some [65536]; Some [1114111];
     None; None; None; None;
     Some [97; 8364; 98]; Some [128512]].
Proof. vm_compute. reflexivity. Qed.

Example split_examples :
  split_ws (lit "  parent abc  def ") = [lit "parent"; lit "abc"; lit "def"]
  /\ split_on 10 (lit "ab") = [lit "ab"]
  /\ split_on 10 [] = [[]]
  /\ split_on 10 [10] = [[]; []]
  /\ split_once (N.eqb 32) (lit " a b ") = [[]; lit "a b "]
  /\ split_once (N.eqb 32) (lit "tree") = [lit "tree"]
  /\ splitlines (lit "a" ++ [10; 10] ++ lit "b" ++ [13; 10]) = [lit "a"; []; lit "b"]
  /\ splitlines [] = []
  /\ strip ([31; 32] ++ lit "a b" ++ [32; 133]) = lit "a b".
Proof. repeat split; vm_compute; reflexivity. Qed.

Example path_examples :
  path_join (lit "repo") [lit ".git"; lit "objects"; lit "ab"] = lit "repo/.git/objects/ab"
  /\ path_join (lit "repo/") [lit ".git"] = lit "repo/.git"
  /\ path_join [] [lit "x"] = lit "x"
  /\ path_join (lit "a") [lit "/b"; lit "c"] = lit "/b/c"
  /\ path_join (lit "a") [[]; lit "b"] = lit "a/b"
  /\ map dirname [lit "a/b/cd.png"; lit "cd.png"; lit "/cd"; lit "a//b"; lit "//a"; lit "///"]
     = [lit "a/b"; []; lit "/"; lit "a"; lit "//"; lit "///"]
  /\ map basename [lit "a/b/cd.png"; lit "cd.png"; lit "a/"] = [lit "cd.png"; lit "cd.png"; []]
  /\ replace (lit "out.png.png") (lit ".png") (lit ".puml") = lit "out.puml.puml".
Proof. repeat split; vm_compute; reflexivity. Qed.

(** The DOT text of the graph that maps [C2] to its one parent [C1]: the
    node statement comes before the edge. *)
Example dot_of_one_edge :
  GDV.generate_graphviz [(lit "C2", [lit "C1"])]
  = join nl [lit "digraph G {";
             lit "    node [shape=box, fontsize=10];";
             lit "    " ++ dq ++ lit "C2" ++ dq ++ lit " [label=" ++ dq ++ lit "C2" ++ dq ++ lit "];";
             lit "    " ++ dq ++ lit "C2" ++ dq ++ lit " -> " ++ dq ++ lit "C1" ++ dq ++ lit ";";
             lit "}"].
Proof. vm_compute. reflexivity. Qed.

(** The PlantUML text of the history of the sample. *)
Example plantuml_of_history :
  option_map VIS.generate_plantuml
             (match outcome (VIS.build_commit_graph Sample.history Sample.repo 300) with
              | Ok g => Some g
              | Raise _ => None
              end)
  = Some (join nl
            [lit "@startuml";
             dq ++ lit (Sample.root_hash ++ " (1)") ++ dq ++ lit " --> "
                ++ dq ++ lit (Sample.feature_hash ++ " (2)") ++ dq;
             dq ++ lit (Sample.root_hash ++ " (2)") ++ dq ++ lit " --> "
                ++ dq ++ lit (Sample.mainline_hash ++ " (3)") ++ dq;
             dq ++ lit (Sample.feature_hash ++ " (3)") ++ dq ++ lit " --> "
                ++ dq ++ lit (Sample.merge_hash ++ " (4)") ++ dq;
             dq ++ lit (Sample.mainline_hash ++ " (4)") ++ dq ++ lit " --> "
                ++ dq ++ lit (Sample.merge_hash ++ " (5)") ++ dq;
             lit "@enduml"]).
Proof. vm_compute. reflexivity. Qed.

(** The walk of the sample with the start date at 150 s keeps the two
    commits dated 300 and 250 and drops the root, dated 100. *)
Example walk_of_history :
  outcome (TestScript.get_commits_after_date Sample.history 5 Sample.repo 150000000)
  = Ok (Some [Sample.merge_record; Sample.mainline_record]).
Proof. vm_compute. reflexivity. Qed.

(** ** Strings and dictionaries *)

Lemma list_eqb_eq {A} (eqb : A -> A -> bool)
      (eqb_eq : forall a b, eqb a b = true <-> a = b) (l1 l2 : list A) :
  list_eqb eqb l1 l2 = true <-> l1 = l2.
Proof.
  revert l2; induction l1 as [|a l1 IH]; intros [|b l2]; simpl;
    try (split; [discriminate | congruence]); try tauto.
  rewrite andb_true_iff, eqb_eq, IH. split; [intros [-> ->] | intros [= -> ->]]; auto.
Qed.

Lemma str_eqb_eq (a b : str) : str_eqb a b = true <-> a = b.
Proof. apply list_eqb_eq, N.eqb_eq. Qed.

Lemma str_eqb_refl (a : str) : str_eqb a a = true.
Proof. now apply str_eqb_eq. Qed.

Lemma str_eqb_neq (a b : str) : str_eqb a b = false <-> a <> b.
Proof.
  rewrite <- str_eqb_eq. destruct (str_eqb a b); split; congruence.
Qed.

Lemma dict_get_set {V} (k k' : str) (v : V) (d : dict V) :
  dict_get k (dict_set k' v d) = if str_eqb k' k then Some v else dict_get k d.
Proof.
  induction d as [|[k0 v0] d IH]; simpl.
  - reflexivity.
  - destruct (str_eqb k0 k') eqn:E0; simpl.
    + apply str_eqb_eq in E0; subst k0.
      destruct (str_eqb k' k); reflexivity.
    + rewrite IH. destruct (str_eqb k0 k) eqn:E1; [|reflexivity].
      destruct (str_eqb k' k) eqn:E2; [|reflexivity].
      apply str_eqb_eq in E1, E2; subst. now rewrite str_eqb_refl in E0.
Qed.

Lemma dict_set_keys {V} (k : str) (v : V) (d : dict V) :
  map fst (dict_set k v d) = if existsb (fun kv => str_eqb (fst kv) k) d
                             then map fst d else map fst d ++ [k].
Proof.
  induction d as [|[k0 v0] d IH]; simpl; [reflexivity|].
  destruct (str_eqb k0 k); simpl; [reflexivity|].
  rewrite IH. now destruct (existsb _ d).
Qed.

Lemma existsb_key_In {V} (k : str) (d : dict V) :
  existsb (fun kv => str_eqb (fst kv) k) d = true <-> In k (map fst d).
Proof.
  rewrite existsb_exists, in_map_iff. split.
  - intros [kv [Hin Heq]]. apply str_eqb_eq in Heq. eauto.
  - intros [kv [Heq Hin]]. exists kv. split; [easy|]. now apply str_eqb_eq.
Qed.



(** ** The monad *)

Lemma bind_outcome_ok {A B} (m : M A) (k : A -> M B) (b : B) :
  outcome (bind m k) = Ok b ->
  exists a, outcome m = Ok a /\ outcome (k a) = Ok b.
Proof.
  destruct m as [[a|e] l]; simpl; [|discriminate].
  destruct (k a) as [r l'] eqn:Ek; simpl. intros ->. exists a. now rewrite Ek.
Qed.

Lemma bind_ok {A B} (m : M A) (k : A -> M B) (a : A) :
  outcome m = Ok a ->
  bind m k = (outcome (k a), events m ++ events (k a)).
Proof.
  destruct m as [r l]; simpl; intros ->. now destruct (k a).
Qed.

Lemma M_eta {A} (m : M A) : m = (outcome m, events m).
Proof. now destruct m. Qed.

Lemma events_bind {A B} (m : M A) (k : A -> M B) :
  events (bind m k)
  = events m ++ match outcome m with
                | Ok a => events (k a)
                | Raise _ => []
                end.
Proof.
  destruct m as [[a|e] l]; simpl; [now destruct (k a) | now rewrite app_nil_r].
Qed.

(** ** Reading a required commit (test.py) *)

(** C9.  A commit hash of fewer than 40 characters makes [read_commit]
    raise [ValueError] at once: the run produces no event at all, so no
    path is probed or opened and nothing is printed. *)
Theorem read_commit_rejects_short_hash (E : Env) (commit_hash repo_path : str) :
  (List.length commit_hash < 40)%nat ->
  TestScript.read_commit E commit_hash repo_path = (Raise ValueError, []).
Proof.
  intros Hlen. unfold TestScript.read_commit.
  apply Nat.ltb_lt in Hlen. now rewrite Hlen.
Qed.

Lemma read_commit_rejects_short_hash_witness :
  TestScript.read_commit (Sample.env [Sample.root]) (lit "a1ad3f9") Sample.repo
  = (Raise ValueError, []).
Proof.
  apply (read_commit_rejects_short_hash (Sample.env [Sample.root]) (lit "a1ad3f9")).
  simpl. lia.
Defined.

(** ** The PlantUML renderer *)

Lemma parent_edges_length (c : str) (ps : list str) (i : N) :
  List.length (VIS.parent_edges c ps i) = List.length ps.
Proof.
  revert i; induction ps as [|p ps IH]; intros i; simpl; [reflexivity|].
  now rewrite IH.
Qed.

Lemma plantuml_edges_app (g1 g2 : VIS.graph) (i : N) :
  VIS.plantuml_edges (g1 ++ g2) i
  = VIS.plantuml_edges g1 i
    ++ VIS.plantuml_edges g2 (i + N.of_nat (List.length (VIS.plantuml_edges g1 i))).
Proof.
  revert i; induction g1 as [|[c ps] g1 IH]; intros i; simpl.
  - now rewrite N.add_0_r.
  - destruct (null ps) eqn:Hnull.
    + apply IH.
    + rewrite IH, <- app_assoc. do 3 f_equal.
      rewrite length_app, parent_edges_length. lia.
Qed.

Lemma plantuml_edges_parentless (g : VIS.graph) (i : N) :
  (forall c ps, In (c, ps) g -> ps = []) -> VIS.plantuml_edges g i = [].
Proof.
  induction g as [|[c ps] g IH]; intros Hall; simpl; [reflexivity|].
  rewrite (Hall c ps (or_introl eq_refl)). simpl.
  apply IH. intros c' ps' Hin. apply (Hall c' ps'). now right.
Qed.

(** C10.  The PlantUML text is the two delimiters around one line per
    edge and nothing else; an entry with an empty parent list adds no
    line wherever it stands in the graph; and when every entry has an
    empty parent list the text is exactly the two delimiter lines. *)
Theorem plantuml_hides_parentless_commits :
  (forall g, VIS.generate_plantuml g
             = join nl ([lit "@startuml"]
                        ++ map VIS.uml_line (VIS.plantuml_edges g 1)
                        ++ [lit "@enduml"]))
  /\ (forall g1 c g2 i,
         VIS.plantuml_edges (g1 ++ (c, []) :: g2) i = VIS.plantuml_edges (g1 ++ g2) i)
  /\ (forall g, (forall c ps, In (c, ps) g -> ps = []) ->
                VIS.generate_plantuml g = lit "@startuml" ++ nl ++ lit "@enduml").
Proof.
  split; [reflexivity|]. split.
  - intros g1 c g2 i. now rewrite !plantuml_edges_app.
  - intros g Hall. unfold VIS.generate_plantuml.
    now rewrite (plantuml_edges_parentless g 1 Hall).
Qed.

Lemma plantuml_hides_parentless_commits_witness :
  VIS.generate_plantuml [(lit Sample.root_hash, []); (lit Sample.blob_hash, [])]
  = lit "@startuml" ++ nl ++ lit "@enduml".
Proof.
  apply (proj2 (proj2 plantuml_hides_parentless_commits)).
  intros c ps [[= _ <-]|[[= _ <-]|[]]]; reflexivity.
Defined.

(** ** Rendering the empty graph *)

(** C8, amended.  Both renderers turn the empty graph into a block with
    no edge statement.  The DOT script reports an empty selection and
    exits with status 0 before it builds or writes anything; the PlantUML
    script has no such check: it writes the empty block and hands it to
    the renderer, and prints nothing but the final success message. *)
Theorem empty_graph_rendering :
  GDV.generate_graphviz []
  = lit "digraph G {" ++ nl ++ lit "    node [shape=box, fontsize=10];" ++ nl ++ lit "}"
  /\ GDV.dot_stmts [] = []
  /\ VIS.generate_plantuml [] = lit "@startuml" ++ nl ++ lit "@enduml"
  /\ VIS.plantuml_edges [] 1 = []
  /\ (forall E H repo target output_file,
         fs E (path_join repo [lit ".git"]) = Some Dir ->
         outcome (GDV.find_commits E repo target) = Ok [] ->
         outcome (GDV.main E H repo target output_file) = Raise (SystemExit 0)
         /\ events (GDV.main E H repo target output_file)
            = EvIsDir (path_join repo [lit ".git"])
              :: events (GDV.find_commits E repo target)
              ++ [EvPrint (MsgNoCommits target)])
  /\ (forall E H repo date output_image_path jar t,
         strptime_timestamp H date = Some t ->
         outcome (VIS.build_commit_graph E repo t) = Ok [] ->
         let puml := replace output_image_path (lit ".png") (lit ".puml") in
         can_write H puml = true ->
         let render := VIS.generate_graph_image H puml output_image_path jar in
         events (VIS.main E H repo date output_image_path jar)
         = events (VIS.build_commit_graph E repo t)
           ++ [EvWrite puml (lit "@startuml" ++ nl ++ lit "@enduml")]
           ++ events render
           ++ match outcome render with
              | Ok _ => [EvPrint (MsgGraphSaved output_image_path)]
              | Raise _ => []
              end).
Proof.
  do 4 (split; [reflexivity|]). split.
  - intros E H repo target output_file Hdir Hfind.
    unfold GDV.main, GDV.verify_repo_path, path_isdir. rewrite Hdir. simpl.
    destruct (GDV.find_commits E repo target) as [r l]; simpl in *; subst r.
    simpl. split; reflexivity.
  - intros E H repo date out jar t Hdate Hbuild puml Hwrite render.
    unfold VIS.main. rewrite Hdate. simpl.
    destruct (VIS.build_commit_graph E repo t) as [r l]; simpl in *; subst r.
    unfold VIS.save_plantuml_file. fold puml. rewrite Hwrite. simpl.
    fold render. destruct render as [[u|e] l0]; simpl; rewrite ?app_nil_r; reflexivity.
Qed.

Lemma empty_graph_rendering_witness :
  outcome (GDV.main (Sample.env [Sample.blob]) Sample.host Sample.repo (lit "aaa") (lit "out.dot"))
  = Raise (SystemExit 0).
Proof.
  apply (proj1 (proj2 (proj2 (proj2 (proj2 empty_graph_rendering))))
           (Sample.env [Sample.blob]) Sample.host Sample.repo (lit "aaa") (lit "out.dot")).
  - reflexivity.
  - vm_compute. reflexivity.
Defined.

(** C8, as stated, fails for the PlantUML script: on a repository with no
    object at all its run ends normally and the only text it prints is
    the message that the graph was saved; the empty selection is not
    reported. *)
Lemma visualizer_main_does_not_report_empty_selection :
  store_objects (Sample.env []) Sample.repo = []
  /\ VIS.main (Sample.env []) Sample.host Sample.repo
              (lit "1970-01-02") (lit "out/graph.png") (lit "plantuml.jar")
     = (Ok tt,
        [EvWalk (lit "repo/.git/objects");
         EvWrite (lit "out/graph.puml") (lit "@startuml" ++ nl ++ lit "@enduml");
         EvRun [lit "java"; lit "-jar"; lit "plantuml.jar"; lit "out/graph.puml";
                lit "-tpng"; lit "-o"; lit "out"];
         EvRename (lit "out/graph.png") (lit "out/graph.png");
         EvPrint (MsgGraphSaved (lit "out/graph.png"))]).
Proof. split; vm_compute; reflexivity. Qed.

(** ** Reading one object *)

Lemma split_once_absent {A} (is_sep : A -> bool) (s : list A) :
  (forall c, In c s -> is_sep c = false) -> split_once is_sep s = [s].
Proof.
  induction s as [|c s IH]; intros Hs; simpl; [reflexivity|].
  rewrite (Hs c (or_introl eq_refl)), IH; [reflexivity|].
  intros x Hx. apply Hs. now right.
Qed.

Lemma split_once_present {A} (is_sep : A -> bool) (h p : list A) (c : A) :
  (forall x, In x h -> is_sep x = false) -> is_sep c = true ->
  split_once is_sep (h ++ c :: p) = [h; p].
Proof.
  induction h as [|x h IH]; intros Hh Hc; simpl.
  - now rewrite Hc.
  - rewrite (Hh x (or_introl eq_refl)), IH; [reflexivity| |assumption].
    intros y Hy. apply Hh. now right.
Qed.

Lemma not_nul_sep (data : bytes) :
  ~ In x00 data -> forall c, In c data -> Byte.eqb x00 c = false.
Proof.
  intros Hno c Hc. destruct (Byte.eqb x00 c) eqn:Heq; [|reflexivity].
  apply Byte.byte_dec_bl in Heq. now subst c.
Qed.

(** The three readers derive the same path from a hash. *)
Lemma object_paths_agree (repo h : str) :
  VIS.object_path repo h = GDV.object_path repo h
  /\ TestScript.commit_file_path repo h = GDV.object_path repo h.
Proof. split; reflexivity. Qed.

(** C5, amended.  Every reader fails with [FileNotFoundError] when nothing
    exists at the path derived from the hash, and with the zlib error
    when the entry does not decompress.  Only the reader of the DOT
    script splits the header off: it raises [ValueError] when there is
    no null byte.  The reader of the PlantUML script returns the
    decompressed data as they are, and [read_commit] of test.py hands
    them as they are, header included, to its parser and returns what
    the parser makes of them; neither fails for a missing null byte.  No
    reader looks at the declared length: whatever precedes the first
    null byte is returned as the header by the first, and passes
    unexamined through the other two. *)
Theorem read_object_failures (E : Env) (repo h : str) :
  let path := GDV.object_path repo h in
  (fs E path = None ->
     outcome (GDV.read_git_object E repo h) = Raise FileNotFoundError
     /\ outcome (VIS.read_git_object E repo h) = Raise FileNotFoundError
     /\ ((40 <= List.length h)%nat ->
         outcome (TestScript.read_commit E h repo) = Raise FileNotFoundError))
  /\ (forall content,
         fs E path = Some (File content) -> zlib_decompress E content = None ->
         outcome (GDV.read_git_object E repo h) = Raise ZlibError
         /\ outcome (VIS.read_git_object E repo h) = Raise ZlibError
         /\ ((40 <= List.length h)%nat ->
             outcome (TestScript.read_commit E h repo) = Raise ZlibError))
  /\ (forall content data,
         fs E path = Some (File content) -> zlib_decompress E content = Some data ->
         ~ In x00 data ->
         outcome (GDV.read_git_object E repo h) = Raise ValueError
         /\ outcome (VIS.read_git_object E repo h) = Ok data
         /\ ((40 <= List.length h)%nat ->
             outcome (TestScript.read_commit E h repo)
             = TestScript.parse_commit_data E data h))
  /\ (forall content header payload text,
         fs E path = Some (File content) ->
         zlib_decompress E content = Some (header ++ x00 :: payload) ->
         ~ In x00 header -> decode header = Some text ->
         outcome (GDV.read_git_object E repo h) = Ok (text, payload)
         /\ outcome (VIS.read_git_object E repo h) = Ok (header ++ x00 :: payload)
         /\ ((40 <= List.length h)%nat ->
             outcome (TestScript.read_commit E h repo)
             = TestScript.parse_commit_data E (header ++ x00 :: payload) h)).
Proof.
  intros path.
  assert (Hshort : forall n, (40 <= n)%nat -> Nat.ltb n 40 = false)
    by (intros n Hn; now apply Nat.ltb_ge).
  unfold GDV.read_git_object, VIS.read_git_object, TestScript.read_commit,
    open_rb, path_exists, decompress.
  destruct (object_paths_agree repo h) as [-> ->]. fold path.
  split; [|split; [|split]].
  - intros Hmissing. rewrite Hmissing. split; [reflexivity|]. split; [reflexivity|].
    intros Hlen. now rewrite (Hshort _ Hlen).
  - intros content Hfile Hzlib. rewrite Hfile. simpl. rewrite Hzlib.
    split; [reflexivity|]. split; [reflexivity|].
    intros Hlen. now rewrite (Hshort _ Hlen).
  - intros content data Hfile Hzlib Hnul. rewrite Hfile. simpl. rewrite Hzlib. simpl.
    rewrite (split_once_absent _ data (not_nul_sep data Hnul)).
    split; [reflexivity|]. split; [reflexivity|].
    intros Hlen. now rewrite (Hshort _ Hlen).
  - intros content header payload text Hfile Hzlib Hnul Hdecode.
    rewrite Hfile. simpl. rewrite Hzlib. simpl.
    rewrite (split_once_present _ header payload x00 (not_nul_sep header Hnul) eq_refl).
    rewrite Hdecode. split; [reflexivity|]. split; [reflexivity|].
    intros Hlen. now rewrite (Hshort _ Hlen).
Qed.

Lemma read_object_failures_witness :
  outcome (GDV.read_git_object (Sample.env [Sample.broken]) Sample.repo (lit Sample.broken_hash))
  = Raise ZlibError.
Proof.
  apply (proj1 (proj2 (read_object_failures (Sample.env [Sample.broken]) Sample.repo
                                            (lit Sample.broken_hash)))
           Sample.broken_file);
    vm_compute; reflexivity.
Defined.

(** C5, as stated, fails: an entry whose header declares the length [xyz]
    is read without error by the reader of the DOT script, and an entry
    with no null byte at all is read without error by the reader of the
    PlantUML script and by [read_commit] of test.py, whose parser finds
    no keyword in it and returns the record that holds the hash only. *)
Lemma malformed_header_is_accepted :
  outcome (GDV.read_git_object (Sample.env [Sample.badlen]) Sample.repo
                               (lit Sample.badlen_hash))
  = Ok (lit "commit xyz", blit "tree aaa111" ++ [x0a])
  /\ outcome (VIS.read_git_object (Sample.env [Sample.nonul]) Sample.repo
                                  (lit Sample.nonul_hash))
     = Ok (blit "commit 12 tree aaa111" ++ [x0a])
  /\ outcome (TestScript.read_commit (Sample.env [Sample.nonul]) (lit Sample.nonul_hash)
                                     Sample.repo)
     = Ok (TestScript.new_commit_data (lit Sample.nonul_hash))
  /\ outcome (TestScript.read_commit (Sample.env [Sample.badlen]) (lit Sample.badlen_hash)
                                     Sample.repo)
     = Ok (TestScript.new_commit_data (lit Sample.badlen_hash)).
Proof. repeat split; vm_compute; reflexivity. Qed.

(** ** Parent lines and parent lists *)


Lemma prefixed_not_null (line p : str) :
  null p = false -> startswith line p = true -> null line = false.
Proof. unfold startswith. destruct line, p; simpl; congruence. Qed.







(** C1.  The parser of the DOT script stores the header in a dictionary
    keyed by the first word of each line, so of the two [parent] lines of
    the merge commit of the sample only the last survives: the parent
    list derived from the dictionary has one element, not two.  The
    graph builder of that script moreover hands the parser the payload
    as [bytes] and stops with [TypeError]. *)
Theorem gdv_parser_keeps_last_parent_only :
  exists text metadata,
    decode Sample.merge_payload = Some text
    /\ filter is_parent_line (take_until_blank (splitlines text))
       = [lit "parent cd8d1c312780f495b1c5557c3ba482c223747cf5";
          lit "parent e9340655dcb2d3f4b649b7a61ed130dd1c99183b"]
    /\ GDV.parse_commit_data (PStr text) = Ok metadata
    /\ split_ws (dict_get_default (lit "parent") [] metadata)
       = [lit "e9340655dcb2d3f4b649b7a61ed130dd1c99183b"]
    /\ outcome (GDV.build_dependency_graph (Sample.env [Sample.merge]) Sample.repo
                                           [lit Sample.merge_hash])
       = Raise TypeError.
Proof.
  destruct (decode Sample.merge_payload) as [text|] eqn:Htext;
    [|vm_compute in Htext; discriminate].
  destruct (GDV.parse_commit_data (PStr text)) as [metadata|e] eqn:Hparse.
  - exists text, metadata.
    vm_compute in Htext. injection Htext as <-.
    vm_compute in Hparse. injection Hparse as <-.
    repeat split; vm_compute; reflexivity.
  - vm_compute in Htext. injection Htext as <-.
    vm_compute in Hparse. discriminate.
Qed.

(** ** Edges of a commit in the rendered output *)





Lemma uml_edges_of_parent_edges (c c' : str) (ps : list str) (i : N) :
  uml_edges_of c (VIS.parent_edges c' ps i)
  = if str_eqb c' c then VIS.parent_edges c' ps i else [].
Proof.
  unfold uml_edges_of. revert i; induction ps as [|p ps IH]; intros i; simpl.
  - now destruct (str_eqb c' c).
  - rewrite IH. now destruct (str_eqb c' c).
Qed.

Lemma parent_edges_parents (c : str) (ps : list str) (i : N) :
  map VIS.edge_parent (VIS.parent_edges c ps i) = ps.
Proof.
  revert i; induction ps as [|p ps IH]; intros i; simpl; [reflexivity|].
  now rewrite IH.
Qed.

Lemma uml_edges_absent (g : VIS.graph) (c : str) (i : N) :
  ~ In c (map fst g) -> uml_edges_of c (VIS.plantuml_edges g i) = [].
Proof.
  revert i; induction g as [|[c' ps'] g IH]; intros i Hnot; [reflexivity|].
  cbn [VIS.plantuml_edges].
  assert (Hrest : forall j, uml_edges_of c (VIS.plantuml_edges g j) = [])
    by (intros j; apply IH; intros Hin; apply Hnot; now right).
  destruct (null ps'); [apply Hrest|].
  unfold uml_edges_of in *. rewrite filter_app, Hrest, app_nil_r.
  fold (uml_edges_of c (VIS.parent_edges c' ps' i)).
  rewrite uml_edges_of_parent_edges.
  replace (str_eqb c' c) with false; [reflexivity|].
  symmetry. apply str_eqb_neq. intros ->. apply Hnot. now left.
Qed.

Lemma uml_edges_of_entry (g : VIS.graph) (c : str) (ps : list str) (i : N) :
  NoDup (map fst g) -> In (c, ps) g ->
  map VIS.edge_parent (uml_edges_of c (VIS.plantuml_edges g i)) = ps.
Proof.
  revert i; induction g as [|[c' ps'] g IH]; intros i Hnd Hin; [destruct Hin|].
  simpl in Hnd. inversion Hnd as [|? ? Hfresh Hnd']; subst.
  cbn [VIS.plantuml_edges]. destruct Hin as [[= -> ->]|Hin].
  - destruct ps as [|p ps]; cbn [null].
    + now rewrite (uml_edges_absent g c i Hfresh).
    + unfold uml_edges_of. rewrite filter_app.
      fold (uml_edges_of c (VIS.parent_edges c (p :: ps) i)).
      fold (uml_edges_of c (VIS.plantuml_edges g (i + N.of_nat (List.length (p :: ps))))).
      rewrite uml_edges_absent by assumption.
      rewrite uml_edges_of_parent_edges, str_eqb_refl, app_nil_r.
      apply parent_edges_parents.
  - assert (Hne : str_eqb c' c = false).
    { apply str_eqb_neq. intros ->. apply Hfresh.
      apply in_map_iff. now exists (c, ps). }
    destruct (null ps'); [now apply IH|].
    unfold uml_edges_of. rewrite filter_app.
    fold (uml_edges_of c (VIS.parent_edges c' ps' i)).
    rewrite uml_edges_of_parent_edges, Hne. simpl. now apply IH.
Qed.




(** ** The scan by author date (visualizer.py) *)

Lemma insert_by_time_perm (x : str * Z) (l : list (str * Z)) :
  Permutation (VIS.insert_by_time x l) (x :: l).
Proof.
  induction l as [|y l IH]; simpl; [reflexivity|].
  destruct (snd x <=? snd y)%Z; [reflexivity|].
  rewrite IH. apply perm_swap.
Qed.

Lemma sort_by_time_perm (l : list (str * Z)) : Permutation (VIS.sort_by_time l) l.
Proof.
  induction l as [|x l IH]; simpl; [reflexivity|].
  rewrite insert_by_time_perm. now constructor.
Qed.

Lemma insert_by_time_sorted (x : str * Z) (l : list (str * Z)) :
  Sorted le_time l -> Sorted le_time (VIS.insert_by_time x l).
Proof.
  induction l as [|y l IH]; intros Hs; simpl.
  - repeat constructor.
  - destruct (Z.leb_spec (snd x) (snd y)) as [Hle|Hgt].
    + constructor; [assumption|]. now constructor.
    + inversion Hs as [|? ? Hs' Hhd]; subst. constructor; [now apply IH|].
      destruct l as [|z l]; simpl.
      * constructor. unfold le_time. lia.
      * destruct (snd x <=? snd z)%Z; constructor.
        -- unfold le_time. lia.
        -- now inversion Hhd.
Qed.

Lemma sort_by_time_sorted (l : list (str * Z)) :
  StronglySorted le_time (VIS.sort_by_time l).
Proof.
  apply Sorted_StronglySorted.
  - intros a b c. unfold le_time. lia.
  - induction l as [|x l IH]; simpl; [constructor|]. now apply insert_by_time_sorted.
Qed.

(** Stability: the elements of any one timestamp keep their order. *)
Lemma insert_by_time_stable (t : Z) (x : str * Z) (l : list (str * Z)) :
  filter (has_time t) (VIS.insert_by_time x l) = filter (has_time t) (x :: l).
Proof.
  induction l as [|y l IH]; [reflexivity|].
  cbn [VIS.insert_by_time].
  destruct (Z.leb_spec (snd x) (snd y)) as [Hle|Hgt]; [reflexivity|].
  cbn [filter] in *. rewrite IH. unfold has_time.
  destruct (Z.eqb_spec (snd y) t), (Z.eqb_spec (snd x) t); try reflexivity. lia.
Qed.

Lemma sort_by_time_stable (t : Z) (l : list (str * Z)) :
  filter (has_time t) (VIS.sort_by_time l) = filter (has_time t) l.
Proof.
  induction l as [|x l IH]; [reflexivity|].
  cbn [VIS.sort_by_time]. rewrite insert_by_time_stable. cbn [filter]. now rewrite IH.
Qed.

(** The parser of the PlantUML script fails with an [Exception] only. *)
Lemma vis_parse_lines_raises (E : Env) (lines : list str) :
  forall t ps a e, VIS.parse_lines E lines t ps a = Raise e -> is_Exception e = true.
Proof.
  induction lines as [|line rest IH]; intros t ps a e Hparse;
    cbn [VIS.parse_lines] in Hparse; [discriminate|].
  destruct (startswith line (lit "tree")).
  { destruct (nth_error (split_ws line) 1); simpl in Hparse;
      [eapply IH; eassumption | now injection Hparse as <-]. }
  destruct (startswith line (lit "parent")).
  { destruct (nth_error (split_ws line) 1); simpl in Hparse;
      [eapply IH; eassumption | now injection Hparse as <-]. }
  destruct (startswith line (lit "author")).
  { destruct (nth_from_end2 (split_ws line)) as [w|]; simpl in Hparse;
      [|now injection Hparse as <-].
    destruct (py_int E w); simpl in Hparse;
      [eapply IH; eassumption | now injection Hparse as <-]. }
  destruct (null line); [discriminate | eapply IH; eassumption].
Qed.

Lemma scan_step_outcome (E : Env) (repo : str) (date_before : Z) (h : str)
      (commits : list (str * Z)) :
  outcome (VIS.scan_step E repo date_before h commits)
  = Ok (commits ++ selection E repo date_before h).
Proof.
  unfold VIS.scan_step, VIS.read_git_object, path_exists, open_rb, decompress,
    selection, author_timestamp.
  destruct (fs E (VIS.object_path repo h)) as [[content|]|]; simpl;
    try (now rewrite app_nil_r).
  destruct (zlib_decompress E content) as [data|]; simpl; [|now rewrite app_nil_r].
  destruct (bstartswith data (blit "commit")); simpl; [|now rewrite app_nil_r].
  destruct (decode data) as [text|]; simpl; [|now rewrite app_nil_r].
  destruct (VIS.parse_commit_object E text) as [[[t ps] [a|]]|e] eqn:Hparse; simpl.
  - destruct (a <=? date_before)%Z; simpl; [reflexivity | now rewrite app_nil_r].
  - now rewrite app_nil_r.
  - rewrite (vis_parse_lines_raises E _ _ _ _ _ Hparse). simpl. now rewrite app_nil_r.
Qed.

Lemma scan_loop_outcome (E : Env) (repo : str) (date_before : Z) (objects : list str) :
  forall commits,
    outcome (VIS.scan_loop E repo date_before objects commits)
    = Ok (commits ++ flat_map (selection E repo date_before) objects).
Proof.
  induction objects as [|h objects IH]; intros commits; cbn [VIS.scan_loop flat_map].
  - simpl. now rewrite app_nil_r.
  - rewrite (bind_ok _ _ _ (scan_step_outcome E repo date_before h commits)).
    simpl. now rewrite IH, <- app_assoc.
Qed.

Lemma get_all_commits_outcome (E : Env) (repo : str) (date_before : Z) :
  outcome (VIS.get_all_commits E repo date_before)
  = Ok (map fst (VIS.sort_by_time (encountered E repo date_before))).
Proof.
  unfold VIS.get_all_commits, walk. simpl.
  pose proof (scan_loop_outcome E repo date_before
                (VIS.walked_objects (os_walk E (path_join repo [lit ".git"; lit "objects"])))
                []) as Hloop.
  simpl in Hloop.
  destruct (VIS.scan_loop _ _ _ _ _) as [r l]. simpl in Hloop. subst r. reflexivity.
Qed.

Lemma encountered_spec (E : Env) (repo : str) (date_before : Z) (h : str) (t : Z) :
  In (h, t) (encountered E repo date_before)
  <-> In h (store_objects E repo)
      /\ author_timestamp E repo h = Some t /\ (t <= date_before)%Z.
Proof.
  unfold encountered. rewrite in_flat_map. unfold selection. split.
  - intros [h' [Hin Hsel]].
    destruct (author_timestamp E repo h') as [t'|] eqn:Htime; [|destruct Hsel].
    destruct (Z.leb_spec t' date_before); [|destruct Hsel].
    destruct Hsel as [[= -> ->]|[]]. auto.
  - intros [Hin [Htime Hle]]. exists h. split; [assumption|].
    rewrite Htime. apply Z.leb_le in Hle. rewrite Hle. now left.
Qed.

(** ** The graph built from the scan by author date *)

Lemma author_timestamp_readable (E : Env) (repo h : str) (t : Z) :
  author_timestamp E repo h = Some t ->
  exists data text tree_hash parents,
    outcome (VIS.read_git_object E repo h) = Ok data
    /\ decode data = Some text
    /\ VIS.parse_commit_object E text = Ok (tree_hash, parents, Some t).
Proof.
  unfold author_timestamp, VIS.read_git_object, path_exists, open_rb, decompress.
  destruct (fs E (VIS.object_path repo h)) as [[content|]|]; try discriminate.
  destruct (zlib_decompress E content) as [data|] eqn:Hzlib; [|discriminate].
  destruct (bstartswith data (blit "commit")); [|discriminate].
  destruct (decode data) as [text|] eqn:Hdecode; [|discriminate].
  destruct (VIS.parse_commit_object E text) as [[[tree_hash parents] [a|]]|e] eqn:Hparse;
    try discriminate.
  intros [= ->]. exists data, text, tree_hash, parents.
  simpl. rewrite Hzlib. auto.
Qed.

Lemma first_occurrences_ext (seen seen' l : list str) :
  (forall x, In x seen <-> In x seen') ->
  first_occurrences seen l = first_occurrences seen' l.
Proof.
  revert seen seen'; induction l as [|h l IH]; intros seen seen' Hsame; [reflexivity|].
  cbn [first_occurrences].
  assert (Hex : existsb (str_eqb h) seen = existsb (str_eqb h) seen').
  { apply eq_true_iff_eq. rewrite !existsb_exists.
    split; intros [x [Hin Heq]]; exists x; (split; [now apply Hsame | exact Heq]). }
  rewrite Hex. destruct (existsb (str_eqb h) seen'); [now apply IH|].
  f_equal. apply IH. intros x. simpl. now rewrite Hsame.
Qed.

Lemma build_commit_graph_loop_total (E : Env) (repo : str) (hashes : list str) :
  (forall h, In h hashes -> exists t, author_timestamp E repo h = Some t) ->
  forall g,
  exists g',
    outcome (VIS.build_commit_graph_loop E repo hashes g) = Ok g'
    /\ map fst g' = map fst g ++ first_occurrences (map fst g) hashes.
Proof.
  induction hashes as [|h hashes IH]; intros Hall g; cbn [VIS.build_commit_graph_loop].
  - exists g. split; [reflexivity|]. simpl. now rewrite app_nil_r.
  - destruct (Hall h (or_introl eq_refl)) as [t Htime].
    destruct (author_timestamp_readable E repo h t Htime)
      as [data [text [tree_hash [parents [Hread [Hdecode Hparse]]]]]].
    destruct (IH (fun x Hx => Hall x (or_intror Hx)) (dict_set h parents g))
      as [g' [Hrun Hkeys]].
    exists g'. split.
    + rewrite (bind_ok _ _ _ Hread). cbn [outcome fst].
      rewrite Hdecode. cbn [of_option lift bind]. rewrite Hparse. cbn [bind].
      destruct (VIS.build_commit_graph_loop E repo hashes (dict_set h parents g)).
      exact Hrun.
    + rewrite Hkeys, dict_set_keys. cbn [first_occurrences].
      assert (Hex : existsb (fun kv => str_eqb (fst kv) h) g
                    = existsb (str_eqb h) (map fst g)).
      { apply eq_true_iff_eq. rewrite existsb_key_In, existsb_exists. split.
        - intros Hin. exists h. split; [exact Hin | apply str_eqb_refl].
        - intros [x [Hin Heq]]. apply str_eqb_eq in Heq. now subst x. }
      rewrite Hex. destruct (existsb (str_eqb h) (map fst g)); [reflexivity|].
      rewrite <- app_assoc. cbn [app]. do 2 f_equal.
      apply first_occurrences_ext. intros x. rewrite in_app_iff. simpl. tauto.
Qed.

Lemma build_commit_graph_total (E : Env) (repo : str) (date_before : Z) :
  exists g,
    outcome (VIS.build_commit_graph E repo date_before) = Ok g
    /\ map fst g
       = first_occurrences [] (map fst (VIS.sort_by_time (encountered E repo date_before))).
Proof.
  set (hashes := map fst (VIS.sort_by_time (encountered E repo date_before))).
  destruct (build_commit_graph_loop_total E repo hashes) with (g := @nil (str * list str))
    as [g [Hrun Hkeys]].
  - intros h Hin. apply in_map_iff in Hin. destruct Hin as [[h' t] [<- Hin]].
    apply (Permutation_in _ (sort_by_time_perm _)) in Hin.
    apply encountered_spec in Hin. exists t. tauto.
  - exists g. split; [|exact Hkeys].
    unfold VIS.build_commit_graph.
    rewrite (bind_ok _ _ _ (get_all_commits_outcome E repo date_before)).
    exact Hrun.
Qed.

(** ** The scan by tree field (git_dependency_visualizer.py) *)

Lemma split_once_shape {A} (is_sep : A -> bool) (s : list A) :
  (split_once is_sep s = [s] /\ forall x, In x s -> is_sep x = false)
  \/ exists k c v,
       split_once is_sep s = [k; v] /\ s = k ++ c :: v /\ is_sep c = true
       /\ forall x, In x k -> is_sep x = false.
Proof.
  induction s as [|a s IH]; simpl.
  - left. split; [reflexivity | intros x []].
  - destruct (is_sep a) eqn:Ha.
    + right. exists [], a, s. repeat split; auto. intros x [].
    + destruct IH as [[-> Hno]|[k [c [v [-> [-> [Hc Hk]]]]]]].
      * left. split; [reflexivity|]. intros x [<-|Hx]; auto.
      * right. exists (a :: k), c, v. repeat split; auto.
        intros x [<-|Hx]; auto.
Qed.

(** A line whose first word is [tree] is a line that begins with [tree ],
    and its value is what follows these five characters. *)
Lemma tree_key_iff (key value : str) :
  (forall x, In x key -> N.eqb 32 x = false) ->
  is_tree_line (key ++ 32 :: value) = str_eqb key (lit "tree").
Proof.
  intros Hkey. unfold is_tree_line, startswith, str_eqb.
  change (lit "tree ") with [116; 114; 101; 101; 32].
  change (lit "tree") with [116; 114; 101; 101].
  repeat
    (destruct key as [|? key]; cbn [app prefixb list_eqb];
     [reflexivity
     |match goal with
      | |- (?n =? ?x) && _ = (?x =? ?n) && _ =>
          destruct (N.eqb_spec n x) as [<-|?];
          [rewrite !N.eqb_refl; cbn [andb] | destruct (N.eqb_spec x n); [congruence | reflexivity]]
      | |- (32 =? ?x) && _ = false =>
          rewrite (Hkey x) by (simpl; auto 10); reflexivity
      | _ => idtac
      end]).
  all: try reflexivity.
Qed.

Lemma gdv_parse_lines_raises (lines : list str) :
  forall metadata e, GDV.parse_lines lines metadata = Raise e -> e = ValueError.
Proof.
  induction lines as [|line rest IH]; intros metadata e Hparse;
    cbn [GDV.parse_lines] in Hparse; [discriminate|].
  destruct (null line); [discriminate|].
  destruct (split_once_shape (N.eqb 32) line) as [[Hs _]|[k [c [v [Hs _]]]]];
    rewrite Hs in Hparse.
  - congruence.
  - eapply IH; eassumption.
Qed.

(** The dictionary entry [tree] after the loop is the tree field. *)
Lemma gdv_parse_lines_tree (lines : list str) :
  forall metadata metadata',
    GDV.parse_lines lines metadata = Ok metadata' ->
    dict_get (lit "tree") metadata'
    = match rev (filter is_tree_line (take_until_blank lines)) with
      | l :: _ => Some (skipn 5 l)
      | [] => dict_get (lit "tree") metadata
      end.
Proof.
  induction lines as [|line rest IH]; intros metadata metadata' Hparse;
    cbn [GDV.parse_lines] in Hparse; cbn [take_until_blank].
  - now injection Hparse as <-.
  - destruct (null line); [now injection Hparse as <-|].
    destruct (split_once_shape (N.eqb 32) line)
      as [[Hs _]|[key [c [value [Hs [Hline [Hc Hkey]]]]]]];
      rewrite Hs in Hparse; [discriminate|].
    apply N.eqb_eq in Hc. subst c.
    apply IH in Hparse. rewrite Hparse, dict_get_set. cbn [filter].
    rewrite Hline at 1. rewrite (tree_key_iff key value Hkey).
    destruct (str_eqb key (lit "tree")) eqn:Hk.
    + cbn [rev].
      destruct (rev (filter is_tree_line (take_until_blank rest))); cbn [app];
        [|reflexivity].
      apply str_eqb_eq in Hk. subst key line. reflexivity.
    + reflexivity.
Qed.

Lemma gdv_parse_tree_field (text : str) (metadata : dict str) :
  GDV.parse_commit_data (PStr text) = Ok metadata ->
  dict_get_default (lit "tree") [] metadata = tree_field text.
Proof.
  intros Hparse. unfold dict_get_default, tree_field.
  pose proof (gdv_parse_lines_tree _ _ _ Hparse) as Htree.
  unfold str in *. rewrite Htree.
  now destruct (rev _).
Qed.

Lemma gdv_read_events (E : Env) (repo h : str) :
  events (GDV.read_git_object E repo h) = [EvOpen (GDV.object_path repo h)].
Proof.
  unfold GDV.read_git_object, open_rb, decompress.
  destruct (fs E (GDV.object_path repo h)) as [[content|]|]; simpl; try reflexivity.
  destruct (zlib_decompress E content) as [data|]; simpl; [|reflexivity].
  destruct (split_once (Byte.eqb x00) data) as [|header [|payload [|? ?]]]; simpl;
    try reflexivity.
  destruct (decode header); reflexivity.
Qed.

Lemma find_commits_step_spec (E : Env) (repo target h : str) (commits : list str) :
  GDV.find_commits_step E repo target h commits
  = match examine E repo target h with
    | Fatal e => (Raise e, [EvOpen (GDV.object_path repo h)])
    | Selected => (Ok (commits ++ [h]), step_events E repo target h)
    | _ => (Ok commits, step_events E repo target h)
    end.
Proof.
  unfold GDV.find_commits_step, step_events, examine.
  pose proof (gdv_read_events E repo h) as Hevents.
  destruct (GDV.read_git_object E repo h) as [r l].
  cbn [events snd outcome fst] in *. subst l.
  destruct r as [[header data]|e]; [|reflexivity].
  cbn [bind]. destruct (startswith header (lit "commit")); [|reflexivity].
  destruct (decode data) as [text|]; [|reflexivity].
  cbn [of_option lift bind try_except app].
  destruct (GDV.parse_commit_data (PStr text)) as [metadata|e] eqn:Hparse.
  - rewrite (gdv_parse_tree_field text metadata Hparse).
    destruct (contains (tree_field text) target); reflexivity.
  - apply gdv_parse_lines_raises in Hparse. subst e. reflexivity.
Qed.

Lemma find_commits_loop_clean (E : Env) (repo target : str) (objects : list str) :
  forall commits,
    forallb (not_fatal E repo target) objects = true ->
    GDV.find_commits_loop E repo target objects commits
    = (Ok (commits ++ filter (selected_here E repo target) objects),
       flat_map (step_events E repo target) objects).
Proof.
  induction objects as [|h objects IH]; intros commits Hclean;
    cbn [GDV.find_commits_loop filter flat_map].
  - simpl. now rewrite app_nil_r.
  - cbn [forallb] in Hclean. apply andb_true_iff in Hclean. destruct Hclean as [Hh Hrest].
    rewrite find_commits_step_spec. unfold not_fatal, selected_here in *.
    destruct (examine E repo target h) eqn:Hex; try discriminate;
      cbn [bind is_selected]; rewrite (IH _ Hrest); try reflexivity.
    now rewrite <- app_assoc.
Qed.

Lemma find_commits_loop_ok (E : Env) (repo target : str) (objects : list str) :
  forall commits result,
    outcome (GDV.find_commits_loop E repo target objects commits) = Ok result ->
    forallb (not_fatal E repo target) objects = true.
Proof.
  induction objects as [|h objects IH]; intros commits result Hrun; [reflexivity|].
  cbn [GDV.find_commits_loop] in Hrun. rewrite find_commits_step_spec in Hrun.
  cbn [forallb]. unfold not_fatal at 1.
  destruct (examine E repo target h) eqn:Hex; try discriminate;
    apply bind_outcome_ok in Hrun; destruct Hrun as [acc [_ Hrun]];
    apply IH in Hrun; exact Hrun.
Qed.

Lemma list_git_objects_spec (E : Env) (repo : str) :
  GDV.list_git_objects E repo
  = (Ok (listed_objects E repo), [EvWalk (path_join repo [lit ".git"; lit "objects"])]).
Proof. reflexivity. Qed.

Lemma find_commits_clean (E : Env) (repo target : str) :
  forallb (not_fatal E repo target) (listed_objects E repo) = true ->
  GDV.find_commits E repo target
  = (Ok (filter (selected_here E repo target) (listed_objects E repo)),
     EvWalk (path_join repo [lit ".git"; lit "objects"])
     :: flat_map (step_events E repo target) (listed_objects E repo)).
Proof.
  intros Hclean. unfold GDV.find_commits. rewrite list_git_objects_spec.
  cbn [bind]. now rewrite (find_commits_loop_clean E repo target _ [] Hclean).
Qed.

Lemma find_commits_ok (E : Env) (repo target : str) (commits : list str) :
  outcome (GDV.find_commits E repo target) = Ok commits ->
  forallb (not_fatal E repo target) (listed_objects E repo) = true.
Proof.
  unfold GDV.find_commits. rewrite list_git_objects_spec. cbn [bind].
  destruct (GDV.find_commits_loop E repo target (listed_objects E repo) []) as [r l] eqn:Hloop.
  simpl. intros ->.
  apply (find_commits_loop_ok E repo target _ [] commits). now rewrite Hloop.
Qed.

Lemma selected_here_selects (E : Env) (repo target h : str) :
  not_fatal E repo target h = true ->
  selected_here E repo target h = selects E repo target h.
Proof.
  unfold not_fatal, selected_here, selects, examine.
  destruct (outcome (GDV.read_git_object E repo h)) as [[header data]|e];
    [|discriminate].
  destruct (startswith header (lit "commit")); [|reflexivity].
  destruct (decode data) as [text|]; [|reflexivity].
  destruct (GDV.parse_commit_data (PStr text)); [|discriminate].
  now destruct (contains (tree_field text) target).
Qed.

(** C6.  When the scan by tree field returns, the commits it returns are
    the listed objects, in order, that are commit objects in whose tree
    field the target occurs as a substring.  On the store of the two
    commits with the tree fields [aaa111] and [bbb222], the target [aaa]
    selects the first commit only. *)
Theorem tree_field_filter :
  (forall E repo target commits,
      outcome (GDV.find_commits E repo target) = Ok commits ->
      commits = filter (selects E repo target) (listed_objects E repo))
  /\ (option_map tree_field (decode (blit "tree aaa111" ++ [x0a])) = Some (lit "aaa111")
      /\ option_map tree_field (decode (blit "tree bbb222" ++ [x0a])) = Some (lit "bbb222")
      /\ outcome (GDV.find_commits (Sample.env [Sample.tree_a; Sample.tree_b])
                                   Sample.repo (lit "aaa"))
         = Ok [lit Sample.tree_a_hash]).
Proof.
  split.
  - intros E repo target commits Hrun.
    pose proof (find_commits_ok E repo target commits Hrun) as Hclean.
    rewrite (find_commits_clean E repo target Hclean) in Hrun.
    injection Hrun as <-. apply filter_ext_in. intros h Hin.
    apply selected_here_selects.
    rewrite forallb_forall in Hclean. now apply Hclean.
  - repeat split; vm_compute; reflexivity.
Qed.

Lemma tree_field_filter_witness :
  [lit Sample.tree_b_hash]
  = filter (selects (Sample.env [Sample.tree_a; Sample.tree_b]) Sample.repo (lit "bbb2"))
           (listed_objects (Sample.env [Sample.tree_a; Sample.tree_b]) Sample.repo).
Proof.
  apply (proj1 tree_field_filter
           (Sample.env [Sample.tree_a; Sample.tree_b]) Sample.repo (lit "bbb2")).
  vm_compute. reflexivity.
Defined.

(** ** Failing objects during a scan *)

Lemma scan_step_events (E : Env) (repo : str) (date_before : Z) (h : str)
      (commits : list (str * Z)) :
  events (VIS.scan_step E repo date_before h commits) = probe_events E repo h.
Proof.
  unfold VIS.scan_step, VIS.read_git_object, path_exists, open_rb, decompress,
    probe_events.
  destruct (fs E (VIS.object_path repo h)) as [[content|]|]; simpl; try reflexivity.
  destruct (zlib_decompress E content) as [data|]; simpl; [|reflexivity].
  destruct (bstartswith data (blit "commit")); simpl; [|reflexivity].
  destruct (decode data) as [text|]; simpl; [|reflexivity].
  destruct (VIS.parse_commit_object E text) as [[[t ps] [a|]]|e] eqn:Hparse; simpl.
  - destruct (a <=? date_before)%Z; reflexivity.
  - reflexivity.
  - rewrite (vis_parse_lines_raises E _ _ _ _ _ Hparse). reflexivity.
Qed.

Lemma scan_loop_events (E : Env) (repo : str) (date_before : Z) (objects : list str) :
  forall commits,
    events (VIS.scan_loop E repo date_before objects commits)
    = flat_map (probe_events E repo) objects.
Proof.
  induction objects as [|h objects IH]; intros commits; cbn [VIS.scan_loop flat_map].
  - reflexivity.
  - rewrite (bind_ok _ _ _ (scan_step_outcome E repo date_before h commits)).
    simpl. now rewrite IH, scan_step_events.
Qed.

Lemma get_all_commits_events (E : Env) (repo : str) (date_before : Z) :
  events (VIS.get_all_commits E repo date_before)
  = EvWalk (path_join repo [lit ".git"; lit "objects"])
    :: flat_map (probe_events E repo) (store_objects E repo).
Proof.
  unfold VIS.get_all_commits, walk, store_objects.
  cbn [bind emit ret app].
  set (objects := VIS.walked_objects _).
  pose proof (scan_loop_events E repo date_before objects []) as Hevents.
  pose proof (scan_loop_outcome E repo date_before objects []) as Houtcome.
  destruct (VIS.scan_loop E repo date_before objects []) as [r l].
  cbn [events snd outcome fst] in *. subst r l.
  cbn [bind ret events snd]. now rewrite app_nil_r.
Qed.

Lemma diagnostics_step_events (E : Env) (repo target : str) (objects : list str) :
  diagnostics (flat_map (step_events E repo target) objects)
  = filter (fun h => is_undecodable (examine E repo target h)) objects.
Proof.
  unfold diagnostics. induction objects as [|h objects IH]; [reflexivity|].
  cbn [flat_map filter]. rewrite flat_map_app, IH. unfold step_events.
  now destruct (is_undecodable (examine E repo target h)).
Qed.

Lemma opened_step_events (E : Env) (repo target : str) (objects : list str) :
  opened (flat_map (step_events E repo target) objects)
  = map (GDV.object_path repo) objects.
Proof.
  unfold opened. induction objects as [|h objects IH]; [reflexivity|].
  cbn [flat_map map]. rewrite flat_map_app, IH. unfold step_events.
  now destruct (is_undecodable (examine E repo target h)).
Qed.

(** C4, amended.  The scan by author date never stops early: whatever
    fails at an object, it returns, having probed every object the walk
    yields and selected every readable commit at or before the cutoff;
    it prints nothing.  The scan by tree field goes on after a commit
    whose payload is not UTF-8: when no object of the store fails
    otherwise, it returns the selected commits, has opened every listed
    object, and has printed one diagnostic for each undecodable commit,
    in order. *)
Theorem scan_continues_past_failing_objects :
  (forall E repo date_before,
      VIS.get_all_commits E repo date_before
      = (Ok (map fst (VIS.sort_by_time (encountered E repo date_before))),
         EvWalk (path_join repo [lit ".git"; lit "objects"])
         :: flat_map (probe_events E repo) (store_objects E repo)))
  /\ (forall E repo target,
         forallb (not_fatal E repo target) (listed_objects E repo) = true ->
         outcome (GDV.find_commits E repo target)
         = Ok (filter (selected_here E repo target) (listed_objects E repo))
         /\ opened (events (GDV.find_commits E repo target))
            = map (GDV.object_path repo) (listed_objects E repo)
         /\ diagnostics (events (GDV.find_commits E repo target))
            = filter (fun h => is_undecodable (examine E repo target h))
                     (listed_objects E repo)).
Proof.
  split.
  - intros E repo date_before.
    rewrite (M_eta (VIS.get_all_commits E repo date_before)).
    now rewrite get_all_commits_outcome, get_all_commits_events.
  - intros E repo target Hclean.
    rewrite (find_commits_clean E repo target Hclean). cbn [outcome events fst snd].
    split; [reflexivity|]. split.
    + apply opened_step_events.
    + apply diagnostics_step_events.
Qed.

Lemma scan_continues_past_failing_objects_witness :
  outcome (GDV.find_commits (Sample.env [Sample.blob; Sample.latin; Sample.tree_a])
                            Sample.repo (lit "aaa"))
  = Ok [lit Sample.tree_a_hash]
  /\ diagnostics (events (GDV.find_commits
                            (Sample.env [Sample.blob; Sample.latin; Sample.tree_a])
                            Sample.repo (lit "aaa")))
     = [lit Sample.latin_hash].
Proof.
  destruct (proj2 scan_continues_past_failing_objects
              (Sample.env [Sample.blob; Sample.latin; Sample.tree_a])
              Sample.repo (lit "aaa"))
    as [Hout [_ Hdiag]].
  - vm_compute. reflexivity.
  - split.
    + rewrite Hout. vm_compute. reflexivity.
    + rewrite Hdiag. vm_compute. reflexivity.
Defined.

(** C4, as stated, fails for the scan by tree field: an entry that is not
    a zlib stream ends the scan with the zlib error, and the commit that
    follows it in the store, which the scan would select, is never
    opened. *)
Lemma find_commits_aborts_on_corrupt_entry :
  GDV.find_commits (Sample.env [Sample.broken; Sample.tree_a]) Sample.repo (lit "aaa")
  = (Raise ZlibError,
     [EvWalk Sample.objects_dir; EvOpen (Sample.entry_path Sample.broken)])
  /\ outcome (GDV.find_commits (Sample.env [Sample.tree_a]) Sample.repo (lit "aaa"))
     = Ok [lit Sample.tree_a_hash].
Proof. split; vm_compute; reflexivity. Qed.

(** ** The walk from HEAD (test.py) *)

Lemma test_parse_lines_spec (E : Env) (lines : list str) :
  forall c c',
    TestScript.parse_lines E lines c = Ok c' ->
    TestScript.commit_hash c' = TestScript.commit_hash c
    /\ TestScript.parent c'
       = match rev (filter is_parent_line lines) with
         | l :: _ => second_word l
         | [] => TestScript.parent c
         end.
Proof.
  induction lines as [|line rest IH]; intros c c' Hparse;
    cbn [TestScript.parse_lines] in Hparse.
  - injection Hparse as <-. now split.
  - cbv zeta in Hparse. cbn [filter]. unfold is_parent_line at 1.
    destruct (startswith line (lit "parent")) eqn:Hparent.
    { destruct (nth_error (split_ws line) 1) as [v|] eqn:Hv; cbn [rbind of_option] in Hparse;
        [|discriminate].
      apply IH in Hparse. destruct Hparse as [Hhash Hpar]. split; [exact Hhash|].
      rewrite Hpar. cbn [rev].
      destruct (rev (filter is_parent_line rest)); cbn [app]; [|reflexivity].
      simpl. now rewrite <- Hv. }
    destruct (startswith line (lit "author")).
    { destruct (nth_error (split_ws line) 1) as [v|]; cbn [rbind of_option] in Hparse; [|discriminate].
      now apply IH in Hparse. }
    destruct (startswith line (lit "committer")).
    { destruct (nth_error (split_ws line) 1) as [name|]; cbn [rbind of_option] in Hparse; [|discriminate].
      destruct (nth_error (split_ws line) 2) as [email|]; cbn [rbind of_option] in Hparse; [|discriminate].
      destruct (nth_from_end2 (split_ws line)) as [tok|]; cbn [rbind of_option] in Hparse; [|discriminate].
      destruct (py_int E tok) as [t|]; cbn [rbind of_option] in Hparse; [|discriminate].
      now apply IH in Hparse. }
    destruct (startswith line (lit "tree")).
    { destruct (nth_error (split_ws line) 1) as [v|]; cbn [rbind of_option] in Hparse; [|discriminate].
      now apply IH in Hparse. }
    destruct (startswith line (lit "message")).
    { destruct (nth_error (split_ws line) 1) as [v|]; cbn [rbind of_option] in Hparse; [|discriminate].
      now apply IH in Hparse. }
    now apply IH in Hparse.
Qed.

(** What a successful [read_commit] has read, and what it has done. *)
Lemma read_commit_ok (E : Env) (h repo : str) (c : TestScript.commit_data) :
  outcome (TestScript.read_commit E h repo) = Ok c ->
  null h = false
  /\ TestScript.commit_hash c = h
  /\ events (TestScript.read_commit E h repo)
     = [EvPrint (MsgTryingToRead (TestScript.commit_file_path repo h));
        EvExists (TestScript.commit_file_path repo h);
        EvOpen (TestScript.commit_file_path repo h)]
  /\ exists text,
       object_text E (TestScript.commit_file_path repo h) = Some text
       /\ TestScript.parent c = last_parent text.
Proof.
  unfold TestScript.read_commit, object_text, path_exists, open_rb, decompress,
    TestScript.parse_commit_data.
  destruct (Nat.ltb (List.length h) 40) eqn:Hlen; [discriminate|].
  assert (Hnull : null h = false) by (destruct h; [discriminate | reflexivity]).
  destruct (fs E (TestScript.commit_file_path repo h)) as [[content|]|]; simpl;
    try discriminate.
  destruct (zlib_decompress E content) as [data|]; simpl; [|discriminate].
  destruct (decode data) as [text|]; simpl; [|discriminate].
  destruct (TestScript.parse_lines E (split_on 10 text) (TestScript.new_commit_data h))
    as [c0|e] eqn:Hparse; simpl; [|discriminate].
  intros [= ->]. apply test_parse_lines_spec in Hparse. destruct Hparse as [Hhash Hpar].
  repeat split; try assumption. exists text. split; [reflexivity|].
  rewrite Hpar. unfold last_parent, parent_prefixed_lines.
  now destruct (rev _).
Qed.

Lemma probes_app (l1 l2 : list event) : probes (l1 ++ l2) = probes l1 ++ probes l2.
Proof. apply flat_map_app. Qed.

(** The walk reads the commits of the chain and nothing else. *)
Lemma walk_loop_follows_chain (E : Env) (repo : str) (start_date : Z) (h : str)
      (cs : list TestScript.commit_data) :
  chain E repo h cs ->
  forall fuel commits,
    (List.length cs <= fuel)%nat ->
    outcome (TestScript.walk_loop E fuel repo start_date h commits)
    = Ok (Some (commits ++ filter (on_or_after start_date) cs))
    /\ probes (events (TestScript.walk_loop E fuel repo start_date h commits))
       = map (fun c => TestScript.commit_file_path repo (TestScript.commit_hash c)) cs.
Proof.
  assert (Hdate : forall t, (TestScript.min_timestamp <= t <= TestScript.max_timestamp)%Z ->
                            TestScript.fromtimestamp t = Ok (t * 1000000)%Z).
  { intros t [Hlo Hhi]. unfold TestScript.fromtimestamp.
    apply Z.leb_le in Hlo, Hhi. now rewrite Hlo, Hhi. }
  induction 1 as [h c t text Hread Htime Hrange Htext Hlast
                 |h c t text p cs Hread Htime Hrange Htext Hlast Hp Hchain IH];
    intros fuel commits Hfuel;
    (destruct fuel as [|fuel]; [simpl in Hfuel; lia|]);
    destruct (read_commit_ok E h repo c Hread)
      as [Hnull [Hhash [Hevents [text' [Htext' Hparent]]]]];
    rewrite Htext in Htext'; injection Htext' as <-;
    cbn [TestScript.walk_loop]; rewrite Hnull;
    destruct (TestScript.read_commit E h repo) as [r l];
    cbn [outcome events fst snd] in Hread, Hevents; subst r l;
    cbn [bind]; rewrite Htime; cbn [of_option lift bind];
    rewrite (Hdate t Hrange); cbn [bind]; cbv zeta;
    rewrite Hparent;
    unfold on_or_after; cbn [filter map]; rewrite Htime, Hhash.
  - destruct Hlast as [Hl|Hl]; rewrite Hl;
      destruct (start_date <=? t * 1000000)%Z;
      cbn [null ret outcome events fst snd app probes flat_map];
      rewrite ?app_nil_r; split; reflexivity.
  - rewrite Hlast.
    assert (Hpnull : null p = false) by (destruct p; [congruence | reflexivity]).
    rewrite Hpnull.
    simpl in Hfuel. apply le_S_n in Hfuel.
    set (commits' := if (start_date <=? t * 1000000)%Z then commits ++ [c] else commits).
    destruct (IH fuel commits' Hfuel) as [Hout Hprobes].
    destruct (TestScript.walk_loop E fuel repo start_date p commits') as [r l].
    cbn [outcome events fst snd] in *. subst r.
    cbn [app]. split.
    + f_equal. f_equal. unfold commits'. fold (on_or_after start_date).
      destruct (start_date <=? t * 1000000)%Z; [now rewrite <- app_assoc | reflexivity].
    + change (?a :: ?b :: ?d :: l) with ([a; b; d] ++ l).
      rewrite probes_app, Hprobes. reflexivity.
Qed.

Lemma open_r_probes (E : Env) (path : str) : probes (events (open_r E path)) = [].
Proof.
  unfold open_r, open_rb.
  destruct (fs E path) as [[content|]|]; simpl; try reflexivity.
  destruct (decode content); reflexivity.
Qed.

Lemma resolve_head_probes (E : Env) (repo : str) :
  probes (events (TestScript.resolve_head E repo)) = [].
Proof.
  unfold TestScript.resolve_head, TestScript.get_commit_hash_from_ref.
  rewrite events_bind, probes_app, open_r_probes.
  destruct (outcome (open_r E (path_join repo [lit ".git"; lit "HEAD"]))) as [content|e];
    [|reflexivity].
  cbn [app]. destruct (startswith (strip content) (lit "ref:")); [|reflexivity].
  rewrite events_bind. cbn [lift events snd outcome fst app].
  destruct (of_option IndexError (nth_error (split_ws (strip content)) 1))
    as [branch_ref|e]; [|reflexivity].
  rewrite events_bind, probes_app, open_r_probes.
  now destruct (outcome (open_r E (path_join repo [lit ".git"; branch_ref]))).
Qed.

(** What the loop of [get_commits_after_date] does on a chain of dated
    commits: from the commit that HEAD resolves to it reads one commit
    after the other, going at every commit to the parent its record
    holds, which is the one named on the last line of the object that
    begins with [parent].  With fuel for the length of the chain it
    returns the commits of the chain dated at or after the start date,
    and the objects it has probed are those of the chain, in order. *)
Lemma walk_follows_last_parent_line (E : Env) (repo : str) (start_date : Z)
        (h : str) (cs : list TestScript.commit_data) (fuel : nat) :
  outcome (TestScript.resolve_head E repo) = Ok h ->
  chain E repo h cs ->
  (List.length cs <= fuel)%nat ->
  outcome (TestScript.get_commits_after_date E fuel repo start_date)
  = Ok (Some (filter (on_or_after start_date) cs))
  /\ probes (events (TestScript.get_commits_after_date E fuel repo start_date))
     = map (fun c => TestScript.commit_file_path repo (TestScript.commit_hash c)) cs.
Proof.
  intros Hhead Hchain Hfuel. unfold TestScript.get_commits_after_date.
  rewrite (bind_ok _ _ _ Hhead). cbn [outcome events fst snd].
  destruct (walk_loop_follows_chain E repo start_date h cs Hchain fuel [] Hfuel)
    as [Hout Hprobes].
  split; [exact Hout|].
  now rewrite probes_app, resolve_head_probes, Hprobes.
Qed.

Lemma sample_chain :
  chain Sample.history Sample.repo (lit Sample.merge_hash)
        [Sample.merge_record; Sample.mainline_record; Sample.root_record].
Proof.
  eapply chain_next with (t := 300%Z) (p := lit Sample.mainline_hash);
    [vm_compute; reflexivity | reflexivity | vm_compute; split; discriminate
    | vm_compute; reflexivity | vm_compute; reflexivity | discriminate | ].
  eapply chain_next with (t := 250%Z) (p := lit Sample.root_hash);
    [vm_compute; reflexivity | reflexivity | vm_compute; split; discriminate
    | vm_compute; reflexivity | vm_compute; reflexivity | discriminate | ].
  eapply chain_end with (t := 100%Z);
    [vm_compute; reflexivity | reflexivity | vm_compute; split; discriminate
    | vm_compute; reflexivity | left; vm_compute; reflexivity ].
Qed.

Example walk_from_head_of_history :
  outcome (TestScript.get_commits_after_date Sample.history 3 Sample.repo 150000000)
  = Ok (Some [Sample.merge_record; Sample.mainline_record])
  /\ probes (events (TestScript.get_commits_after_date Sample.history 3 Sample.repo 150000000))
     = map (TestScript.commit_file_path Sample.repo)
           [lit Sample.merge_hash; lit Sample.mainline_hash; lit Sample.root_hash].
Proof.
  apply (walk_follows_last_parent_line Sample.history Sample.repo 150000000
           (lit Sample.merge_hash)
           [Sample.merge_record; Sample.mainline_record; Sample.root_record] 3).
  - vm_compute. reflexivity.
  - exact sample_chain.
  - simpl. lia.
Qed.

(** C2.  The walk does not keep to the first parent.  The merge commit
    of the sample carries two [parent] lines, naming [feature] first and
    [mainline] second.  The parser of test.py assigns the [parent] entry
    at every such line, so the record of the merge holds [mainline], the
    last parent; the walk from HEAD therefore goes from the merge to
    [mainline] and on to the root, and [feature], the first parent in
    file order, is never probed. *)
Theorem walk_leaves_first_parent_of_merge :
  exists text,
    object_text Sample.history
                (TestScript.commit_file_path Sample.repo (lit Sample.merge_hash))
    = Some text
    /\ map second_word (parent_prefixed_lines text)
       = [Some (lit Sample.feature_hash); Some (lit Sample.mainline_hash)]
    /\ first_parent text = Some (lit Sample.feature_hash)
    /\ outcome (TestScript.read_commit Sample.history (lit Sample.merge_hash) Sample.repo)
       = Ok Sample.merge_record
    /\ TestScript.parent Sample.merge_record = Some (lit Sample.mainline_hash)
    /\ outcome (TestScript.get_commits_after_date Sample.history 10 Sample.repo 0)
       = Ok (Some [Sample.merge_record; Sample.mainline_record; Sample.root_record])
    /\ probes (events (TestScript.get_commits_after_date Sample.history 10 Sample.repo 0))
       = map (TestScript.commit_file_path Sample.repo)
             [lit Sample.merge_hash; lit Sample.mainline_hash; lit Sample.root_hash]
    /\ existsb (str_eqb (TestScript.commit_file_path Sample.repo (lit Sample.feature_hash)))
               (probes (events (TestScript.get_commits_after_date
                                  Sample.history 10 Sample.repo 0)))
       = false.
Proof.
  destruct (object_text Sample.history
              (TestScript.commit_file_path Sample.repo (lit Sample.merge_hash)))
    as [text|] eqn:Htext; [|vm_compute in Htext; discriminate].
  exists text. split; [reflexivity|].
  vm_compute in Htext. injection Htext as <-.
  repeat split; vm_compute; reflexivity.
Qed.

(** * Further properties of the three scripts *)

Import Notions.

(** ** The header dictionary of git_dependency_visualizer.py *)

Lemma has_space_false (l : str) :
  has_space l = false <-> forall x, In x l -> N.eqb 32 x = false.
Proof.
  unfold has_space. induction l as [|a l IH]; cbn [existsb In].
  - split; [intros _ x [] | reflexivity].
  - rewrite orb_false_iff, IH. split.
    + intros [Ha Hl] x [<-|Hx]; auto.
    + intros Hall. split; [apply Hall; now left | intros x Hx; apply Hall; now right].
Qed.

(** A line [key' value] carries the key [key] exactly when [key'] is [key]. *)
Lemma has_key_iff (key key' value : str) :
  has_space key = false -> has_space key' = false ->
  has_key key (key' ++ 32 :: value) = str_eqb key' key.
Proof.
  unfold has_key, startswith, str_eqb. revert key'.
  induction key as [|b key IH]; intros [|a key'] Hkey Hkey'; cbn [app prefixb list_eqb].
  - reflexivity.
  - cbn [has_space existsb] in Hkey'. apply orb_false_iff in Hkey'.
    destruct Hkey' as [Ha _]. now rewrite Ha.
  - cbn [has_space existsb] in Hkey. apply orb_false_iff in Hkey.
    destruct Hkey as [Hb _]. rewrite N.eqb_sym in Hb. now rewrite Hb.
  - cbn [has_space existsb] in Hkey, Hkey'.
    apply orb_false_iff in Hkey, Hkey'. destruct Hkey as [_ Hkey], Hkey' as [_ Hkey'].
    rewrite (N.eqb_sym b a). f_equal. now apply IH.
Qed.

Lemma skipn_key (key value : str) :
  skipn (S (List.length key)) (key ++ 32 :: value) = value.
Proof. induction key as [|a key IH]; [reflexivity | exact IH]. Qed.

Lemma gdv_parse_lines_value (key : str) (lines : list str) :
  has_space key = false ->
  forall metadata metadata',
    GDV.parse_lines lines metadata = Ok metadata' ->
    dict_get key metadata'
    = match header_value key lines with
      | Some v => Some v
      | None => dict_get key metadata
      end.
Proof.
  intros Hkey. unfold header_value.
  induction lines as [|line rest IH]; intros metadata metadata' Hparse;
    cbn [GDV.parse_lines] in Hparse; cbn [take_until_blank].
  - now injection Hparse as <-.
  - destruct (null line); [now injection Hparse as <-|].
    destruct (split_once_shape (N.eqb 32) line)
      as [[Hs _]|[key' [c [value [Hs [Hline [Hc Hkey']]]]]]];
      rewrite Hs in Hparse; [discriminate|].
    apply N.eqb_eq in Hc. subst c.
    apply IH in Hparse. rewrite Hparse, dict_get_set. cbn [filter].
    rewrite Hline at 1.
    rewrite (has_key_iff key key' value Hkey) by now apply has_space_false.
    destruct (str_eqb key' key) eqn:Hk.
    + cbn [rev].
      destruct (rev (filter (has_key key) (take_until_blank rest))); cbn [app];
        [|reflexivity].
      apply str_eqb_eq in Hk. subst key' line. now rewrite skipn_key.
    + now destruct (rev (filter (has_key key) (take_until_blank rest))).
Qed.

Lemma gdv_parse_lines_spaced_key (key : str) (lines : list str) :
  has_space key = true ->
  forall metadata metadata',
    GDV.parse_lines lines metadata = Ok metadata' ->
    dict_get key metadata' = dict_get key metadata.
Proof.
  intros Hkey.
  induction lines as [|line rest IH]; intros metadata metadata' Hparse;
    cbn [GDV.parse_lines] in Hparse.
  - now injection Hparse as <-.
  - destruct (null line); [now injection Hparse as <-|].
    destruct (split_once_shape (N.eqb 32) line)
      as [[Hs _]|[key' [c [value [Hs [Hline [Hc Hkey']]]]]]];
      rewrite Hs in Hparse; [discriminate|].
    apply IH in Hparse. rewrite Hparse, dict_get_set.
    destruct (str_eqb key' key) eqn:Hk; [|reflexivity].
    apply str_eqb_eq in Hk. subst key'.
    apply has_space_false in Hkey'. congruence.
Qed.

(** X1.  In the dictionary [parse_commit_data] returns, a key has the
    value of the last header line that carries it, and is absent when no
    header line does: of several lines with one key only the last is
    kept.  A key that contains a space is never present. *)
Theorem gdv_header_last_line_wins (text : str) (metadata : dict str) (key : str) :
  GDV.parse_commit_data (PStr text) = Ok metadata ->
  dict_get key metadata
  = if has_space key then None else header_value key (splitlines text).
Proof.
  intros Hparse. cbn [GDV.parse_commit_data] in Hparse.
  destruct (has_space key) eqn:Hkey.
  - now rewrite (gdv_parse_lines_spaced_key key _ Hkey _ _ Hparse).
  - rewrite (gdv_parse_lines_value key _ Hkey _ _ Hparse).
    now destruct (header_value key (splitlines text)).
Qed.

Lemma gdv_header_last_line_wins_witness :
  dict_get (lit "parent")
           [(lit "tree", lit "aaa111"); (lit "parent", lit "ccc333")]
  = Some (lit "ccc333").
Proof.
  rewrite (gdv_header_last_line_wins
             (lit "tree aaa111" ++ nl ++ lit "parent bbb222" ++ nl ++ lit "parent ccc333")
             [(lit "tree", lit "aaa111"); (lit "parent", lit "ccc333")]
             (lit "parent")).
  - vm_compute. reflexivity.
  - vm_compute. reflexivity.
Defined.

(** X2.  [parse_commit_data] succeeds exactly when every header line
    contains a space; otherwise it raises [ValueError], the failed
    unpacking of [line.split(" ", 1)]. *)
Theorem gdv_parse_needs_a_space_in_every_header_line (text : str) :
  match GDV.parse_commit_data (PStr text) with
  | Ok _ => forallb has_space (take_until_blank (splitlines text)) = true
  | Raise e => e = ValueError
               /\ forallb has_space (take_until_blank (splitlines text)) = false
  end.
Proof.
  cbn [GDV.parse_commit_data]. generalize (@nil (str * str)) as metadata.
  induction (splitlines text) as [|line rest IH]; intros metadata;
    cbn [GDV.parse_lines take_until_blank]; [reflexivity|].
  destruct (null line); [reflexivity|]. cbn [forallb].
  destruct (split_once_shape (N.eqb 32) line)
    as [[Hs Hno]|[key [c [value [Hs [Hline [Hc Hkey]]]]]]]; rewrite Hs.
  - split; [reflexivity|].
    apply has_space_false in Hno. now rewrite Hno.
  - assert (Hsp : has_space line = true).
    { subst line. unfold has_space. rewrite existsb_app. cbn [existsb].
      rewrite Hc. now rewrite orb_true_r. }
    rewrite Hsp. cbn [andb]. apply IH.
Qed.

Lemma take_until_blank_idem (lines : list str) :
  take_until_blank (take_until_blank lines) = take_until_blank lines.
Proof.
  induction lines as [|l lines IH]; [reflexivity|]. cbn [take_until_blank].
  destruct (null l) eqn:Hl; [reflexivity|]. cbn [take_until_blank]. now rewrite Hl, IH.
Qed.

Lemma gdv_parse_lines_header (lines : list str) :
  forall metadata,
    GDV.parse_lines lines metadata = GDV.parse_lines (take_until_blank lines) metadata.
Proof.
  induction lines as [|line rest IH]; intros metadata; [reflexivity|].
  cbn [GDV.parse_lines take_until_blank].
  destruct (null line) eqn:Hnull; [reflexivity|].
  cbn [GDV.parse_lines]. rewrite Hnull.
  destruct (split_once (N.eqb 32) line) as [|key [|value [|? ?]]]; try reflexivity.
  apply IH.
Qed.

Lemma vis_parse_lines_header (E : Env) (lines : list str) :
  forall t ps a,
    VIS.parse_lines E lines t ps a = VIS.parse_lines E (take_until_blank lines) t ps a.
Proof.
  induction lines as [|line rest IH]; intros t ps a; [reflexivity|].
  cbn [take_until_blank]. destruct (null line) eqn:Hnull.
  - destruct line; [reflexivity | discriminate].
  - cbn [VIS.parse_lines]. rewrite Hnull.
    destruct (startswith line (lit "tree")).
    { destruct (nth_error (split_ws line) 1); cbn [rbind of_option]; [apply IH | reflexivity]. }
    destruct (startswith line (lit "parent")).
    { destruct (nth_error (split_ws line) 1); cbn [rbind of_option]; [apply IH | reflexivity]. }
    destruct (startswith line (lit "author")).
    { destruct (nth_from_end2 (split_ws line)) as [w|]; cbn [rbind of_option];
        [|reflexivity].
      destruct (py_int E w); cbn [rbind of_option]; [apply IH | reflexivity]. }
    apply IH.
Qed.

(** X3.  The parsers of the DOT script and of the PlantUML script stop at
    the first blank line: two commit texts with the same lines before it
    give the same result, whatever their message bodies. *)
Theorem parsers_read_the_header_only :
  (forall text1 text2,
      take_until_blank (splitlines text1) = take_until_blank (splitlines text2) ->
      GDV.parse_commit_data (PStr text1) = GDV.parse_commit_data (PStr text2))
  /\ (forall E text1 text2,
         take_until_blank (split_on 10 text1) = take_until_blank (split_on 10 text2) ->
         VIS.parse_commit_object E text1 = VIS.parse_commit_object E text2).
Proof.
  split.
  - intros text1 text2 Hsame. cbn [GDV.parse_commit_data].
    now rewrite (gdv_parse_lines_header (splitlines text1)), Hsame,
      <- gdv_parse_lines_header.
  - intros E text1 text2 Hsame. unfold VIS.parse_commit_object.
    now rewrite (vis_parse_lines_header E (split_on 10 text1)), Hsame,
      <- vis_parse_lines_header.
Qed.

Lemma parsers_read_the_header_only_witness :
  VIS.parse_commit_object (Sample.env [])
    (lit "tree aaa111" ++ nl ++ lit "parent bbb222" ++ nl ++ nl ++ lit "first message")
  = VIS.parse_commit_object (Sample.env [])
      (lit "tree aaa111" ++ nl ++ lit "parent bbb222" ++ nl ++ nl
       ++ lit "parent ccc333" ++ nl ++ lit "second message").
Proof.
  apply (proj2 parsers_read_the_header_only). vm_compute. reflexivity.
Defined.

(** ** The scan and the main program of git_dependency_visualizer.py *)

Lemma find_commits_loop_abort (E : Env) (repo target h : str) (post : list str) (e : exn)
      (pre : list str) :
  forall commits,
    forallb (not_fatal E repo target) pre = true ->
    examine E repo target h = Fatal e ->
    GDV.find_commits_loop E repo target (pre ++ h :: post) commits
    = (Raise e, flat_map (step_events E repo target) pre ++ [EvOpen (GDV.object_path repo h)]).
Proof.
  induction pre as [|x pre IH]; intros commits Hclean Hfatal;
    cbn [app GDV.find_commits_loop flat_map].
  - rewrite find_commits_step_spec, Hfatal. reflexivity.
  - cbn [forallb] in Hclean. apply andb_true_iff in Hclean. destruct Hclean as [Hx Hpre].
    rewrite find_commits_step_spec. unfold not_fatal in Hx.
    destruct (examine E repo target x); try discriminate;
      cbn [bind]; rewrite (IH _ Hpre Hfatal); now rewrite app_assoc.
Qed.

Lemma opened_app (l1 l2 : list event) : opened (l1 ++ l2) = opened l1 ++ opened l2.
Proof. apply flat_map_app. Qed.

Lemma gdv_read_raises (E : Env) (repo h : str) (e : exn) :
  outcome (GDV.read_git_object E repo h) = Raise e ->
  In e [FileNotFoundError; IsADirectoryError; ZlibError; ValueError; UnicodeDecodeError].
Proof.
  unfold GDV.read_git_object, open_rb, decompress.
  destruct (fs E (GDV.object_path repo h)) as [[content|]|]; simpl;
    try (intros [= <-]; tauto).
  destruct (zlib_decompress E content) as [data|]; simpl; [|intros [= <-]; tauto].
  destruct (split_once (Byte.eqb x00) data) as [|header [|payload [|? ?]]]; simpl;
    try (intros [= <-]; tauto).
  destruct (decode header) as [header'|]; simpl; [discriminate | intros [= <-]; tauto].
Qed.

Lemma fatal_kinds (E : Env) (repo target h : str) (e : exn) :
  examine E repo target h = Fatal e ->
  In e [FileNotFoundError; IsADirectoryError; ZlibError; ValueError; UnicodeDecodeError].
Proof.
  unfold examine.
  destruct (outcome (GDV.read_git_object E repo h)) as [[header data]|e'] eqn:Hread.
  - destruct (startswith header (lit "commit")); [|discriminate].
    destruct (decode data) as [text|]; [|discriminate].
    destruct (GDV.parse_commit_data (PStr text)) as [metadata|e'] eqn:Hparse.
    + destruct (contains (tree_field text) target); discriminate.
    + apply gdv_parse_lines_raises in Hparse. subst e'. intros [= <-]. simpl. tauto.
  - intros [= <-]. exact (gdv_read_raises E repo h e' Hread).
Qed.

(** X4.  The scan by tree field stops at the first object it cannot read
    (no file, a directory, not a zlib stream, no null byte, a header that
    is not UTF-8) or whose commit header has a line without a space: the
    exception leaves [find_commits], no list of commits is returned, and
    no object after that one is opened. *)
Theorem find_commits_stops_at_first_failure (E : Env) (repo target : str)
        (pre : list str) (h : str) (post : list str) (e : exn) :
  listed_objects E repo = pre ++ h :: post ->
  forallb (not_fatal E repo target) pre = true ->
  examine E repo target h = Fatal e ->
  outcome (GDV.find_commits E repo target) = Raise e
  /\ opened (events (GDV.find_commits E repo target))
     = map (GDV.object_path repo) (pre ++ [h])
  /\ In e [FileNotFoundError; IsADirectoryError; ZlibError; ValueError; UnicodeDecodeError].
Proof.
  intros Hlisted Hclean Hfatal. unfold GDV.find_commits.
  rewrite list_git_objects_spec. cbn [bind]. rewrite Hlisted.
  rewrite (find_commits_loop_abort E repo target h post e pre [] Hclean Hfatal).
  cbn [outcome events fst snd app]. split; [reflexivity|]. split.
  - change (EvWalk ?d :: ?l) with ([EvWalk d] ++ l).
    rewrite !opened_app, opened_step_events, map_app. reflexivity.
  - exact (fatal_kinds E repo target h e Hfatal).
Qed.

Lemma find_commits_stops_at_first_failure_witness :
  outcome (GDV.find_commits (Sample.env [Sample.tree_a; Sample.broken; Sample.tree_b])
                            Sample.repo (lit "bbb"))
  = Raise ZlibError.
Proof.
  apply (find_commits_stops_at_first_failure
           (Sample.env [Sample.tree_a; Sample.broken; Sample.tree_b]) Sample.repo (lit "bbb")
           [lit Sample.tree_a_hash] (lit Sample.broken_hash) [lit Sample.tree_b_hash]
           ZlibError); vm_compute; reflexivity.
Defined.

Lemma contains_empty (s : str) : contains s [] = true.
Proof. destruct s; reflexivity. Qed.

(** X5.  With the empty string as target the scan by tree field selects
    every commit object whose payload is UTF-8, whatever its tree field:
    when it returns, its result is the list of these objects. *)
Theorem empty_target_selects_every_commit (E : Env) (repo : str) (commits : list str) :
  outcome (GDV.find_commits E repo []) = Ok commits ->
  commits = filter (is_text_commit E repo) (listed_objects E repo).
Proof.
  intros Hrun.
  pose proof (find_commits_ok E repo [] commits Hrun) as Hclean.
  rewrite (find_commits_clean E repo [] Hclean) in Hrun.
  injection Hrun as <-. apply filter_ext_in. intros h Hin.
  rewrite forallb_forall in Hclean.
  rewrite (selected_here_selects E repo [] h (Hclean h Hin)).
  unfold selects, is_text_commit.
  destruct (outcome (GDV.read_git_object E repo h)) as [[header data]|e]; [|reflexivity].
  destruct (decode data) as [text|]; [|reflexivity].
  now rewrite contains_empty.
Qed.

Lemma empty_target_selects_every_commit_witness :
  [lit Sample.tree_a_hash; lit Sample.root_hash]
  = filter (is_text_commit (Sample.env [Sample.tree_a; Sample.blob; Sample.latin; Sample.root])
                           Sample.repo)
           (listed_objects (Sample.env [Sample.tree_a; Sample.blob; Sample.latin; Sample.root])
                           Sample.repo).
Proof.
  apply (empty_target_selects_every_commit
           (Sample.env [Sample.tree_a; Sample.blob; Sample.latin; Sample.root]) Sample.repo).
  vm_compute. reflexivity.
Defined.

Lemma splitlines_from_nil (brk : N -> bool) (s : list N) :
  forall cur, splitlines_from brk s cur = [] -> s = [] /\ cur = [].
Proof.
  induction s as [|c s IH]; intros cur; cbn [splitlines_from].
  - destruct cur; [auto | discriminate].
  - destruct (brk c).
    + destruct s as [|d s']; [discriminate|].
      destruct ((c =? 13) && (d =? 10)); discriminate.
    + intros Hnil. apply IH in Hnil. destruct Hnil as [_ Hcur]. discriminate.
Qed.

Lemma writes_app (l1 l2 : list event) : writes (l1 ++ l2) = writes l1 ++ writes l2.
Proof. apply flat_map_app. Qed.

Lemma find_commits_loop_writes (E : Env) (repo target : str) (objects : list str) :
  forall commits,
    writes (events (GDV.find_commits_loop E repo target objects commits)) = [].
Proof.
  induction objects as [|h objects IH]; intros commits;
    cbn [GDV.find_commits_loop]; [reflexivity|].
  rewrite find_commits_step_spec, events_bind, writes_app. unfold step_events.
  destruct (examine E repo target h); cbn [outcome events fst snd is_undecodable];
    rewrite ?IH; reflexivity.
Qed.

(** A selected commit has a payload that is not empty when the target
    is not. *)
Lemma selected_payload_not_empty (E : Env) (repo target h : str) :
  target <> [] ->
  selected_here E repo target h = true ->
  exists header data,
    GDV.read_git_object E repo h = (Ok (header, data), [EvOpen (GDV.object_path repo h)])
    /\ data <> [].
Proof.
  intros Htarget. unfold selected_here, examine.
  pose proof (gdv_read_events E repo h) as Hevents.
  destruct (GDV.read_git_object E repo h) as [[[header data]|e] l];
    cbn [outcome events fst snd] in *; [|discriminate].
  subst l. destruct (startswith header (lit "commit")); [|discriminate].
  destruct (decode data) as [text|] eqn:Hdecode; [|discriminate].
  destruct (GDV.parse_commit_data (PStr text)); [|discriminate].
  destruct (contains (tree_field text) target) eqn:Hcontains; [|discriminate].
  intros _. exists header, data. split; [reflexivity|].
  intros ->. cbv in Hdecode. injection Hdecode as <-.
  cbv in Hcontains. destruct target; [now apply Htarget | discriminate].
Qed.

(** X6.  For every target that is not the empty string the main program
    of the DOT script never writes its output file and never ends
    normally.  It exits with status 1 when the path is not a repository
    and with status 0 when nothing is selected; an exception of the scan
    propagates; and as soon as one commit is selected the graph builder,
    which hands the payload to the parser as [bytes], stops the run with
    [TypeError]. *)
Theorem gdv_main_never_writes (E : Env) (H : Host) (repo target output_file : str) :
  target <> [] ->
  writes (events (GDV.main E H repo target output_file)) = []
  /\ outcome (GDV.main E H repo target output_file)
     = match fs E (path_join repo [lit ".git"]) with
       | Some Dir =>
           match outcome (GDV.find_commits E repo target) with
           | Raise e => Raise e
           | Ok [] => Raise (SystemExit 0)
           | Ok (_ :: _) => Raise TypeError
           end
       | _ => Raise (SystemExit 1)
       end.
Proof.
  intros Htarget. unfold GDV.main, GDV.verify_repo_path, path_isdir.
  assert (Hnodir : forall k : unit -> M unit,
             bind (bind (bind (emit (EvIsDir (path_join repo [lit ".git"])))
                              (fun _ => ret false))
                        (fun isdir : bool =>
                           if isdir then ret tt
                           else bind (print (MsgNotARepository repo))
                                     (fun _ => raise (SystemExit 1)))) k
             = (Raise (SystemExit 1),
                [EvIsDir (path_join repo [lit ".git"]); EvPrint (MsgNotARepository repo)]))
    by reflexivity.
  destruct (fs E (path_join repo [lit ".git"])) as [[content|]|];
    try (rewrite Hnodir; split; reflexivity).
  cbn [emit ret bind app].
  pose proof (find_commits_loop_writes E repo target (listed_objects E repo) []) as Hwrites.
  assert (Hsel : forall h rest, outcome (GDV.find_commits E repo target) = Ok (h :: rest) ->
                                selected_here E repo target h = true).
  { intros h rest Hrun.
    pose proof (find_commits_ok E repo target _ Hrun) as Hclean.
    rewrite (find_commits_clean E repo target Hclean) in Hrun.
    injection Hrun as Hrun.
    assert (Hin : In h (filter (selected_here E repo target) (listed_objects E repo)))
      by (rewrite Hrun; now left).
    apply filter_In in Hin. tauto. }
  unfold GDV.find_commits in *. rewrite list_git_objects_spec in *. cbn [bind] in *.
  destruct (GDV.find_commits_loop E repo target (listed_objects E repo) []) as [r l].
  cbn [outcome events fst snd app] in *.
  destruct r as [[|h rest]|e]; cbn [null bind print emit raise app outcome events fst snd].
  - unfold writes in *. cbn [flat_map app]. rewrite ?flat_map_app, ?Hwrites.
      split; reflexivity.
  - destruct (selected_payload_not_empty E repo target h Htarget (Hsel h rest eq_refl))
      as [header [data [Hread Hdata]]].
    unfold GDV.build_dependency_graph. cbn [GDV.build_dependency_graph_loop].
    rewrite Hread. cbn [bind]. unfold GDV.parse_commit_data.
    destruct (bytes_splitlines data) as [|line lines] eqn:Hlines.
    + apply splitlines_from_nil in Hlines. destruct Hlines as [Hmap _].
      destruct data; [now elim Hdata | discriminate].
    + cbn [lift bind app outcome events fst snd].
      unfold writes in *. cbn [flat_map app]. rewrite ?flat_map_app, ?Hwrites.
      split; reflexivity.
  - unfold writes in *. cbn [flat_map app]. rewrite ?flat_map_app, ?Hwrites.
      split; reflexivity.
Qed.

Lemma gdv_main_never_writes_witness :
  outcome (GDV.main Sample.history Sample.host Sample.repo (lit "4b825") (lit "out.dot"))
  = Raise TypeError.
Proof.
  rewrite (proj2 (gdv_main_never_writes Sample.history Sample.host Sample.repo
                                        (lit "4b825") (lit "out.dot") ltac:(discriminate))).
  vm_compute. reflexivity.
Defined.

(** ** From the listing of the store back to the files *)

Lemma split_on_nonempty (sep : N) (s : str) : exists w ws, split_on sep s = w :: ws.
Proof.
  induction s as [|c s [w [ws IH]]]; cbn [split_on]; [now eexists; eexists|].
  destruct (c =? sep); [now eexists; eexists|]. rewrite IH. now eexists; eexists.
Qed.

(** Splitting at a separator splits the parts on either side of it. *)
Lemma split_on_app_sep (sep : N) (a d : str) :
  split_on sep (a ++ sep :: d) = split_on sep a ++ split_on sep d.
Proof.
  induction a as [|c a IH]; cbn [app split_on].
  - now rewrite N.eqb_refl.
  - destruct (c =? sep); [now rewrite IH|].
    rewrite IH. destruct (split_on_nonempty sep a) as [w [ws ->]]. reflexivity.
Qed.

Lemma split_on_no_sep (sep : N) (d : str) : ~ In sep d -> split_on sep d = [d].
Proof.
  induction d as [|c d IH]; intros Hno; cbn [split_on]; [reflexivity|].
  destruct (N.eqb_spec c sep) as [->|_]; [elim Hno; now left|].
  rewrite IH; [reflexivity|]. intros Hin. apply Hno. now right.
Qed.

Lemma basename_after_slash (a d : str) : ~ In 47 d -> basename (a ++ 47 :: d) = d.
Proof.
  intros Hno. unfold basename.
  rewrite split_on_app_sep, (split_on_no_sep 47 d Hno). apply last_last.
Qed.

(** The object directory of a repository never ends with a separator. *)
Lemma objects_dir_shape (repo : str) :
  exists prefix, path_join repo [lit ".git"; lit "objects"] = prefix ++ lit "objects".
Proof.
  unfold path_join. cbn [fold_left]. unfold path_join2 at 1.
  change (startswith (lit "objects") (lit "/")) with false. cbv iota.
  destruct (null _ || endswith _ _); [eexists; reflexivity|].
  exists (path_join2 repo (lit ".git") ++ lit "/"). now rewrite <- app_assoc.
Qed.

Lemma path_join_under_objects (repo d : str) :
  d <> [] -> ~ In 47 d ->
  path_join repo [lit ".git"; lit "objects"; d]
  = path_join repo [lit ".git"; lit "objects"] ++ 47 :: d.
Proof.
  intros Hd Hno.
  change (path_join repo [lit ".git"; lit "objects"; d])
    with (path_join2 (path_join repo [lit ".git"; lit "objects"]) d).
  destruct (objects_dir_shape repo) as [prefix ->].
  unfold path_join2.
  assert (Hstart : startswith d (lit "/") = false).
  { destruct d as [|c d]; [reflexivity|]. unfold startswith. cbn [lit prefixb].
    change (lit "/") with [47]. cbn [prefixb].
    destruct (N.eqb_spec 47 c) as [<-|_]; [elim Hno; now left | reflexivity]. }
  rewrite Hstart.
  assert (Hend : null (prefix ++ lit "objects") || endswith (prefix ++ lit "objects") (lit "/")
                 = false).
  { unfold endswith. rewrite rev_app_distr.
    destruct prefix; reflexivity. }
  rewrite Hend. reflexivity.
Qed.

(** X7.  A file of 38 characters in a directory of two characters right
    under the object directory is listed under a name of 40 characters,
    by both scans, and the readers derive from that name the path of
    that very file. *)
Theorem listed_name_leads_back_to_its_file (E : Env) (repo d : str)
        (files : list str) (file : str) :
  List.length d = 2%nat -> ~ In 47 d ->
  In (path_join repo [lit ".git"; lit "objects"; d], files)
     (os_walk E (path_join repo [lit ".git"; lit "objects"])) ->
  In file files -> List.length file = 38%nat ->
  In (d ++ file) (listed_objects E repo)
  /\ In (d ++ file) (store_objects E repo)
  /\ List.length (d ++ file) = 40%nat
  /\ GDV.object_path repo (d ++ file)
     = path_join (path_join repo [lit ".git"; lit "objects"; d]) [file]
  /\ VIS.object_path repo (d ++ file) = GDV.object_path repo (d ++ file).
Proof.
  intros Hlen Hno Hwalk Hfile Hflen.
  assert (Hd : d <> []) by (intros ->; discriminate).
  assert (Hbase : basename (path_join repo [lit ".git"; lit "objects"; d]) = d)
    by (rewrite (path_join_under_objects repo d Hd Hno); now apply basename_after_slash).
  assert (Hfirst : firstn 2 (d ++ file) = d /\ skipn 2 (d ++ file) = file).
  { destruct d as [|a [|b [|c d]]]; try discriminate. split; reflexivity. }
  split; [|split; [|split; [|split]]].
  - unfold listed_objects. apply in_flat_map. eexists. split; [exact Hwalk|].
    cbv beta iota. rewrite Hbase. apply in_map. apply filter_In. split; [assumption|].
    now rewrite Hflen.
  - unfold store_objects, VIS.walked_objects. apply in_flat_map.
    eexists. split; [exact Hwalk|]. cbv beta iota. rewrite Hbase. now apply in_map.
  - rewrite length_app, Hlen, Hflen. reflexivity.
  - unfold GDV.object_path. destruct Hfirst as [-> ->]. reflexivity.
  - reflexivity.
Qed.

Lemma listed_name_leads_back_to_its_file_witness :
  GDV.object_path Sample.repo (lit Sample.root_hash) = Sample.entry_path Sample.root.
Proof.
  destruct (listed_name_leads_back_to_its_file
              (Sample.env [Sample.root]) Sample.repo (lit "a1")
              [lit "ad3f99ec8c125994992da0e89a02163f9030fe"]
              (lit "ad3f99ec8c125994992da0e89a02163f9030fe"))
    as [_ [_ [_ [Hpath _]]]].
  - reflexivity.
  - vm_compute. intros [H|[H|[]]]; discriminate.
  - vm_compute. right. left. reflexivity.
  - now left.
  - reflexivity.
  - change (lit "a1" ++ lit "ad3f99ec8c125994992da0e89a02163f9030fe")
      with (lit Sample.root_hash) in Hpath.
    rewrite Hpath. vm_compute. reflexivity.
Defined.

(** ** The two renderers *)

Lemma one_line_app (a b : str) : one_line (a ++ b) = one_line a && one_line b.
Proof. unfold one_line. rewrite existsb_app. now destruct (existsb _ a). Qed.

Lemma one_line_no_sep (s : str) : one_line s = true -> ~ In 10 s.
Proof.
  unfold one_line. intros Hs Hin.
  assert (Hex : existsb (N.eqb 10) s = true)
    by (apply existsb_exists; exists 10; split; [assumption | reflexivity]).
  now rewrite Hex in Hs.
Qed.

(** Joining lines with line feeds and splitting at line feeds gives the
    lines back. *)
Lemma split_on_join (parts : list str) :
  parts <> [] -> forallb one_line parts = true ->
  split_on 10 (join nl parts) = parts.
Proof.
  induction parts as [|p parts IH]; intros Hne Hall; [now elim Hne|].
  cbn [forallb] in Hall. apply andb_true_iff in Hall. destruct Hall as [Hp Hparts].
  destruct parts as [|q parts].
  - cbn [join]. now apply split_on_no_sep, one_line_no_sep.
  - change (join nl (p :: q :: parts)) with (p ++ 10 :: join nl (q :: parts)).
    rewrite split_on_app_sep, (split_on_no_sep 10 p (one_line_no_sep p Hp)).
    rewrite IH by (discriminate || assumption). reflexivity.
Qed.

Lemma one_line_digits (d : Decimal.uint) :
  one_line (lit (NilEmpty.string_of_uint d)) = true.
Proof.
  induction d; cbn [NilEmpty.string_of_uint]; [reflexivity| ..];
    match goal with
    | |- one_line (lit (String ?c ?s)) = true =>
        change (lit (String c s)) with (lit (String c EmptyString) ++ lit s);
        rewrite one_line_app, IHd; reflexivity
    end.
Qed.

Lemma one_line_str_of_N (n : N) : one_line (str_of_N n) = true.
Proof.
  unfold str_of_N, NilZero.string_of_uint.
  destruct (N.to_uint n); try reflexivity; apply one_line_digits.
Qed.

Lemma dot_line_one_line (s : GDV.dot_stmt) :
  match s with
  | GDV.DotNode c => one_line c
  | GDV.DotEdge c p => one_line c && one_line p
  end = true ->
  one_line (GDV.dot_line s) = true.
Proof.
  destruct s as [c|c p]; cbn [GDV.dot_line]; intros Hs; rewrite !one_line_app.
  - rewrite Hs. reflexivity.
  - apply andb_true_iff in Hs. destruct Hs as [-> ->]. reflexivity.
Qed.

Lemma dot_stmts_one_line (g : GDV.graph) :
  graph_one_line g = true ->
  forallb one_line (map GDV.dot_line (GDV.dot_stmts g)) = true.
Proof.
  induction g as [|[c ps] g IH]; intros Hg; [reflexivity|].
  cbn [graph_one_line forallb fst snd] in Hg.
  apply andb_true_iff in Hg. destruct Hg as [Hentry Hg].
  apply andb_true_iff in Hentry. destruct Hentry as [Hc Hps].
  unfold GDV.dot_stmts. cbn [flat_map]. fold (GDV.dot_stmts g).
  rewrite map_app, forallb_app, (IH Hg), andb_true_r.
  cbn [map forallb]. rewrite (dot_line_one_line (GDV.DotNode c) Hc). cbn [andb].
  induction ps as [|p ps IHp]; [reflexivity|].
  cbn [forallb] in Hps. apply andb_true_iff in Hps. destruct Hps as [Hp Hps].
  cbn [map forallb]. rewrite (dot_line_one_line (GDV.DotEdge c p)) by now rewrite Hc, Hp.
  now apply IHp.
Qed.

Lemma uml_line_one_line (e : VIS.uml_edge) :
  one_line (VIS.edge_parent e) = true -> one_line (VIS.edge_commit e) = true ->
  one_line (VIS.uml_line e) = true.
Proof.
  intros Hp Hc. unfold VIS.uml_line.
  rewrite !one_line_app, Hp, Hc, !one_line_str_of_N. reflexivity.
Qed.

Lemma parent_edges_one_line (c : str) (ps : list str) :
  one_line c = true -> forallb one_line ps = true ->
  forall i, forallb one_line (map VIS.uml_line (VIS.parent_edges c ps i)) = true.
Proof.
  intros Hc. induction ps as [|p ps IH]; intros Hps i; [reflexivity|].
  cbn [forallb] in Hps. apply andb_true_iff in Hps. destruct Hps as [Hp Hps].
  cbn [VIS.parent_edges map forallb].
  rewrite uml_line_one_line by assumption. now apply IH.
Qed.

Lemma plantuml_edges_one_line (g : VIS.graph) :
  graph_one_line g = true ->
  forall i, forallb one_line (map VIS.uml_line (VIS.plantuml_edges g i)) = true.
Proof.
  induction g as [|[c ps] g IH]; intros Hg i; [reflexivity|].
  cbn [graph_one_line forallb fst snd] in Hg.
  apply andb_true_iff in Hg. destruct Hg as [Hentry Hg].
  apply andb_true_iff in Hentry. destruct Hentry as [Hc Hps].
  cbn [VIS.plantuml_edges]. destruct (null ps); [now apply IH|].
  rewrite map_app, forallb_app, (parent_edges_one_line c ps Hc Hps). now apply IH.
Qed.

Lemma total_parents_cons (c : str) (ps : list str) (g : dict (list str)) :
  total_parents ((c, ps) :: g) = (List.length ps + total_parents g)%nat.
Proof. reflexivity. Qed.

Lemma dot_stmts_length (g : GDV.graph) :
  List.length (GDV.dot_stmts g) = (List.length g + total_parents g)%nat.
Proof.
  induction g as [|[c ps] g IH]; [reflexivity|].
  rewrite total_parents_cons. unfold GDV.dot_stmts in *. cbn [flat_map].
  rewrite length_app, IH. cbn [List.length]. rewrite length_map. lia.
Qed.

Lemma plantuml_edges_length (g : VIS.graph) (i : N) :
  List.length (VIS.plantuml_edges g i) = total_parents g.
Proof.
  revert i.
  induction g as [|[c ps] g IH]; intros i; [reflexivity|].
  rewrite total_parents_cons. cbn [VIS.plantuml_edges].
  destruct ps as [|p ps]; cbn [null].
  - apply IH.
  - rewrite length_app, parent_edges_length, IH. reflexivity.
Qed.

(** X8.  When no commit or parent name of the graph holds a line feed,
    each rendered text consists of one line per statement: split at the
    line feeds, the DOT text is its two heading lines, the node and edge
    statements in order and the closing brace, and the PlantUML text is
    the edge statements between the two delimiters.  The texts thus have
    3 and 2 lines more than the graph has statements. *)
Theorem rendered_text_has_one_line_per_statement (g : dict (list str)) :
  graph_one_line g = true ->
  split_on 10 (GDV.generate_graphviz g)
  = [lit "digraph G {"; lit "    node [shape=box, fontsize=10];"]
    ++ map GDV.dot_line (GDV.dot_stmts g) ++ [lit "}"]
  /\ List.length (split_on 10 (GDV.generate_graphviz g))
     = (3 + List.length g + total_parents g)%nat
  /\ split_on 10 (VIS.generate_plantuml g)
     = [lit "@startuml"] ++ map VIS.uml_line (VIS.plantuml_edges g 1) ++ [lit "@enduml"]
  /\ List.length (split_on 10 (VIS.generate_plantuml g)) = (2 + total_parents g)%nat.
Proof.
  intros Hg.
  assert (Hdot : split_on 10 (GDV.generate_graphviz g)
                 = [lit "digraph G {"; lit "    node [shape=box, fontsize=10];"]
                   ++ map GDV.dot_line (GDV.dot_stmts g) ++ [lit "}"]).
  { unfold GDV.generate_graphviz. apply split_on_join; [discriminate|].
    cbn [app forallb]. rewrite forallb_app, (dot_stmts_one_line g Hg). reflexivity. }
  assert (Huml : split_on 10 (VIS.generate_plantuml g)
                 = [lit "@startuml"] ++ map VIS.uml_line (VIS.plantuml_edges g 1)
                   ++ [lit "@enduml"]).
  { unfold VIS.generate_plantuml. apply split_on_join; [discriminate|].
    cbn [app forallb]. rewrite forallb_app, (plantuml_edges_one_line g Hg). reflexivity. }
  split; [exact Hdot|]. split; [|split; [exact Huml|]].
  - rewrite Hdot. cbn [app List.length].
    rewrite length_app, length_map, dot_stmts_length. cbn [List.length]. lia.
  - rewrite Huml. cbn [app List.length].
    rewrite length_app, length_map, plantuml_edges_length. cbn [List.length]. lia.
Qed.

Lemma rendered_text_has_one_line_per_statement_witness :
  List.length (split_on 10 (GDV.generate_graphviz
                              [(lit "C3", [lit "C1"; lit "C2"]); (lit "C1", [])]))
  = 7%nat.
Proof.
  apply (proj1 (proj2 (rendered_text_has_one_line_per_statement
                         [(lit "C3", [lit "C1"; lit "C2"]); (lit "C1", [])] eq_refl))).
Defined.








(** ** The scan by author date under a change of cutoff or of walk order *)

Lemma filter_flat_map {A B} (p : B -> bool) (f : A -> list B) (l : list A) :
  filter p (flat_map f l) = flat_map (fun x => filter p (f x)) l.
Proof.
  induction l as [|x l IH]; [reflexivity|]. cbn [flat_map].
  now rewrite filter_app, IH.
Qed.

Lemma encountered_earlier (E : Env) (repo : str) (d1 d2 : Z) :
  (d1 <= d2)%Z ->
  encountered E repo d1 = filter (at_or_before d1) (encountered E repo d2).
Proof.
  intros Hle. unfold encountered. rewrite filter_flat_map.
  apply flat_map_ext. intros h. unfold selection.
  destruct (author_timestamp E repo h) as [t|]; [|reflexivity].
  destruct (t <=? d1)%Z eqn:H1, (t <=? d2)%Z eqn:H2;
    unfold at_or_before; cbn [filter snd]; rewrite ?H1; try reflexivity.
  apply Z.leb_le in H1. apply Z.leb_gt in H2. lia.
Qed.

Lemma filter_beyond (d : Z) (y : str * Z) (l : list (str * Z)) :
  at_or_before d y = false -> Forall (le_time y) l -> filter (at_or_before d) l = [].
Proof.
  unfold at_or_before, le_time. intros Hy Hall. apply Z.leb_gt in Hy.
  induction Hall as [|z l Hz Hall IH]; [reflexivity|].
  cbn [filter]. destruct (Z.leb_spec (snd z) d); [lia | exact IH].
Qed.

Lemma insert_by_time_filter (d : Z) (x : str * Z) (l : list (str * Z)) :
  StronglySorted le_time l ->
  filter (at_or_before d) (VIS.insert_by_time x l)
  = if at_or_before d x then VIS.insert_by_time x (filter (at_or_before d) l)
    else filter (at_or_before d) l.
Proof.
  induction 1 as [|y l Hsorted IH Hall]; cbn [VIS.insert_by_time filter].
  - now destruct (at_or_before d x).
  - destruct (Z.leb_spec (snd x) (snd y)) as [Hxy|Hxy]; cbn [filter].
    + destruct (at_or_before d x) eqn:Hx; [|reflexivity].
      destruct (at_or_before d y) eqn:Hy; cbn [VIS.insert_by_time].
      * apply Z.leb_le in Hxy. now rewrite Hxy.
      * now rewrite (filter_beyond d y l Hy Hall).
    + rewrite IH. destruct (at_or_before d y) eqn:Hy.
      * destruct (at_or_before d x); [|reflexivity].
        cbn [VIS.insert_by_time]. apply Z.leb_gt in Hxy. now rewrite Hxy.
      * destruct (at_or_before d x) eqn:Hx; [|reflexivity].
        unfold at_or_before in Hx, Hy. apply Z.leb_le in Hx. apply Z.leb_gt in Hy. lia.
Qed.

(** Sorting and keeping the commits up to a cutoff commute. *)
Lemma sort_by_time_filter (d : Z) (l : list (str * Z)) :
  filter (at_or_before d) (VIS.sort_by_time l)
  = VIS.sort_by_time (filter (at_or_before d) l).
Proof.
  induction l as [|x l IH]; [reflexivity|]. cbn [VIS.sort_by_time filter].
  rewrite (insert_by_time_filter d x _ (sort_by_time_sorted l)), IH.
  now destruct (at_or_before d x).
Qed.

(** A sorted list is its part up to a cutoff followed by the rest. *)
Lemma sorted_prefix (d : Z) (l : list (str * Z)) :
  StronglySorted le_time l ->
  l = filter (at_or_before d) l ++ filter (fun x => negb (at_or_before d x)) l.
Proof.
  induction 1 as [|y l Hsorted IH Hall]; [reflexivity|]. cbn [filter].
  destruct (at_or_before d y) eqn:Hy; cbn [negb app].
  - now rewrite <- IH.
  - rewrite (filter_beyond d y l Hy Hall) in *. cbn [app] in *. now rewrite <- IH.
Qed.

(** X11.  Moving the cutoff of the scan by author date forward only
    appends commits: the result for an earlier cutoff is a prefix of the
    result for a later one. *)
Theorem later_cutoff_appends (E : Env) (repo : str) (d1 d2 : Z) :
  (d1 <= d2)%Z ->
  exists earlier later,
    outcome (VIS.get_all_commits E repo d1) = Ok earlier
    /\ outcome (VIS.get_all_commits E repo d2) = Ok (earlier ++ later).
Proof.
  intros Hle.
  exists (map fst (VIS.sort_by_time (encountered E repo d1))),
         (map fst (filter (fun x => negb (at_or_before d1 x))
                          (VIS.sort_by_time (encountered E repo d2)))).
  split; [apply get_all_commits_outcome|].
  rewrite get_all_commits_outcome, <- map_app. do 2 f_equal.
  rewrite (encountered_earlier E repo d1 d2 Hle), <- sort_by_time_filter.
  apply sorted_prefix, sort_by_time_sorted.
Qed.

Lemma later_cutoff_appends_witness :
  exists later,
    outcome (VIS.get_all_commits Sample.history Sample.repo 250)
    = Ok ([lit Sample.root_hash; lit Sample.feature_hash] ++ later).
Proof.
  destruct (later_cutoff_appends Sample.history Sample.repo 200 250 ltac:(lia))
    as [earlier [later [H1 H2]]].
  exists later. rewrite H2. f_equal. f_equal.
  vm_compute in H1. now injection H1 as <-.
Defined.

Lemma vis_parse_lines_ext (E1 E2 : Env) (lines : list str) :
  (forall s, py_int E1 s = py_int E2 s) ->
  forall t ps a, VIS.parse_lines E1 lines t ps a = VIS.parse_lines E2 lines t ps a.
Proof.
  intros Hint. induction lines as [|line rest IH]; intros t ps a; [reflexivity|].
  cbn [VIS.parse_lines].
  destruct (startswith line (lit "tree")).
  { destruct (nth_error (split_ws line) 1); cbn [rbind of_option]; [apply IH | reflexivity]. }
  destruct (startswith line (lit "parent")).
  { destruct (nth_error (split_ws line) 1); cbn [rbind of_option]; [apply IH | reflexivity]. }
  destruct (startswith line (lit "author")).
  { destruct (nth_from_end2 (split_ws line)) as [w|]; cbn [rbind of_option];
      [|reflexivity].
    rewrite Hint. destruct (py_int E2 w); cbn [rbind of_option]; [apply IH | reflexivity]. }
  destruct (null line); [reflexivity | apply IH].
Qed.

Lemma author_timestamp_ext (E1 E2 : Env) (repo h : str) :
  same_store E1 E2 -> author_timestamp E1 repo h = author_timestamp E2 repo h.
Proof.
  intros [Hfs [Hzlib Hint]]. unfold author_timestamp. rewrite Hfs.
  destruct (fs E2 (VIS.object_path repo h)) as [[content|]|]; try reflexivity.
  rewrite Hzlib. destruct (zlib_decompress E2 content) as [data|]; [|reflexivity].
  destruct (bstartswith data (blit "commit")); [|reflexivity].
  destruct (decode data) as [text|]; [|reflexivity].
  unfold VIS.parse_commit_object. now rewrite (vis_parse_lines_ext E1 E2 _ Hint).
Qed.

Lemma sorted_perm_times (l1 l2 : list (str * Z)) :
  StronglySorted le_time l1 -> StronglySorted le_time l2 -> Permutation l1 l2 ->
  map snd l1 = map snd l2.
Proof.
  intros Hs1. revert l2. induction Hs1 as [|x l1 Hs1 IH Hall1]; intros l2 Hs2 Hperm.
  - apply Permutation_nil in Hperm. now subst.
  - destruct Hs2 as [|y l2 Hs2 Hall2];
      [apply Permutation_sym, Permutation_nil in Hperm; discriminate|].
    assert (Hxy : snd x = snd y).
    { assert (Hy : In y (x :: l1))
        by (apply (Permutation_in _ (Permutation_sym Hperm)); now left).
      assert (Hx : In x (y :: l2)) by (apply (Permutation_in _ Hperm); now left).
      rewrite Forall_forall in Hall1, Hall2. unfold le_time in *.
      destruct Hy as [->|Hy]; [reflexivity|]. destruct Hx as [->|Hx]; [reflexivity|].
      pose proof (Hall1 _ Hy). pose proof (Hall2 _ Hx). lia. }
    cbn [map]. f_equal; [exact Hxy|].
    (* the tails are sorted lists with the same timestamps as multisets *)
    assert (Hkeys : Permutation (map snd l1) (map snd l2)).
    { apply (Permutation_map snd) in Hperm. cbn [map] in Hperm.
      rewrite Hxy in Hperm. now apply Permutation_cons_inv in Hperm. }
    clear IH Hperm Hall1 Hall2 Hxy.
    assert (Hz1 : StronglySorted Z.le (map snd l1)).
    { clear Hkeys. induction Hs1 as [|a l Hs IHs Ha]; constructor; [exact IHs|].
      apply Forall_map. exact Ha. }
    assert (Hz2 : StronglySorted Z.le (map snd l2)).
    { clear Hkeys. induction Hs2 as [|a l Hs IHs Ha]; constructor; [exact IHs|].
      apply Forall_map. exact Ha. }
    revert Hz1 Hz2 Hkeys. generalize (map snd l1) as k1, (map snd l2) as k2.
    clear. intros k1 k2 Hz1. revert k2.
    induction Hz1 as [|a k1 Hz1 IH Ha]; intros k2 Hz2 Hperm.
    + apply Permutation_nil in Hperm. now subst.
    + destruct Hz2 as [|b k2 Hz2 Hb];
        [apply Permutation_sym, Permutation_nil in Hperm; discriminate|].
      assert (Hab : a = b).
      { assert (Hbin : In b (a :: k1))
          by (apply (Permutation_in _ (Permutation_sym Hperm)); now left).
        assert (Hain : In a (b :: k2)) by (apply (Permutation_in _ Hperm); now left).
        rewrite Forall_forall in Ha, Hb.
        destruct Hbin as [->|Hbin]; [reflexivity|].
        destruct Hain as [->|Hain]; [reflexivity|].
        pose proof (Ha _ Hbin). pose proof (Hb _ Hain). lia. }
      subst b. f_equal. apply IH; [exact Hz2|].
      now apply Permutation_cons_inv in Hperm.
Qed.

Lemma perm_same_times_eq (l1 l2 : list (str * Z)) :
  Permutation l1 l2 -> map snd l1 = map snd l2 -> NoDup (map snd l1) -> l1 = l2.
Proof.
  revert l2. induction l1 as [|x l1 IH]; intros l2 Hperm Htimes Hnd.
  - apply Permutation_nil in Hperm. now subst.
  - destruct l2 as [|y l2]; [discriminate|].
    cbn [map] in Htimes, Hnd. injection Htimes as Hxy Htimes.
    inversion Hnd as [|? ? Hfresh Hnd']; subst.
    assert (Heq : x = y).
    { assert (Hy : In y (x :: l1))
        by (apply (Permutation_in _ (Permutation_sym Hperm)); now left).
      destruct Hy as [->|Hy]; [reflexivity|].
      elim Hfresh. rewrite Hxy. now apply in_map. }
    subst y. f_equal. apply IH; [|assumption|assumption].
    now apply Permutation_cons_inv in Hperm.
Qed.

(** X12.  The result of the scan by author date depends on the order of
    the directory walk only between commits of equal timestamp: on two
    stores with the same files whose walks yield the same objects in
    different orders, the results hold the same commits with the same
    sequence of timestamps, and are equal when no two selected commits
    share a timestamp. *)
Theorem walk_order_matters_for_ties_only (E1 E2 : Env) (repo : str) (date_before : Z) :
  same_store E1 E2 ->
  Permutation (store_objects E1 repo) (store_objects E2 repo) ->
  let s1 := VIS.sort_by_time (encountered E1 repo date_before) in
  let s2 := VIS.sort_by_time (encountered E2 repo date_before) in
  outcome (VIS.get_all_commits E1 repo date_before) = Ok (map fst s1)
  /\ outcome (VIS.get_all_commits E2 repo date_before) = Ok (map fst s2)
  /\ Permutation s1 s2
  /\ map snd s1 = map snd s2
  /\ (NoDup (map snd s1) -> map fst s1 = map fst s2).
Proof.
  intros Hsame Hperm s1 s2.
  assert (Hs : Permutation s1 s2).
  { unfold s1, s2. rewrite !sort_by_time_perm. unfold encountered.
    rewrite (flat_map_ext (selection E1 repo date_before) (selection E2 repo date_before)).
    - now apply Permutation_flat_map.
    - intros h. unfold selection. now rewrite (author_timestamp_ext E1 E2 repo h Hsame). }
  assert (Ht : map snd s1 = map snd s2)
    by (apply sorted_perm_times; [apply sort_by_time_sorted | apply sort_by_time_sorted | exact Hs]).
  split; [apply get_all_commits_outcome|]. split; [apply get_all_commits_outcome|].
  split; [exact Hs|]. split; [exact Ht|].
  intros Hnd. now rewrite (perm_same_times_eq s1 s2 Hs Ht Hnd).
Qed.

Lemma walk_order_matters_for_ties_only_witness :
  let E1 := Sample.env [Sample.merge; Sample.root; Sample.feature] in
  let E2 := {| fs := fs E1;
               os_walk := Sample.walk_of [Sample.feature; Sample.merge; Sample.root];
               zlib_decompress := zlib_decompress E1;
               py_int := py_int E1 |} in
  outcome (VIS.get_all_commits E1 Sample.repo 300)
  = outcome (VIS.get_all_commits E2 Sample.repo 300).
Proof.
  intros E1 E2.
  destruct (walk_order_matters_for_ties_only E1 E2 Sample.repo 300)
    as [H1 [H2 [_ [_ Heq]]]].
  - repeat split.
  - vm_compute. eapply perm_trans; [apply perm_skip, perm_swap | apply perm_swap].
  - rewrite H1, H2. apply f_equal, Heq. vm_compute.
    repeat constructor; simpl; intuition discriminate.
Defined.

(** ** The main program and the parser of visualizer.py *)







Lemma distinct_heads (l p1 p2 : str) (a b : N) :
  a <> b -> startswith l (a :: p1) = true -> startswith l (b :: p2) = false.
Proof.
  unfold startswith. destruct l as [|c l]; [discriminate|]. cbn [prefixb].
  intros Hab Ha. apply andb_true_iff in Ha. destruct Ha as [Ha _].
  apply N.eqb_eq in Ha. subst c.
  destruct (N.eqb_spec b a) as [->|_]; [now elim Hab | reflexivity].
Qed.

Lemma tree_line_not_author (line : str) :
  startswith line (lit "tree") = true -> startswith line (lit "author") = false.
Proof. apply (distinct_heads line (lit "ree") (lit "uthor") 116 97). discriminate. Qed.

Lemma parent_line_not_author (line : str) :
  startswith line (lit "parent") = true -> startswith line (lit "author") = false.
Proof. apply (distinct_heads line (lit "arent") (lit "uthor") 112 97). discriminate. Qed.

Lemma last_line_with_cons (prefix line : str) (lines : list str) :
  last_line_with prefix (line :: lines)
  = match last_line_with prefix lines with
    | Some l => Some l
    | None => if startswith line prefix then Some line else None
    end.
Proof.
  unfold last_line_with. cbn [filter].
  destruct (startswith line prefix); [|now destruct (rev _)].
  cbn [rev]. now destruct (rev (filter _ lines)).
Qed.

Lemma vis_parse_lines_fields (E : Env) (lines : list str) :
  forall t ps a t' ps' a',
    VIS.parse_lines E lines t ps a = Ok (t', ps', a') ->
    t' = match last_line_with (lit "tree") (take_until_blank lines) with
         | Some l => second_word l
         | None => t
         end
    /\ a' = match last_line_with (lit "author") (take_until_blank lines) with
            | Some l => match nth_from_end2 (split_ws l) with
                        | Some w => py_int E w
                        | None => None
                        end
            | None => a
            end.
Proof.
  induction lines as [|line rest IH]; intros t ps a t' ps' a' Hparse;
    cbn [VIS.parse_lines] in Hparse.
  - injection Hparse as <- <- <-. split; reflexivity.
  - cbn [take_until_blank].
    destruct (startswith line (lit "tree")) eqn:Htree.
    { destruct (nth_error (split_ws line) 1) as [w|] eqn:Hw; cbn [rbind of_option] in Hparse;
        [|discriminate].
      apply IH in Hparse. destruct Hparse as [-> ->].
      rewrite (prefixed_not_null line (lit "tree")) by (reflexivity || assumption).
      rewrite !last_line_with_cons, Htree.
      rewrite (tree_line_not_author line Htree).
      destruct (last_line_with (lit "tree") (take_until_blank rest)),
        (last_line_with (lit "author") (take_until_blank rest));
        split; try reflexivity; unfold second_word; now rewrite Hw. }
    destruct (startswith line (lit "parent")) eqn:Hparent.
    { destruct (nth_error (split_ws line) 1) as [w|]; cbn [rbind of_option] in Hparse;
        [|discriminate].
      apply IH in Hparse. destruct Hparse as [-> ->].
      rewrite (prefixed_not_null line (lit "parent")) by (reflexivity || assumption).
      rewrite !last_line_with_cons, Htree.
      rewrite (parent_line_not_author line Hparent).
      destruct (last_line_with (lit "tree") (take_until_blank rest)),
        (last_line_with (lit "author") (take_until_blank rest));
        split; reflexivity. }
    destruct (startswith line (lit "author")) eqn:Hauthor.
    { destruct (nth_from_end2 (split_ws line)) as [w|] eqn:Hw; cbn [rbind of_option] in Hparse;
        [|discriminate].
      destruct (py_int E w) as [z|] eqn:Hz; cbn [rbind of_option] in Hparse; [|discriminate].
      apply IH in Hparse. destruct Hparse as [-> ->].
      rewrite (prefixed_not_null line (lit "author")) by (reflexivity || assumption).
      rewrite !last_line_with_cons, Htree, Hauthor.
      destruct (last_line_with (lit "tree") (take_until_blank rest)),
        (last_line_with (lit "author") (take_until_blank rest));
        split; try reflexivity; now rewrite Hw, Hz. }
    destruct (null line) eqn:Hnull.
    { injection Hparse as <- <- <-. split; reflexivity. }
    apply IH in Hparse. destruct Hparse as [-> ->].
    rewrite !last_line_with_cons, Htree, Hauthor.
    destruct (last_line_with (lit "tree") (take_until_blank rest)),
      (last_line_with (lit "author") (take_until_blank rest));
      split; reflexivity.
Qed.

Lemma nth_from_end2_app {A} (ws : list A) (x y : A) :
  nth_from_end2 (ws ++ [x; y]) = Some x.
Proof. unfold nth_from_end2. now rewrite rev_app_distr. Qed.

(** X14.  Of a commit text that [parse_commit_object] accepts, the tree
    hash returned is the second word of the last header line that begins
    with [tree], and the author time is the integer read from the last
    word but one of the last header line that begins with [author], both
    absent when there is no such line.  The time is thus found whatever
    the number of words of the author's name. *)
Theorem vis_tree_and_author_time (E : Env) (text : str)
        (tree_hash : option str) (parents : list str) (author_time : option Z) :
  VIS.parse_commit_object E text = Ok (tree_hash, parents, author_time) ->
  tree_hash = tree_of_header (take_until_blank (split_on 10 text))
  /\ author_time = author_time_of_header E (take_until_blank (split_on 10 text))
  /\ (forall line name time zone,
         last_line_with (lit "author") (take_until_blank (split_on 10 text)) = Some line ->
         split_ws line = name ++ [time; zone] ->
         author_time = py_int E time).
Proof.
  intros Hparse. apply vis_parse_lines_fields in Hparse. destruct Hparse as [Ht Ha].
  unfold tree_of_header, author_time_of_header.
  split; [|split].
  - rewrite Ht. now destruct (last_line_with _ _).
  - rewrite Ha. now destruct (last_line_with _ _).
  - intros line name time zone Hlast Hwords.
    now rewrite Ha, Hlast, Hwords, nth_from_end2_app.
Qed.

Lemma vis_tree_and_author_time_witness :
  VIS.parse_commit_object (Sample.env [])
    (lit "tree aaa111" ++ nl ++ lit "author Ann B. Lee <ann@example.com> 100 +0000" ++ nl)
  = Ok (Some (lit "aaa111"), [], Some 100%Z).
Proof.
  destruct (VIS.parse_commit_object (Sample.env [])
              (lit "tree aaa111" ++ nl
               ++ lit "author Ann B. Lee <ann@example.com> 100 +0000" ++ nl))
    as [[[t ps] a]|e] eqn:Hparse; [|vm_compute in Hparse; discriminate].
  destruct (vis_tree_and_author_time _ _ t ps a Hparse) as [-> [-> _]].
  vm_compute in Hparse. injection Hparse as <-.
  vm_compute. reflexivity.
Defined.

(** ** The parser of test.py *)

Lemma other_prefix (line p q : str) :
  startswith line p = true ->
  match p, q with a :: _, b :: _ => negb (a =? b) | _, _ => false end = true ->
  startswith line q = false.
Proof.
  destruct p as [|a p], q as [|b q]; try discriminate.
  intros Hp Hab. apply negb_true_iff, N.eqb_neq in Hab.
  now apply (distinct_heads line p q a b).
Qed.

Lemma from_last_cons {A} (prefix : str) (read : str -> option A) (line : str)
      (lines : list str) (default : option A) :
  from_last prefix read (line :: lines) default
  = from_last prefix read lines (if startswith line prefix then read line else default).
Proof.
  unfold from_last. rewrite last_line_with_cons.
  destruct (last_line_with prefix lines); [reflexivity|].
  now destruct (startswith line prefix).
Qed.

(** Every entry of the dictionary comes from the last line that begins
    with its keyword, wherever that line stands. *)
Lemma test_parse_lines_fields (E : Env) (lines : list str) :
  forall c c',
    TestScript.parse_lines E lines c = Ok c' ->
    TestScript.parent c'
    = from_last (lit "parent") second_word lines (TestScript.parent c)
    /\ TestScript.author c'
       = from_last (lit "author") second_word lines (TestScript.author c)
    /\ TestScript.committer c'
       = from_last (lit "committer") second_word lines (TestScript.committer c)
    /\ TestScript.committer_email c'
       = from_last (lit "committer") third_word lines (TestScript.committer_email c)
    /\ TestScript.committer_timestamp c'
       = from_last (lit "committer") (time_word E) lines (TestScript.committer_timestamp c)
    /\ TestScript.tree c'
       = from_last (lit "tree") second_word lines (TestScript.tree c)
    /\ TestScript.message c'
       = from_last (lit "message") second_word lines (TestScript.message c).
Proof.
  induction lines as [|line rest IH]; intros c c' Hparse;
    cbn [TestScript.parse_lines] in Hparse.
  - injection Hparse as <-. repeat split.
  - cbv zeta in Hparse. rewrite !from_last_cons.
    destruct (startswith line (lit "parent")) eqn:Hparent.
    { rewrite (other_prefix line _ (lit "author") Hparent eq_refl),
        (other_prefix line _ (lit "committer") Hparent eq_refl),
        (other_prefix line _ (lit "tree") Hparent eq_refl),
        (other_prefix line _ (lit "message") Hparent eq_refl).
      destruct (nth_error (split_ws line) 1) as [v|] eqn:Hv; cbn [rbind of_option] in Hparse;
        [|discriminate].
      change (second_word line) with (nth_error (split_ws line) 1). rewrite Hv.
      exact (IH _ _ Hparse). }
    destruct (startswith line (lit "author")) eqn:Hauthor.
    { rewrite (other_prefix line _ (lit "committer") Hauthor eq_refl),
        (other_prefix line _ (lit "tree") Hauthor eq_refl),
        (other_prefix line _ (lit "message") Hauthor eq_refl).
      destruct (nth_error (split_ws line) 1) as [v|] eqn:Hv; cbn [rbind of_option] in Hparse;
        [|discriminate].
      change (second_word line) with (nth_error (split_ws line) 1). rewrite Hv.
      exact (IH _ _ Hparse). }
    destruct (startswith line (lit "committer")) eqn:Hcommitter.
    { rewrite (other_prefix line _ (lit "tree") Hcommitter eq_refl),
        (other_prefix line _ (lit "message") Hcommitter eq_refl).
      destruct (nth_error (split_ws line) 1) as [name|] eqn:Hname;
        cbn [rbind of_option] in Hparse; [|discriminate].
      destruct (nth_error (split_ws line) 2) as [email|] eqn:Hemail;
        cbn [rbind of_option] in Hparse; [|discriminate].
      destruct (nth_from_end2 (split_ws line)) as [tok|] eqn:Htok;
        cbn [rbind of_option] in Hparse; [|discriminate].
      destruct (py_int E tok) as [t|] eqn:Ht; cbn [rbind of_option] in Hparse; [|discriminate].
      change (second_word line) with (nth_error (split_ws line) 1).
      change (third_word line) with (nth_error (split_ws line) 2).
      unfold time_word at 2. rewrite Hname, Hemail, Htok, Ht.
      exact (IH _ _ Hparse). }
    destruct (startswith line (lit "tree")) eqn:Htree.
    { rewrite (other_prefix line _ (lit "message") Htree eq_refl).
      destruct (nth_error (split_ws line) 1) as [v|] eqn:Hv; cbn [rbind of_option] in Hparse;
        [|discriminate].
      change (second_word line) with (nth_error (split_ws line) 1). rewrite Hv.
      exact (IH _ _ Hparse). }
    destruct (startswith line (lit "message")) eqn:Hmessage.
    { unfold second_word at 5.
      destruct (nth_error (split_ws line) 1) as [v|] eqn:Hv; cbn [rbind of_option] in Hparse;
        [|discriminate].
      change (second_word line) with (nth_error (split_ws line) 1). rewrite Hv.
      exact (IH _ _ Hparse). }
    exact (IH _ _ Hparse).
Qed.

Lemma test_parse_lines_hash (E : Env) (lines : list str) (c c' : TestScript.commit_data) :
  TestScript.parse_lines E lines c = Ok c' ->
  TestScript.commit_hash c' = TestScript.commit_hash c.
Proof. intros Hparse. now apply test_parse_lines_spec in Hparse. Qed.

(** X15.  The dictionary that [parse_commit_data] of test.py returns
    holds the given hash, and every other entry is read from the last
    line of the whole object that begins with the entry's keyword, the
    header and the message alike: the second word of that line for
    [parent], [author], [committer], [tree] and [message], its third
    word for [committer_email], and the integer read from its last word
    but one for [committer_timestamp].  An entry whose keyword begins no
    line is absent. *)
Theorem test_parser_reads_last_line_of_each_keyword (E : Env) (data : bytes) (h : str)
        (c : TestScript.commit_data) :
  TestScript.parse_commit_data E data h = Ok c ->
  exists text,
    decode data = Some text
    /\ TestScript.commit_hash c = h
    /\ TestScript.parent c = from_last (lit "parent") second_word (split_on 10 text) None
    /\ TestScript.author c = from_last (lit "author") second_word (split_on 10 text) None
    /\ TestScript.committer c
       = from_last (lit "committer") second_word (split_on 10 text) None
    /\ TestScript.committer_email c
       = from_last (lit "committer") third_word (split_on 10 text) None
    /\ TestScript.committer_timestamp c
       = from_last (lit "committer") (time_word E) (split_on 10 text) None
    /\ TestScript.tree c = from_last (lit "tree") second_word (split_on 10 text) None
    /\ TestScript.message c = from_last (lit "message") second_word (split_on 10 text) None.
Proof.
  unfold TestScript.parse_commit_data.
  destruct (decode data) as [text|]; cbn [rbind of_option]; [|discriminate].
  intros Hparse. exists text. split; [reflexivity|].
  split; [exact (test_parse_lines_hash E _ _ _ Hparse)|].
  exact (test_parse_lines_fields E _ _ _ Hparse).
Qed.

Lemma test_parser_reads_last_line_of_each_keyword_witness :
  exists c,
    TestScript.parse_commit_data (Sample.env []) TestScript.mock_commit_data (lit "abc") = Ok c
    /\ TestScript.author c = Some (lit "John")
    /\ TestScript.committer_email c = Some (lit "Doe")
    /\ TestScript.message c = Some (lit "Initial").
Proof.
  destruct (TestScript.parse_commit_data (Sample.env []) TestScript.mock_commit_data
              (lit "abc")) as [c|e] eqn:Hparse; [|vm_compute in Hparse; discriminate].
  exists c. split; [reflexivity|].
  destruct (test_parser_reads_last_line_of_each_keyword _ _ _ _ Hparse)
    as (text & Htext & _ & _ & Hauthor & _ & Hemail & _ & _ & Hmessage).
  vm_compute in Htext. injection Htext as <-.
  rewrite Hauthor, Hemail, Hmessage. vm_compute. repeat split.
Defined.

Lemma filter_none {A} (f : A -> bool) (l : list A) :
  Forall (fun x => f x = false) l -> filter f l = [].
Proof.
  induction 1 as [|x l Hx _ IH]; [reflexivity|]. cbn [filter]. now rewrite Hx.
Qed.

Lemma split_on_prefix (sep : N) (pre s : str) :
  ~ In sep pre ->
  split_on sep (pre ++ s) = (pre ++ hd [] (split_on sep s)) :: tl (split_on sep s).
Proof.
  induction pre as [|c pre IH]; intros Hno; cbn [app].
  - now destruct (split_on_nonempty sep s) as [w [ws ->]].
  - cbn [split_on]. destruct (N.eqb_spec c sep) as [->|_]; [elim Hno; now left|].
    rewrite IH by (intros Hin; apply Hno; now right). reflexivity.
Qed.

(** X16.  [read_commit] hands the decompressed object to the parser with
    its header: the first line the parser sees is [commit <size>],
    the null byte and the first line of the payload run together.  That
    line begins with none of the five keywords, so nothing is read from
    the first line of the payload, where a commit names its tree: the
    [tree] entry comes from the later lines alone, and is absent when
    none of them begins with [tree]. *)
Theorem tree_line_behind_the_header_is_not_read (E : Env) (data : bytes) (h size payload : str)
        (c : TestScript.commit_data) :
  decode data = Some (lit "commit " ++ size ++ 0 :: payload) ->
  ~ In 10 size ->
  TestScript.parse_commit_data E data h = Ok c ->
  TestScript.tree c = from_last (lit "tree") second_word (tl (split_on 10 payload)) None
  /\ (Forall (fun l => startswith l (lit "tree") = false) (tl (split_on 10 payload)) ->
      TestScript.tree c = None).
Proof.
  intros Hdecode Hsize Hparse.
  unfold TestScript.parse_commit_data in Hparse. rewrite Hdecode in Hparse.
  cbn [rbind of_option] in Hparse.
  apply test_parse_lines_fields in Hparse.
  destruct Hparse as (_ & _ & _ & _ & _ & Htree & _).
  assert (Hfirst : TestScript.tree c
                   = from_last (lit "tree") second_word (tl (split_on 10 payload)) None).
  { rewrite Htree.
    replace (lit "commit " ++ size ++ 0 :: payload)
      with ((lit "commit " ++ size ++ [0]) ++ payload)
      by (now rewrite <- !app_assoc).
    rewrite split_on_prefix.
    - rewrite from_last_cons. reflexivity.
    - intros Hin. apply in_app_or in Hin. destruct Hin as [Hin|Hin].
      + vm_compute in Hin. intuition discriminate.
      + apply in_app_or in Hin. destruct Hin as [Hin|[Hin|[]]]; [tauto | discriminate]. }
  split; [exact Hfirst|].
  intros Hnone. rewrite Hfirst. unfold from_last, last_line_with.
  now rewrite (filter_none _ _ Hnone).
Qed.

Lemma tree_line_behind_the_header_is_not_read_witness :
  TestScript.parse_commit_data Sample.history (Sample.loose "commit" Sample.root_payload)
    (lit Sample.root_hash) = Ok Sample.root_record
  /\ TestScript.tree Sample.root_record = None.
Proof.
  assert (Hparse : TestScript.parse_commit_data Sample.history
                     (Sample.loose "commit" Sample.root_payload) (lit Sample.root_hash)
                   = Ok Sample.root_record) by (vm_compute; reflexivity).
  split; [exact Hparse|].
  apply (proj2 (tree_line_behind_the_header_is_not_read
                  Sample.history (Sample.loose "commit" Sample.root_payload)
                  (lit Sample.root_hash) (lit "133")
                  (match decode Sample.root_payload with Some p => p | None => [] end)
                  Sample.root_record
                  ltac:(vm_compute; reflexivity)
                  ltac:(vm_compute; intuition discriminate)
                  Hparse)).
  vm_compute. repeat constructor.
Defined.

(** ** The walk from HEAD and the start date *)

Lemma walk_loop_date (E : Env) (repo : str) (d : Z) :
  forall fuel h acc,
    events (TestScript.walk_loop E fuel repo d h (filter (on_or_after d) acc))
    = events (TestScript.walk_loop E fuel repo beginning_of_time h acc)
    /\ outcome (TestScript.walk_loop E fuel repo d h (filter (on_or_after d) acc))
       = keep_from d (outcome (TestScript.walk_loop E fuel repo beginning_of_time h acc)).
Proof.
  induction fuel as [|fuel IH]; intros h acc; cbn [TestScript.walk_loop];
    [split; reflexivity|].
  destruct (null h); [split; reflexivity|].
  destruct (TestScript.read_commit E h repo) as [[c|e] l]; cbn [bind];
    [|split; reflexivity].
  destruct (TestScript.committer_timestamp c) as [t|] eqn:Htime;
    cbn [of_option lift bind]; [|split; reflexivity].
  unfold TestScript.fromtimestamp.
  destruct ((TestScript.min_timestamp <=? t) && (t <=? TestScript.max_timestamp))%Z
    eqn:Hrange;
    [|destruct ((TestScript.gmtime_min <=? t) && (t <=? TestScript.gmtime_max))%Z;
      [|destruct ((TestScript.time_t_min <=? t) && (t <=? TestScript.time_t_max))%Z];
      split; reflexivity].
  cbn [bind]. cbv zeta.
  assert (Hfirst : (beginning_of_time <=? t * 1000000)%Z = true).
  { apply andb_true_iff in Hrange. destruct Hrange as [Hlo _].
    apply Z.leb_le in Hlo. apply Z.leb_le. unfold beginning_of_time. lia. }
  rewrite Hfirst.
  assert (Hkeep : (if (d <=? t * 1000000)%Z
                   then filter (on_or_after d) acc ++ [c]
                   else filter (on_or_after d) acc)
                  = filter (on_or_after d) (acc ++ [c])).
  { assert (Hc : on_or_after d c = (d <=? t * 1000000)%Z)
      by (unfold on_or_after; now rewrite Htime).
    rewrite filter_app. cbn [filter]. rewrite Hc.
    destruct (d <=? t * 1000000)%Z; [reflexivity | now rewrite app_nil_r]. }
  rewrite Hkeep.
  destruct (TestScript.parent c) as [next|]; [|split; reflexivity].
  destruct (null next); [split; reflexivity|].
  destruct (IH next (acc ++ [c])) as [Hev Hout].
  destruct (TestScript.walk_loop E fuel repo d next (filter (on_or_after d) (acc ++ [c])))
    as [r1 l1].
  destruct (TestScript.walk_loop E fuel repo beginning_of_time next (acc ++ [c]))
    as [r2 l2].
  cbn [outcome events fst snd] in *. subst. split; reflexivity.
Qed.

(** X17.  The start date of [get_commits_after_date] does not shorten
    the walk: whatever the date, the run makes the same reads and prints
    as with the earliest date there is, it fails or runs on where that
    run does, and it returns that run's commits with those dated before
    the start date left out. *)
Theorem start_date_only_filters (E : Env) (fuel : nat) (repo : str) (start_date : Z) :
  events (TestScript.get_commits_after_date E fuel repo start_date)
  = events (TestScript.get_commits_after_date E fuel repo beginning_of_time)
  /\ outcome (TestScript.get_commits_after_date E fuel repo start_date)
     = keep_from start_date
         (outcome (TestScript.get_commits_after_date E fuel repo beginning_of_time)).
Proof.
  unfold TestScript.get_commits_after_date.
  destruct (TestScript.resolve_head E repo) as [[h|e] l]; cbn [bind];
    [|split; reflexivity].
  destruct (walk_loop_date E repo start_date fuel h []) as [Hev Hout].
  cbn [filter] in Hev, Hout.
  destruct (TestScript.walk_loop E fuel repo start_date h []) as [r1 l1].
  destruct (TestScript.walk_loop E fuel repo beginning_of_time h []) as [r2 l2].
  cbn [outcome events fst snd] in *. subst. split; reflexivity.
Qed.

Lemma fromtimestamp_in_range (t : Z) :
  (TestScript.min_timestamp <= t <= TestScript.max_timestamp)%Z ->
  TestScript.fromtimestamp t = Ok (t * 1000000)%Z.
Proof.
  intros [Hlo Hhi]. unfold TestScript.fromtimestamp.
  apply Z.leb_le in Hlo, Hhi. now rewrite Hlo, Hhi.
Qed.

Lemma walk_loop_self_parent (E : Env) (repo h : str) (c : TestScript.commit_data) (t d : Z) :
  outcome (TestScript.read_commit E h repo) = Ok c ->
  TestScript.parent c = Some h ->
  TestScript.committer_timestamp c = Some t ->
  (TestScript.min_timestamp <= t <= TestScript.max_timestamp)%Z ->
  forall fuel acc,
    outcome (TestScript.walk_loop E fuel repo d h acc) = Ok None
    /\ opened (events (TestScript.walk_loop E fuel repo d h acc))
       = repeat (TestScript.commit_file_path repo h) fuel.
Proof.
  intros Hread Hparent Htime Hrange.
  destruct (read_commit_ok E h repo c Hread) as [Hnull [_ [Hevents _]]].
  induction fuel as [|fuel IH]; intros acc; cbn [TestScript.walk_loop repeat];
    [split; reflexivity|].
  rewrite Hnull.
  destruct (TestScript.read_commit E h repo) as [r l].
  cbn [outcome events fst snd] in Hread, Hevents. subst r l.
  cbn [bind]. rewrite Htime. cbn [of_option lift bind].
  rewrite (fromtimestamp_in_range t Hrange). cbn [bind]. cbv zeta.
  rewrite Hparent, Hnull.
  set (acc' := if (d <=? t * 1000000)%Z then acc ++ [c] else acc).
  destruct (IH acc') as [Hout Hopened].
  destruct (TestScript.walk_loop E fuel repo d h acc') as [r l].
  cbn [outcome events fst snd app] in *. subst r.
  split; [reflexivity|].
  change (?a :: ?b :: ?x :: l) with ([a; b; x] ++ l).
  rewrite opened_app, Hopened. reflexivity.
Qed.

(** X18.  The walk keeps no record of the commits it has visited.  When
    HEAD resolves to an entry that can be read, whose record carries a
    committer timestamp within the range of dates, and whose recorded
    parent is the entry itself, the loop of [get_commits_after_date]
    never ends: whatever the number of iterations allowed, it has not
    returned, and it has opened the same file once per iteration.  (An
    entry without a committer timestamp, or with one out of range, ends
    the loop with an exception instead and is not covered here.) *)
Theorem walk_never_leaves_a_cycle (E : Env) (repo h : str) (c : TestScript.commit_data)
        (t start_date : Z) (fuel : nat) :
  outcome (TestScript.resolve_head E repo) = Ok h ->
  outcome (TestScript.read_commit E h repo) = Ok c ->
  TestScript.parent c = Some h ->
  TestScript.committer_timestamp c = Some t ->
  (TestScript.min_timestamp <= t <= TestScript.max_timestamp)%Z ->
  outcome (TestScript.get_commits_after_date E fuel repo start_date) = Ok None
  /\ opened (events (TestScript.walk_loop E fuel repo start_date h []))
     = repeat (TestScript.commit_file_path repo h) fuel.
Proof.
  intros Hhead Hread Hparent Htime Hrange.
  destruct (walk_loop_self_parent E repo h c t start_date Hread Hparent Htime Hrange fuel [])
    as [Hout Hopened].
  split; [|exact Hopened].
  unfold TestScript.get_commits_after_date.
  rewrite (bind_ok _ _ _ Hhead). exact Hout.
Qed.

Lemma walk_never_leaves_a_cycle_witness :
  outcome (TestScript.get_commits_after_date self_store 1000 Sample.repo 0) = Ok None.
Proof.
  destruct (outcome (TestScript.read_commit self_store (lit self_hash) Sample.repo))
    as [c|e] eqn:Hread; [|vm_compute in Hread; discriminate].
  apply (walk_never_leaves_a_cycle self_store Sample.repo (lit self_hash) c 100 0 1000).
  - vm_compute. reflexivity.
  - exact Hread.
  - vm_compute in Hread. injection Hread as <-. reflexivity.
  - vm_compute in Hread. injection Hread as <-. reflexivity.
  - vm_compute. split; discriminate.
Defined.

Lemma walk_loop_broken (E : Env) (repo : str) (e : exn) (d : Z) (h : str) (n : nat) :
  broken_chain E repo e h n ->
  forall fuel acc,
    (n < fuel)%nat ->
    outcome (TestScript.walk_loop E fuel repo d h acc) = Raise e.
Proof.
  induction 1 as [h Hh Hread|h c t p n Hread Htime Hrange Hparent Hp Hchain IH];
    intros fuel acc Hfuel; (destruct fuel as [|fuel]; [lia|]);
    cbn [TestScript.walk_loop].
  - destruct h as [|x h]; [now elim Hh|]. cbn [null].
    destruct (TestScript.read_commit E (x :: h) repo) as [r l].
    cbn [outcome fst] in Hread. subst r. reflexivity.
  - destruct (read_commit_ok E h repo c Hread) as [Hnull _]. rewrite Hnull.
    destruct (TestScript.read_commit E h repo) as [r l].
    cbn [outcome fst] in Hread. subst r.
    cbn [bind]. rewrite Htime. cbn [of_option lift bind].
    rewrite (fromtimestamp_in_range t Hrange). cbn [bind]. cbv zeta.
    rewrite Hparent.
    assert (Hpnull : null p = false) by (destruct p; [congruence | reflexivity]).
    rewrite Hpnull.
    set (acc' := if (d <=? t * 1000000)%Z then acc ++ [c] else acc).
    assert (Hout := IH fuel acc' ltac:(lia)).
    destruct (TestScript.walk_loop E fuel repo d p acc') as [r l'].
    cbn [outcome fst] in *. now subst r.
Qed.

(** X19.  A failure on the way discards what came before it.  When, going
    from the commit HEAD resolves to along the recorded parents, the
    first [n] commits can be read and each carries a committer timestamp
    within the range of dates, and reading the next one raises an
    exception (its file is missing, say, as after the objects were
    packed), [get_commits_after_date] raises that exception: none of the
    commits already read is returned. *)
Theorem walk_fails_as_a_whole (E : Env) (repo h : str) (e : exn) (n fuel : nat)
        (start_date : Z) :
  outcome (TestScript.resolve_head E repo) = Ok h ->
  broken_chain E repo e h n ->
  (n < fuel)%nat ->
  outcome (TestScript.get_commits_after_date E fuel repo start_date) = Raise e.
Proof.
  intros Hhead Hchain Hfuel. unfold TestScript.get_commits_after_date.
  rewrite (bind_ok _ _ _ Hhead).
  exact (walk_loop_broken E repo e start_date h n Hchain fuel [] Hfuel).
Qed.

Lemma walk_fails_as_a_whole_witness :
  outcome (TestScript.get_commits_after_date (Sample.env [Sample.merge]) 5 Sample.repo 0)
  = Raise FileNotFoundError.
Proof.
  apply (walk_fails_as_a_whole (Sample.env [Sample.merge]) Sample.repo
           (lit Sample.merge_hash) FileNotFoundError 1 5 0).
  - vm_compute. reflexivity.
  - apply broken_later with (c := Sample.merge_record) (t := 300%Z)
                            (p := lit Sample.mainline_hash).
    + vm_compute. reflexivity.
    + reflexivity.
    + vm_compute. split; discriminate.
    + reflexivity.
    + discriminate.
    + apply broken_here; [discriminate | vm_compute; reflexivity].
  - lia.
Defined.

(** ** The graph, the test and HEAD (test.py) *)

Lemma chain_head (E : Env) (repo h : str) (cs : list TestScript.commit_data) :
  chain E repo h cs ->
  exists c rest, cs = c :: rest /\ TestScript.commit_hash c = h.
Proof.
  intros Hchain.
  destruct Hchain as [h c t text Hread _ _ _ _|h c t text p cs Hread _ _ _ _ _ _];
    destruct (read_commit_ok E h repo c Hread) as [_ [Hhash _]];
    now exists c; eexists.
Qed.

Lemma declared_generate_graph (cs : list TestScript.commit_data) :
  declared (TestScript.generate_graph cs) = map TestScript.commit_hash cs.
Proof.
  induction cs as [|c cs IH]; [reflexivity|].
  unfold TestScript.generate_graph in *. cbn [flat_map map].
  unfold declared in *. cbn [app flat_map]. rewrite flat_map_app, IH.
  destruct (TestScript.parent c) as [p|]; [destruct (null p)|]; reflexivity.
Qed.

Lemma drawn_generate_graph_cons (c : TestScript.commit_data)
      (cs : list TestScript.commit_data) :
  drawn (TestScript.generate_graph (c :: cs))
  = match TestScript.parent c with
    | Some p => if null p then [] else [(p, TestScript.commit_hash c)]
    | None => []
    end ++ drawn (TestScript.generate_graph cs).
Proof.
  unfold TestScript.generate_graph. cbn [flat_map].
  unfold drawn. cbn [app flat_map]. rewrite flat_map_app.
  destruct (TestScript.parent c) as [p|]; [destruct (null p)|]; reflexivity.
Qed.

(** X20.  The graph drawn of a complete walk is a path.  For the commits
    of the chain that the walk follows from a commit, [generate_graph]
    declares one node per commit, named by its hash, in the order of the
    walk, and draws exactly the edges from each commit's successor on the
    chain to the commit: no node is left out and no edge leaves the
    chain. *)
Theorem graph_of_a_walk_is_a_path (E : Env) (repo h : str)
        (cs : list TestScript.commit_data) :
  chain E repo h cs ->
  declared (TestScript.generate_graph cs) = map TestScript.commit_hash cs
  /\ drawn (TestScript.generate_graph cs) = path_edges (map TestScript.commit_hash cs).
Proof.
  intros Hchain. split; [apply declared_generate_graph|].
  induction Hchain as [h c t text Hread Htime Hrange Htext Hlast
                      |h c t text p cs Hread Htime Hrange Htext Hlast Hp Hchain IH];
    destruct (read_commit_ok E h repo c Hread) as [_ [_ [_ [text' [Htext' Hparent]]]]];
    rewrite Htext in Htext'; injection Htext' as <-;
    rewrite drawn_generate_graph_cons, Hparent.
  - destruct Hlast as [-> | ->]; reflexivity.
  - rewrite Hlast.
    assert (Hpnull : null p = false) by (destruct p; [congruence | reflexivity]).
    rewrite Hpnull, IH.
    destruct (chain_head E repo p cs Hchain) as [c2 [rest [-> Hhash]]].
    cbn [map path_edges app]. now rewrite Hhash.
Qed.

Lemma graph_of_a_walk_is_a_path_witness :
  drawn (TestScript.generate_graph
           [Sample.merge_record; Sample.mainline_record; Sample.root_record])
  = [(lit Sample.mainline_hash, lit Sample.merge_hash);
     (lit Sample.root_hash, lit Sample.mainline_hash)].
Proof.
  rewrite (proj2 (graph_of_a_walk_is_a_path Sample.history Sample.repo
                    (lit Sample.merge_hash) _ sample_chain)).
  reflexivity.
Defined.

Lemma mock_parse (E : Env) (h : str) :
  TestScript.parse_commit_data (TestScript.mock_decompress E) TestScript.mock_commit_data h
  = match py_int E (lit "1625827216") with
    | Some t =>
        Ok {| TestScript.commit_hash := h;
              TestScript.parent := Some (lit "def456");
              TestScript.author := Some (lit "John");
              TestScript.committer := Some (lit "John");
              TestScript.committer_email := Some (lit "Doe");
              TestScript.committer_timestamp := Some t;
              TestScript.tree := Some (lit "abc123");
              TestScript.message := Some (lit "Initial") |}
    | None => Raise ValueError
    end.
Proof.
  destruct E as [files walked unzip int]. vm_compute.
  match goal with |- context [int ?tok] => destruct (int tok) end; reflexivity.
Qed.

(** X21.  [test_read_commit] cannot pass.  The hash it uses names no
    file its mocked [zlib.decompress] could stand in for unless that
    file exists, so the call raises [FileNotFoundError] (or
    [IsADirectoryError]) first; and where the file exists, the parser
    keeps the second word of the [message] line only, so the last
    assertion compares [Initial] with [Initial commit] and fails.  The
    outcome is a function of the file system and of [int] alone, and it
    is never a pass. *)
Theorem test_read_commit_cannot_pass (E : Env) :
  fst (TestScript.test_read_commit E) = test_read_commit_verdict E
  /\ fst (TestScript.test_read_commit E) <> TestScript.Passed.
Proof.
  assert (Hverdict : fst (TestScript.test_read_commit E) = test_read_commit_verdict E).
  { unfold TestScript.test_read_commit, test_read_commit_verdict, TestScript.read_commit.
    cbv zeta. cbn [fst].
    change (Nat.ltb (List.length (lit "abc1234567890def1234567890abcdef12345678")) 40)
      with false.
    cbv iota. fold mock_object_path.
    unfold path_exists, open_rb, decompress, print.
    change (fs (TestScript.mock_decompress E)) with (fs E).
    destruct (fs E mock_object_path) as [[content|]|]; cbn [emit bind ret raise negb outcome fst];
      try reflexivity.
    change (zlib_decompress (TestScript.mock_decompress E) content)
      with (Some TestScript.mock_commit_data).
    cbn [of_option lift bind outcome fst]. rewrite mock_parse.
    destruct (py_int E (lit "1625827216")) as [t|]; [|reflexivity].
    unfold TestScript.assert_entry. cbn [TestScript.commit_hash TestScript.parent
      TestScript.committer_timestamp TestScript.message].
    rewrite str_eqb_refl.
    change (str_eqb (lit "def456") (lit "def456")) with true.
    change (str_eqb (lit "Initial") (lit "Initial commit")) with false.
    cbv iota. now destruct (t =? 1625827216)%Z. }
  split; [exact Hverdict|].
  rewrite Hverdict. unfold test_read_commit_verdict.
  destruct (fs E mock_object_path) as [[content|]|]; try discriminate.
  destruct (py_int E (lit "1625827216")) as [t|]; [|discriminate].
  destruct (t =? 1625827216)%Z; discriminate.
Qed.

Lemma open_r_events (E : Env) (path : str) : events (open_r E path) = [EvOpen path].
Proof.
  unfold open_r, open_rb.
  destruct (fs E path) as [[content|]|]; try reflexivity.
  cbn [emit bind ret]. now destruct (decode content).
Qed.

(** X22.  A HEAD without a target.  When the stripped content of HEAD is
    shorter than a hash and has no second word, [get_commits_after_date]
    opens HEAD and nothing else; it raises [IndexError] when the content
    begins with [ref:] (a branch name written right behind the colon is
    not found), returns the empty list when the content is empty, and
    raises [ValueError] otherwise. *)
Theorem head_without_a_target (E : Env) (fuel : nat) (repo content : str) (start_date : Z) :
  outcome (open_r E (path_join repo [lit ".git"; lit "HEAD"])) = Ok content ->
  nth_error (split_ws (strip content)) 1 = None ->
  (List.length (strip content) < 40)%nat ->
  outcome (TestScript.get_commits_after_date E (S fuel) repo start_date)
  = (if startswith (strip content) (lit "ref:") then Raise IndexError
     else if null (strip content) then Ok (Some [])
     else Raise ValueError)
  /\ events (TestScript.get_commits_after_date E (S fuel) repo start_date)
     = [EvOpen (path_join repo [lit ".git"; lit "HEAD"])].
Proof.
  intros Hopen Hwords Hshort.
  unfold TestScript.get_commits_after_date, TestScript.resolve_head. cbv zeta.
  pose proof (open_r_events E (path_join repo [lit ".git"; lit "HEAD"])) as Hevents.
  destruct (open_r E (path_join repo [lit ".git"; lit "HEAD"])) as [r l].
  cbn [outcome events fst snd] in Hopen, Hevents. subst r l.
  cbn [bind].
  destruct (startswith (strip content) (lit "ref:")).
  - rewrite Hwords. split; reflexivity.
  - cbn [ret bind TestScript.walk_loop].
    destruct (null (strip content)) eqn:Hnull; [split; reflexivity|].
    unfold TestScript.read_commit.
    apply Nat.ltb_lt in Hshort. rewrite Hshort. split; reflexivity.
Qed.

Lemma head_without_a_target_witness :
  outcome (TestScript.get_commits_after_date glued_head 5 Sample.repo 0) = Raise IndexError.
Proof.
  apply (proj1 (head_without_a_target glued_head 4 Sample.repo
                  (lit "ref:refs/heads/main" ++ nl) 0
                  ltac:(vm_compute; reflexivity)
                  ltac:(vm_compute; reflexivity)
                  ltac:(vm_compute; lia))).
Defined.

(** ** The second pass of the graph builder (visualizer.py) *)

Lemma vis_read_ok_events (E : Env) (repo h : str) (data : bytes) :
  outcome (VIS.read_git_object E repo h) = Ok data ->
  events (VIS.read_git_object E repo h) = read_events repo h.
Proof.
  unfold VIS.read_git_object, path_exists, open_rb, decompress, read_events.
  destruct (fs E (VIS.object_path repo h)) as [[content|]|]; cbn; try discriminate.
  now destruct (zlib_decompress E content).
Qed.

Lemma build_commit_graph_loop_events (E : Env) (repo : str) (hashes : list str) :
  (forall h, In h hashes -> exists t, author_timestamp E repo h = Some t) ->
  forall g,
    events (VIS.build_commit_graph_loop E repo hashes g)
    = flat_map (read_events repo) hashes.
Proof.
  induction hashes as [|h hashes IH]; intros Hall g; cbn [VIS.build_commit_graph_loop];
    [reflexivity|].
  destruct (Hall h (or_introl eq_refl)) as [t Htime].
  destruct (author_timestamp_readable E repo h t Htime)
    as [data [text [tree_hash [parents [Hread [Hdecode Hparse]]]]]].
  rewrite (bind_ok _ _ _ Hread). cbn [events snd flat_map].
  rewrite (vis_read_ok_events E repo h data Hread). f_equal.
  rewrite Hdecode. cbn [of_option lift bind]. rewrite Hparse. cbn [bind].
  rewrite <- (IH (fun x Hx => Hall x (or_intror Hx)) (dict_set h parents g)).
  now destruct (VIS.build_commit_graph_loop E repo hashes (dict_set h parents g)).
Qed.

(** X23.  [build_commit_graph] reads every selected commit twice.  After
    the scan, which probes every object met by the walk, it probes and
    opens the file of each commit of the scan's result once more, in the
    order of that result, and does nothing else: it walks no directory a
    second time, prints nothing and writes nothing. *)
Theorem graph_builder_reads_selected_commits_twice (E : Env) (repo : str) (date_before : Z) :
  events (VIS.build_commit_graph E repo date_before)
  = events (VIS.get_all_commits E repo date_before)
    ++ flat_map (read_events repo)
         (map fst (VIS.sort_by_time (encountered E repo date_before))).
Proof.
  unfold VIS.build_commit_graph.
  rewrite events_bind, get_all_commits_outcome. f_equal.
  apply build_commit_graph_loop_events.
  intros h Hin. apply in_map_iff in Hin. destruct Hin as [[h' t] [<- Hin]].
  apply (Permutation_in _ (sort_by_time_perm _)) in Hin.
  apply encountered_spec in Hin. exists t. tauto.
Qed.

(** ** The scan by author date against the layout of the store *)

Lemma stored_names_walked (dirs : list (str * list str)) :
  VIS.walked_objects dirs
  = List.concat (map (fun d => map (app (basename (fst d))) (snd d)) dirs).
Proof.
  unfold VIS.walked_objects. rewrite flat_map_concat_map. f_equal.
  apply map_ext. now intros [root files].
Qed.

Lemma store_objects_stored (E : Env) (repo : str) :
  store_objects E repo = stored_names E repo.
Proof. apply stored_names_walked. Qed.

Lemma object_path_loose (repo h : str) : VIS.object_path repo h = loose_path repo h.
Proof. reflexivity. Qed.

Lemma has_second_word_spec (l : str) :
  has_second_word l = match nth_error (split_ws l) 1 with Some _ => true | None => false end.
Proof. unfold has_second_word. now destruct (split_ws l) as [|a [|b r]]. Qed.

(** The parser succeeds exactly on the headers all of whose lines can be
    read. *)
Lemma vis_parse_lines_readable (E : Env) (lines : list str) :
  forall t ps a,
    forallb (readable_line E) (take_until_blank lines)
    = match VIS.parse_lines E lines t ps a with Ok _ => true | Raise _ => false end.
Proof.
  induction lines as [|line rest IH]; intros t ps a;
    cbn [VIS.parse_lines take_until_blank]; [reflexivity|].
  destruct (startswith line (lit "tree")) eqn:Htree.
  { rewrite (prefixed_not_null line (lit "tree")) by (reflexivity || assumption).
    cbn [forallb orb]. unfold readable_line at 1. rewrite Htree. cbn [orb].
    rewrite has_second_word_spec.
    destruct (nth_error (split_ws line) 1) as [w|]; cbn [rbind of_option andb];
      [apply IH | reflexivity]. }
  destruct (startswith line (lit "parent")) eqn:Hparent.
  { rewrite (prefixed_not_null line (lit "parent")) by (reflexivity || assumption).
    cbn [forallb orb]. unfold readable_line at 1. rewrite Htree, Hparent. cbn [orb].
    rewrite has_second_word_spec.
    destruct (nth_error (split_ws line) 1) as [w|]; cbn [rbind of_option andb];
      [apply IH | reflexivity]. }
  destruct (startswith line (lit "author")) eqn:Hauthor.
  { rewrite (prefixed_not_null line (lit "author")) by (reflexivity || assumption).
    cbn [forallb orb]. unfold readable_line at 1. rewrite Htree, Hparent, Hauthor.
    cbn [orb]. unfold has_time_word, time_word.
    destruct (nth_from_end2 (split_ws line)) as [w|]; cbn [rbind of_option andb];
      [|reflexivity].
    destruct (py_int E w) as [z|]; cbn [rbind of_option andb]; [apply IH | reflexivity]. }
  destruct (null line); [reflexivity|].
  cbn [forallb]. unfold readable_line at 1. rewrite Htree, Hparent, Hauthor.
  cbn [orb andb]. apply IH.
Qed.

Lemma vis_author_time (E : Env) (text : str) :
  match VIS.parse_commit_object E text with
  | Ok (_, _, Some t) => Some t
  | _ => None
  end = author_time E text.
Proof.
  unfold author_time, header_lines.
  rewrite (vis_parse_lines_readable E (split_on 10 text) None [] None).
  fold (VIS.parse_commit_object E text).
  destruct (VIS.parse_commit_object E text) as [[[t ps] a]|e] eqn:Hparse; [|reflexivity].
  apply vis_parse_lines_fields in Hparse. destruct Hparse as [_ ->].
  unfold author_time_of_header.
  destruct (last_line_with (lit "author") (take_until_blank (split_on 10 text)));
    [|reflexivity].
  destruct (nth_from_end2 (split_ws s)) as [w|]; [|reflexivity].
  now destruct (py_int E w).
Qed.

Lemma author_timestamp_commit_time (E : Env) (repo h : str) :
  author_timestamp E repo h = commit_time E repo h.
Proof.
  unfold author_timestamp, commit_time. rewrite object_path_loose.
  destruct (fs E (loose_path repo h)) as [[content|]|]; try reflexivity.
  destruct (zlib_decompress E content) as [data|]; [|reflexivity].
  destruct (bstartswith data (blit "commit")); [|reflexivity].
  destruct (decode data) as [text|]; [|reflexivity].
  apply vis_author_time.
Qed.

Lemma encountered_dated (E : Env) (repo : str) (date_before : Z) :
  encountered E repo date_before = dated_commits E repo date_before.
Proof.
  unfold encountered, dated_commits. rewrite store_objects_stored.
  apply flat_map_ext. intros h. unfold selection.
  now rewrite author_timestamp_commit_time.
Qed.

Lemma opened_probe_events (E : Env) (repo : str) (objects : list str) :
  incl (opened (flat_map (probe_events E repo) objects)) (map (loose_path repo) objects).
Proof.
  induction objects as [|h objects IH]; [intros p []|].
  cbn [flat_map map]. rewrite opened_app. intros p Hp.
  apply in_app_or in Hp. destruct Hp as [Hp|Hp]; [|right; now apply IH].
  left. unfold probe_events in Hp. rewrite object_path_loose in Hp.
  destruct (fs E (loose_path repo h)); [|destruct Hp].
  destruct Hp as [Hp|[]]. exact Hp.
Qed.

(** C7.  The scan by author date always returns.  Its result lists the
    commits [selected]: exactly the files met by the walk of the whole
    object directory that are loose commit objects whose author time,
    the integer on the last [author] line of the header, is at or before
    the cutoff.  They are sorted by ascending author time, commits of
    equal time in the order the walk met them.  The scan opens files of
    the object directory only, so no branch head is consulted.  The graph
    builder then returns as well, and the keys of its graph are these
    commits in that order. *)
Theorem global_date_filter (E : Env) (repo : str) (date_before : Z) :
  exists selected : list (str * Z),
    outcome (VIS.get_all_commits E repo date_before) = Ok (map fst selected)
    /\ (forall h t,
           In (h, t) selected
           <-> In h (stored_names E repo)
               /\ commit_time E repo h = Some t /\ (t <= date_before)%Z)
    /\ Permutation selected (dated_commits E repo date_before)
    /\ StronglySorted le_time selected
    /\ (forall t, filter (has_time t) selected
                  = filter (has_time t) (dated_commits E repo date_before))
    /\ incl (opened (events (VIS.get_all_commits E repo date_before)))
            (map (loose_path repo) (stored_names E repo))
    /\ exists g,
         outcome (VIS.build_commit_graph E repo date_before) = Ok g
         /\ map fst g = first_occurrences [] (map fst selected).
Proof.
  exists (VIS.sort_by_time (encountered E repo date_before)).
  split; [apply get_all_commits_outcome|].
  split.
  { intros h t. rewrite <- store_objects_stored, <- author_timestamp_commit_time,
      <- encountered_spec.
    split; apply Permutation_in; [|symmetry]; apply sort_by_time_perm. }
  rewrite <- encountered_dated.
  split; [apply sort_by_time_perm|].
  split; [apply sort_by_time_sorted|].
  split; [intros t; apply sort_by_time_stable|].
  split; [|apply build_commit_graph_total].
  rewrite get_all_commits_events, <- store_objects_stored.
  apply opened_probe_events.
Qed.

Example scan_of_history :
  outcome (VIS.get_all_commits
             (Sample.env [Sample.merge; Sample.blob; Sample.mainline; Sample.latin;
                          Sample.feature; Sample.root])
             Sample.repo 250)
  = Ok [lit Sample.root_hash; lit Sample.feature_hash; lit Sample.mainline_hash]
  /\ dated_commits
       (Sample.env [Sample.merge; Sample.blob; Sample.mainline; Sample.latin;
                    Sample.feature; Sample.root])
       Sample.repo 250
     = [(lit Sample.mainline_hash, 250%Z); (lit Sample.feature_hash, 200%Z);
        (lit Sample.root_hash, 100%Z)].
Proof. split; vm_compute; reflexivity. Qed.

(** ** Edge statements in the rendered texts *)









(** *** DOT *)





(** *** PlantUML *)
















(** *** The graphs the two builders return *)






Example edge_statements_of_a_merge :
  GDV.generate_graphviz [(lit "M", [lit "A"; lit "B"])]
  = lit "digraph G {" ++ nl
    ++ lit "    node [shape=box, fontsize=10];" ++ nl
    ++ lit "    " ++ dq ++ lit "M" ++ dq ++ lit " [label=" ++ dq ++ lit "M" ++ dq ++ lit "];" ++ nl
    ++ dot_edge_text (lit "M") (lit "A") ++ nl
    ++ dot_edge_text (lit "M") (lit "B") ++ nl
    ++ lit "}"
  /\ VIS.generate_plantuml [(lit "M", [lit "A"; lit "B"])]
     = lit "@startuml" ++ nl
       ++ uml_edge_text (lit "A") 1 (lit "M") ++ nl
       ++ uml_edge_text (lit "B") 2 (lit "M") ++ nl
       ++ lit "@enduml"
  /\ uml_edge_text (lit "A") 1 (lit "M")
     = dq ++ lit "A (1)" ++ dq ++ lit " --> " ++ dq ++ lit "M (2)" ++ dq.
Proof. repeat split; vm_compute; reflexivity. Qed.

(** ** Dates out of range *)

Example fromtimestamp_out_of_range :
  map TestScript.fromtimestamp
      [253402300799; 253402300800; -62135596801; 67768036191676799;
       67768036191676800; -67768040609740801; 2 ^ 63 - 1; 2 ^ 63; - 2 ^ 63 - 1]%Z
  = [Ok 253402300799000000%Z; Raise ValueError; Raise ValueError; Raise ValueError;
     Raise IOError; Raise IOError; Raise IOError; Raise OverflowError;
     Raise OverflowError].
Proof. vm_compute. reflexivity. Qed.
